(** * lib/trainer.py: the training and evaluation driver

    A shallow embedding of [Trainer] (construction, [_snapshot],
    [_load_pretrain], [inference_one_batch], [inference_one_epoch],
    [train]) as a state-and-exception monad that also records the
    observable actions of a run (log lines, scalars sent to the summary
    writer, optimizer and scheduler calls, files written).

    The network, the loss, the optimizer, the scheduler, the gradient
    validator and the RANSAC evaluation are collaborators that live
    outside this file of the repository; they are the fields of the class
    [Externals] and every statement below is proved for all of them. *)

From Stdlib Require Import ZArith QArith List String Ascii Bool Lia.
From Stdlib Require Import DecimalString.
From stdpp Require Import base option gmap strings list.

Local Open Scope Z_scope.

(** ** Python arithmetic and strings used by the trainer *)

Inductive exn : Type :=
| ZeroDivisionError
| KeyError (key : string)
| AttributeError (what : string)
| RuntimeError (what : string).

(** [a % b] and [a // b] on Python integers: floor semantics, the result of
    [%] carries the sign of the divisor, and a zero divisor raises.  On a
    non-zero divisor these are [Z.modulo] and [Z.div]. *)
Definition py_mod (a b : Z) : exn + Z :=
  if b =? 0 then inl ZeroDivisionError else inr (a mod b).

Definition py_floordiv (a b : Z) : exn + Z :=
  if b =? 0 then inl ZeroDivisionError else inr (a / b).

(** [str(n)] for a Python integer. *)
Definition str_int (n : Z) : string := NilZero.string_of_int (Z.to_int n).

(** [needle in hay] on strings. *)
Fixpoint str_contains (needle hay : string) : bool :=
  if String.prefix needle hay then true
  else match hay with
       | EmptyString => false
       | String _ rest => str_contains needle rest
       end.

(** [s[n:]] for a string [s] and [n >= 0]. *)
Fixpoint str_drop (n : nat) (s : string) : string :=
  match n, s with
  | O, _ => s
  | S n', String _ rest => str_drop n' rest
  | S _, EmptyString => EmptyString
  end.

Definition ends_with_slash (s : string) : bool :=
  match String.get (String.length s - 1) s with
  | Some c => Ascii.eqb c "/"
  | None => false
  end.

(** [os.path.join(a, b)] on POSIX paths: an absolute second component
    discards the first; otherwise the two are joined with exactly one
    separator, none being added after an empty or slash-terminated
    directory. *)
Definition path_join (a b : string) : string :=
  if String.prefix "/" b then b
  else if (String.eqb a "" || ends_with_slash a)%bool then a +:+ b
  else a +:+ "/" +:+ b.

(** Floating-point values enter only through comparisons and one true
    division.  A finite double is the rational it denotes, and [<] on
    finite doubles is the order of those rationals; [None] stands for a
    value that is not finite (every comparison of [nan] is false and
    [inf < 0.2] is false). *)
Definition Qltb (x y : Q) : bool := negb (Qle_bool y x).

(** The double nearest to the literal [0.2] lies above 1/5 and its
    predecessor below it, so for a double [x], [x < 0.2] holds exactly
    when the rational [x] is below 1/5. *)
Definition rmse_threshold : Q := 1 # 5.

Definition rmse_below (r : option Q) : bool :=
  match r with
  | Some q => Qltb q rmse_threshold
  | None => false
  end.

(** [np.sum(rmses < 0.2)] *)
Definition np_sum_below (rmses : list (option Q)) : Z :=
  Z.of_nat (List.length (List.filter rmse_below rmses)).

(** The success counter starts as the Python integer [0] and becomes a
    numpy integer at the first [+= np.sum(...)]. *)
Inductive counter : Type :=
| PyInt (n : Z)
| NpInt (n : Z).

Definition counter_value (s : counter) : Z :=
  match s with PyInt n | NpInt n => n end.

Definition counter_add_np (s : counter) (k : Z) : counter :=
  NpInt (counter_value s + k).

(** The result of a true division: a rational, or a non-finite value. *)
Inductive quotient : Type :=
| Finite (q : Q)
| NotFinite.

(** [succ / d]: Python's true division raises on a zero divisor, numpy's
    returns [inf] or [nan] with a warning. *)
Definition true_divide (s : counter) (d : Z) : exn + quotient :=
  match s with
  | PyInt n => if d =? 0 then inl ZeroDivisionError
               else inr (Finite (inject_Z n / inject_Z d)%Q)
  | NpInt n => if d =? 0 then inr NotFinite
               else inr (Finite (inject_Z n / inject_Z d)%Q)
  end.

(** the line feed written as [\n] in the source *)
Definition nl : string := String (Ascii.ascii_of_nat 10) EmptyString.

(** [f'{n:4d}']: right-aligned in a field of width four. *)
Definition fmt_4d (n : Z) : string :=
  let s := str_int n in
  String.concat "" (List.repeat " "%string (4 - String.length s)) +:+ s.

(** ** Dictionaries

    A Python [dict] (and [OrderedDict]) iterates in insertion order, and
    that order is visible in the scalars and log lines the trainer emits;
    so a dictionary is a list of pairs, kept without repeated keys by
    [dict_set]. *)
Section Dict.
Context {V : Type}.

Definition dict_get (k : string) (d : list (string * V)) : option V :=
  snd <$> List.find (λ kv, String.eqb (fst kv) k) d.

Definition has_key (k : string) (d : list (string * V)) : bool :=
  List.existsb (λ kv, String.eqb (fst kv) k) d.

(** [d[k]]: raises [KeyError] on an absent key. *)
Definition dict_item (k : string) (d : list (string * V)) : exn + V :=
  match dict_get k d with
  | Some v => inr v
  | None => inl (KeyError k)
  end.

(** [d[k] = v] *)
Fixpoint dict_set (k : string) (v : V) (d : list (string * V)) : list (string * V) :=
  match d with
  | [] => [(k, v)]
  | (k', v') :: rest =>
      if String.eqb k' k then (k', v) :: rest else (k', v') :: dict_set k v rest
  end.

(** [OrderedDict(pairs)] *)
Definition ordered_dict (pairs : list (string * V)) : list (string * V) :=
  List.fold_left (λ d kv, dict_set (fst kv) (snd kv) d) pairs [].

Definition keys (d : list (string * V)) : list string := List.map fst d.
End Dict.

(** ** Running averages

    Modelled from the spec: [lib.timer.AverageMeter] is imported by the
    trainer but defined elsewhere in the repository.  The spec (4.5) gives
    it a count and a running sum per key, [update] adding one value, and
    the average as sum over count. *)
Record AverageMeter : Type := { am_sum : Q; am_count : Z }.

Definition AverageMeter_new : AverageMeter := {| am_sum := 0; am_count := 0 |}.

Definition update (m : AverageMeter) (value : Q) : AverageMeter :=
  {| am_sum := (am_sum m + value)%Q; am_count := am_count m + 1 |}.

Definition avg (m : AverageMeter) : Q := (am_sum m / inject_Z (am_count m))%Q.

Abbreviation LossInfo := (list (string * Q)) (only parsing).
Abbreviation StatsMeter := (list (string * AverageMeter)) (only parsing).

(** Lines 238-243: the meter is created from the keys of the first
    [loss_info] seen, and then every item of the current [loss_info] is
    added to the accumulator stored under its key. *)
Definition create_meter (loss_info : LossInfo) : StatsMeter :=
  List.fold_left (λ sm kv, dict_set (fst kv) AverageMeter_new sm) loss_info [].

Fixpoint update_meter (loss_info : LossInfo) (sm : StatsMeter) : exn + StatsMeter :=
  match loss_info with
  | [] => inr sm
  | (key, value) :: rest =>
      match dict_get key sm with
      | None => inl (KeyError key)
      | Some m => update_meter rest (dict_set key (update m value) sm)
      end
  end.

Definition record_stats (stats_meter : option StatsMeter) (loss_info : LossInfo)
  : exn + StatsMeter :=
  update_meter loss_info
    (match stats_meter with
     | None => create_meter loss_info
     | Some sm => sm
     end).

(** [stats_meter.items()], with [stats_meter] possibly still [None]. *)
Definition items (stats_meter : option StatsMeter) : exn + StatsMeter :=
  match stats_meter with
  | Some sm => inr sm
  | None => inl (AttributeError "'NoneType' object has no attribute 'items'")
  end.

Inductive phase : Type := Train | Val | Test.

Definition phase_name (ph : phase) : string :=
  match ph with Train => "train" | Val => "val" | Test => "test" end.

Definition is_train (ph : phase) : bool :=
  match ph with Train => true | _ => false end.

(** ** External collaborators *)
Class Externals : Type := {
  Tensor : Type;
  OptState : Type;
  SchedState : Type;
  Grad : Type;
  Batch : Type;
  Output : Type;
  (** [self.model(inputs, timers)]; the flag is [True] after
      [model.train()] and [False] after [model.eval()] *)
  model_forward : list (string * Tensor) → bool → Batch → Output;
  (** [self.loss(data)] *)
  desc_loss : Output → LossInfo;
  (** [loss_info['loss'].backward()] adds to the pending gradients *)
  loss_backward : list (string * Tensor) → Batch → Grad → Grad;
  (** the pending gradients after [optimizer.zero_grad()] *)
  grad_zero : Grad;
  (** [lib.utils.validate_gradient(self.model)] *)
  validate_gradient : list (string * Tensor) → Grad → bool;
  (** [optimizer.step()] *)
  optimizer_step : OptState → list (string * Tensor) → Grad
                   → OptState * list (string * Tensor);
  (** [scheduler.step()] *)
  scheduler_step : SchedState → SchedState;
  (** [get_recall(inputs, output, config)]: one RMSE per sample of the
      batch, computed by RANSAC registration and floating-point linear
      algebra *)
  get_recall : Batch → Output → list (option Q);
  nelement : Tensor → Z;
  (** [str] of a float, [f'{x:.2f}'], and [str] of the recall *)
  repr_float : Q → string;
  fmt_2f : Q → string;
  repr_quotient : quotient → string
}.

(** ** Data model *)

(** what [state_dict()] returns for a network: its parameters by name *)
Abbreviation StateDict := (list (string * Tensor)) (only parsing).

Section Trainer.
Context {X : Externals}.


(** A network, bare or inside a [DistributedDataParallel] or
    [nn.DataParallel] wrapper.  Both wrappers hold the wrapped network
    as the attribute [module], so every parameter name of the wrapped
    network shows up with the prefix ["module."]. *)
Inductive Model : Type :=
| Base (sd : StateDict)
| Wrapped (inner : Model).

Definition add_prefix (kv : string * Tensor) : string * Tensor :=
  ("module." +:+ fst kv, snd kv).

Fixpoint state_dict (m : Model) : StateDict :=
  match m with
  | Base sd => sd
  | Wrapped inner => List.map add_prefix (state_dict inner)
  end.

(** the parameters of the network itself, whatever wraps it *)
Fixpoint parameters (m : Model) : StateDict :=
  match m with
  | Base sd => sd
  | Wrapped inner => parameters inner
  end.

Fixpoint with_parameters (m : Model) (sd : StateDict) : Model :=
  match m with
  | Base _ => Base sd
  | Wrapped inner => Wrapped (with_parameters inner sd)
  end.

(** [model.module] *)
Definition module_of (m : Model) : exn + Model :=
  match m with
  | Wrapped inner => inr inner
  | Base _ => inl (AttributeError "object has no attribute 'module'")
  end.

Fixpoint load_values (m : Model) (look : string → option Tensor) : Model :=
  match m with
  | Base sd => Base (List.map (λ kv, (fst kv, default (snd kv) (look (fst kv)))) sd)
  | Wrapped inner => Wrapped (load_values inner (λ k, look ("module." +:+ k)))
  end.

(** [model.load_state_dict(d)] with the default [strict=True].  The
    copy is made in place, entry by entry: every parameter whose name is
    in [d] takes the value stored there, the others keep theirs.  Only
    then is a missing or an unexpected key reported as an error.  The
    result is the network as the call leaves it, and the exception the
    call ends in, if any. *)
Definition load_state_dict (m : Model) (d : StateDict) : Model * option exn :=
  let expected := keys (state_dict m) in
  (load_values m (λ k, dict_get k d),
   if (List.forallb (λ k, has_key k d) expected
       && List.forallb (λ k, List.existsb (String.eqb k) expected) (keys d))%bool
   then None
   else Some (RuntimeError "Error(s) in loading state_dict")).

(** The record passed to [torch.save]. *)
Record Checkpoint : Type := {
  ck_epoch : Z;
  ck_state_dict : StateDict;
  ck_optimizer : OptState;
  ck_scheduler : SchedState;
  ck_best_loss : Q;
  ck_best_recall : Q
}.

(** The options read from [args] / [self.config]. *)
Record Config : Type := {
  max_epoch : Z;
  batch_size : Z;
  iter_size : Z;
  args_verbose_freq : Z;   (* args.verbose_freq *)
  verbose : bool;
  distributed : bool;
  parallel : bool;
  do_valid : bool;
  local_rank : Z;
  exp_dir : string;
  save_dir : string;
  pretrain : string
}.

(** The mutable part of a [Trainer] and of its surroundings.  When
    [parallel] is set the optimizer object sits in a wrapper of its own
    that [_snapshot] sees through with [.module]; the field holds the
    state of the optimizer proper. *)
Record State : Type := {
  start_epoch : Z;
  model : Model;
  optimizer : OptState;
  scheduler : SchedState;
  verbose_freq : Z;        (* self.verbose_freq *)
  best_loss : Q;
  best_recall : Q;
  grads : Grad;            (* the [.grad] of the parameters *)
  fs : gmap string Checkpoint   (* the checkpoint files on disk *)
}.

(** Observable actions, tagged with the batch index where the source
    performs them inside the batch loop. *)
Inductive Event : Type :=
| EvPrint (line : string)
| EvLog (line : string)                          (* logger.write *)
| EvScalar (series : string) (value : Q) (step : Z)  (* add_scalar *)
| EvEpoch (epoch : Z) (ph : phase)               (* inference_one_epoch entered *)
| EvSetEpoch (ph : phase) (epoch : Z)            (* sampler.set_epoch *)
| EvZeroGrad (c : option Z)                      (* optimizer.zero_grad *)
| EvBatch (ph : phase) (c : Z)                   (* batch [c] taken from the loader *)
| EvValidate (c : Z) (valid : bool)              (* validate_gradient *)
| EvOptStep (c : Z)                              (* optimizer.step *)
| EvSchedStep                                    (* scheduler.step *)
| EvSave (path : string) (state : Checkpoint).   (* torch.save *)

(** ** The monad: state, exceptions, and the actions performed *)
Record Out (A : Type) : Type := MkOut {
  result : exn + A;
  final : State;
  events : list Event
}.
Global Arguments MkOut {A} _ _ _.
Global Arguments result {A} _.
Global Arguments final {A} _.
Global Arguments events {A} _.

Definition M (A : Type) : Type := State → Out A.

Definition ret {A} (a : A) : M A := λ st, MkOut (inr a) st [].

Definition bind {A B} (m : M A) (f : A → M B) : M B := λ st,
  let o := m st in
  match result o with
  | inl e => MkOut (inl e) (final o) (events o)
  | inr a => let o' := f a (final o) in
             MkOut (result o') (final o') (events o ++ events o')
  end.

Definition lift {A} (r : exn + A) : M A := λ st, MkOut r st [].
Definition emit (e : Event) : M unit := λ st, MkOut (inr tt) st [e].
Definition get : M State := λ st, MkOut (inr st) st [].
Definition modify (f : State → State) : M unit := λ st, MkOut (inr tt) (f st) [].
Definition when (b : bool) (m : M unit) : M unit := if b then m else ret tt.

(** stdpp's [x ← m; k] and [m;; k] are this [bind]. *)
Global Instance M_ret : MRet M := @ret.
Global Instance M_bind : MBind M := λ A B f m, bind m f.
End Trainer.


(** ** The methods of [Trainer]

    Calls into the collaborators are taken to return.  Left out, as they
    touch nothing the statements below speak of: the optional [timers],
    [gc.collect], [torch.cuda.empty_cache], the transfer of the batch
    fields to the device, the anomaly-detection context around the
    training epoch (it acts inside the backward pass of the collaborator),
    and the textual dump of the network that closes [__init__]. *)
Section Methods.
Context {X : Externals}.
Variable cfg : Config.
Variable loader : phase → list Batch.

Definition print (line : string) : M unit := emit (EvPrint line).
Definition logger_write (line : string) : M unit := emit (EvLog line).

Definition set_grads (g : Grad) (st : State) : State :=
  {| start_epoch := start_epoch st; model := model st; optimizer := optimizer st;
     scheduler := scheduler st; verbose_freq := verbose_freq st;
     best_loss := best_loss st; best_recall := best_recall st;
     grads := g; fs := fs st |}.

Definition set_model_optimizer (m : Model) (o : OptState) (st : State) : State :=
  {| start_epoch := start_epoch st; model := m; optimizer := o;
     scheduler := scheduler st; verbose_freq := verbose_freq st;
     best_loss := best_loss st; best_recall := best_recall st;
     grads := grads st; fs := fs st |}.

Definition set_model (m : Model) (st : State) : State :=
  set_model_optimizer m (optimizer st) st.

Definition set_scheduler (s : SchedState) (st : State) : State :=
  {| start_epoch := start_epoch st; model := model st; optimizer := optimizer st;
     scheduler := s; verbose_freq := verbose_freq st;
     best_loss := best_loss st; best_recall := best_recall st;
     grads := grads st; fs := fs st |}.

Definition set_verbose_freq (v : Z) (st : State) : State :=
  {| start_epoch := start_epoch st; model := model st; optimizer := optimizer st;
     scheduler := scheduler st; verbose_freq := v;
     best_loss := best_loss st; best_recall := best_recall st;
     grads := grads st; fs := fs st |}.

Definition set_fs (f : gmap string Checkpoint) (st : State) : State :=
  {| start_epoch := start_epoch st; model := model st; optimizer := optimizer st;
     scheduler := scheduler st; verbose_freq := verbose_freq st;
     best_loss := best_loss st; best_recall := best_recall st;
     grads := grads st; fs := f |}.

(** the assignments of lines 133-137 *)
Definition restore (state : Checkpoint) (st : State) : State :=
  {| start_epoch := ck_epoch state + 1; model := model st;
     optimizer := ck_optimizer state; scheduler := ck_scheduler state;
     verbose_freq := verbose_freq st;
     best_loss := ck_best_loss state; best_recall := ck_best_recall state;
     grads := grads st; fs := fs st |}.

(** [torch.save(state, path)] *)
Definition torch_save (state : Checkpoint) (path : string) : M unit :=
  emit (EvSave path state);;
  modify (λ st, set_fs (<[path := state]> (fs st)) st).

(** [self.optimizer.zero_grad()], [self.optimizer.step()] and
    [self.scheduler.step()].  Under [parallel], line 85 has replaced
    [self.optimizer] by an [nn.DataParallel] around the optimizer.  The
    [zero_grad] of that wrapper goes through the wrapper's own
    parameters, of which there are none, so the call clears nothing; and
    the wrapper has no [step], so looking the method up raises. *)
Definition cleared (st : State) : State :=
  if parallel cfg then st else set_grads grad_zero st.

Definition zero_grad (c : option Z) : M unit :=
  emit (EvZeroGrad c);; modify cleared.

Definition step (c : Z) : M unit :=
  if parallel cfg
  then lift (inl (AttributeError "'DataParallel' object has no attribute 'step'"))
  else
    emit (EvOptStep c);;
    modify (λ st,
      let r := optimizer_step (optimizer st) (parameters (model st)) (grads st) in
      set_model_optimizer (with_parameters (model st) (snd r)) (fst r) st).

Definition sched_step : M unit :=
  emit EvSchedStep;; modify (λ st, set_scheduler (scheduler_step (scheduler st)) st).

(** *** [_snapshot], lines 97-122 *)
Definition strip_prefix (kv : string * Tensor) : string * Tensor :=
  (str_drop 7 (fst kv), snd kv).

Definition snapshot_path : string := path_join (save_dir cfg) "snapshot.pth".

Definition archive_path (epoch : Z) (name : option string) : string :=
  path_join (save_dir cfg)
    ("model_" +:+ match name with None => str_int epoch | Some n => n end +:+ ".pth").

Definition _snapshot (epoch : Z) (name : option string) : M unit :=
  st ← get;
  model_state_dict ←
    (if distributed cfg
     then mret (ordered_dict (List.map strip_prefix (state_dict (model st))))
     else if parallel cfg
     then inner ← lift (module_of (model st)); mret (state_dict inner)
     else mret (state_dict (model st)));
  let state := {| ck_epoch := epoch;
                  ck_state_dict := model_state_dict;
                  ck_optimizer := optimizer st;
                  ck_scheduler := scheduler st;
                  ck_best_loss := best_loss st;
                  ck_best_recall := best_recall st |} in
  let filename := archive_path epoch name in
  logger_write ("Save model to snapshot.pth" +:+ nl);;
  logger_write ("Save model to " +:+ filename +:+ nl);;
  torch_save state snapshot_path;;
  torch_save state filename.

(** *** [_load_pretrain], lines 124-144 *)
Definition _load_pretrain (resume : string) : M unit :=
  let resume := path_join (save_dir cfg) resume in
  st ← get;
  match fs st !! resume with
  | Some state =>
      print ("loading pretrained " +:+ resume);;
      let model_dict := ck_state_dict state in
      let model_dict :=
        if distributed cfg then ordered_dict (List.map add_prefix model_dict)
        else model_dict in
      let loaded := load_state_dict (model st) model_dict in
      modify (set_model (fst loaded));;
      lift (match snd loaded with Some e => inl e | None => inr tt end);;
      modify (restore state);;
      logger_write ("Successfully load pretrained model from " +:+ resume +:+ "!" +:+ nl);;
      logger_write ("Current best loss " +:+ repr_float (ck_best_loss state) +:+ nl);;
      logger_write ("Current best recall " +:+ repr_float (ck_best_recall state) +:+ nl);;
      print "loading pretrained finished"
  | None => print "no snapshot training from start"
  end.

(** *** [__init__], lines 47-95 *)
Definition overfit : bool := str_contains "overfit" (exp_dir cfg).

Definition count_parameters (m : Model) : Z :=
  List.fold_right Z.add 0 (List.map (λ kv, nelement (snd kv)) (parameters m)).

(** the fields with the values lines 50-74 give them; [verbose_freq] is
    assigned by line 68, in [init_body], and the [0] here is never read *)
Definition fresh_state (args_model : StateDict) (args_optimizer : OptState)
    (args_scheduler : SchedState) (disk : gmap string Checkpoint) : State :=
  {| start_epoch := 1;
     model := if distributed cfg then Wrapped (Base args_model) else Base args_model;
     optimizer := args_optimizer;
     scheduler := args_scheduler;
     verbose_freq := 0;
     best_loss := 100000;
     best_recall := - (100000);
     grads := grad_zero;
     fs := disk |}.

Definition init_body : M unit :=
  q ← lift (py_floordiv (args_verbose_freq cfg) (batch_size cfg));
  modify (set_verbose_freq (if overfit then 1 else q + 1));;
  st ← get;
  logger_write ("#parameters "
                +:+ repr_float (inject_Z (count_parameters (model st)) / 1000000)%Q
                +:+ " M" +:+ nl);;
  when (negb (String.eqb (pretrain cfg) "")) (_load_pretrain (pretrain cfg));;
  when (parallel cfg) (modify (λ st, set_model (Wrapped (model st)) st)).

Definition __init__ (args_model : StateDict) (args_optimizer : OptState)
    (args_scheduler : SchedState) (disk : gmap string Checkpoint) : Out unit :=
  init_body (fresh_state args_model args_optimizer args_scheduler disk).

(** *** [inference_one_batch], lines 150-179 *)
Definition inference_one_batch (inputs : Batch) (ph : phase) : M (LossInfo * Output) :=
  st ← get;
  if is_train ph then
    let data := model_forward (parameters (model st)) true inputs in
    let loss_info := desc_loss data in
    _ ← lift (dict_item "loss" loss_info);
    modify (set_grads (loss_backward (parameters (model st)) inputs (grads st)));;
    mret (loss_info, data)
  else
    let data := model_forward (parameters (model st)) false inputs in
    mret (desc_loss data, data).

(** *** The body of the batch loop, lines 199-262 *)

(** lines 226-232.  Python evaluates the remainder before it looks at
    the phase, in every phase. *)
Definition run_optimisation (c_iter : Z) (ph : phase) : M unit :=
  r ← lift (py_mod (c_iter + 1) (iter_size cfg));
  if ((r =? 0) && is_train ph)%bool then
    st ← get;
    let gradient_valid := validate_gradient (parameters (model st)) (grads st) in
    emit (EvValidate c_iter gradient_valid);;
    (if gradient_valid then step c_iter
     else logger_write ("gradient not valid" +:+ nl));;
    zero_grad (Some c_iter)
  else mret tt.

(** [add_scalar(f'{phase}/{key}', value.avg, step)] for every item *)
Definition add_scalars (ph : phase) (stats_meter : StatsMeter) (step : Z) : list Event :=
  List.map (λ kv, EvScalar (phase_name ph +:+ "/" +:+ fst kv) (avg (snd kv)) step)
           stats_meter.

Definition averages_text (stats_meter : StatsMeter) : string :=
  String.concat ""
    (List.map (λ kv, fst kv +:+ ": " +:+ fmt_2f (avg (snd kv)) +:+ String (Ascii.ascii_of_nat 9) EmptyString)
              stats_meter).

Definition emit_all (evs : list Event) : M unit := λ st, MkOut (inr tt) st evs.

(** lines 246-256 *)
Definition report_progress (epoch : Z) (ph : phase) (total_iterations c_iter : Z)
    (stats_meter : StatsMeter) : M unit :=
  st ← get;
  r ← lift (py_mod (c_iter + 1) (verbose_freq st));
  if ((r =? 0) && verbose cfg)%bool then
    let curr_iter := total_iterations * (epoch - 1) + c_iter in
    emit_all (add_scalars ph stats_meter curr_iter);;
    logger_write (phase_name ph +:+ " Epoch: " +:+ str_int epoch +:+ " ["
                  +:+ fmt_4d (c_iter + 1) +:+ "/" +:+ str_int total_iterations +:+ "]"
                  +:+ averages_text stats_meter +:+ nl)
  else mret tt.

Definition one_iteration (epoch : Z) (ph : phase) (total_iterations c_iter : Z)
    (data_iter : Batch) (vars : option StatsMeter * counter)
  : M (option StatsMeter * counter) :=
  emit (EvBatch ph c_iter);;
  '(loss_info, output) ← inference_one_batch data_iter ph;
  run_optimisation c_iter ph;;
  stats_meter ← lift (record_stats (fst vars) loss_info);
  if is_train ph then
    report_progress epoch ph total_iterations c_iter stats_meter;;
    mret (Some stats_meter, snd vars)
  else
    let rmses := get_recall data_iter output in
    mret (Some stats_meter, counter_add_np (snd vars) (np_sum_below rmses)).

(** [for c_iter, data_iter in enumerate(...)], from index [c_iter] on *)
Fixpoint epoch_loop (epoch : Z) (ph : phase) (total_iterations c_iter : Z)
    (batches : list Batch) (vars : option StatsMeter * counter)
  : M (option StatsMeter * counter) :=
  match batches with
  | [] => mret vars
  | data_iter :: rest =>
      vars' ← one_iteration epoch ph total_iterations c_iter data_iter vars;
      epoch_loop epoch ph total_iterations (c_iter + 1) rest vars'
  end.

(** lines 264-270: the end-of-epoch score of a validation or test epoch *)
Definition report_recall (epoch : Z) (ph : phase) (total_iterations : Z)
    (stats_meter : option StatsMeter) (succ_iteration : counter) : M unit :=
  sm ← lift (items stats_meter);
  emit_all (add_scalars ph sm epoch);;
  RR ← lift (true_divide succ_iteration (total_iterations * batch_size cfg));
  logger_write (phase_name ph +:+ " Epoch: " +:+ str_int epoch +:+ " RR:"
                +:+ repr_quotient RR +:+ nl).

(** *** [inference_one_epoch], lines 181-277 *)
Definition inference_one_epoch (epoch : Z) (ph : phase) : M StatsMeter :=
  emit (EvEpoch epoch ph);;
  when (distributed cfg)
    (print ("epoch  " +:+ str_int epoch);; emit (EvSetEpoch ph epoch));;
  let total_iterations := Z.of_nat (List.length (loader ph)) in
  zero_grad None;;
  print ("iteration  " +:+ str_int total_iterations);;
  vars ← epoch_loop epoch ph total_iterations 0 (loader ph) (None, PyInt 0);
  when (negb (is_train ph))
    (report_recall epoch ph total_iterations (fst vars) (snd vars));;
  sm ← lift (items (fst vars));
  logger_write (phase_name ph +:+ " Epoch: " +:+ str_int epoch
                +:+ averages_text sm +:+ nl);;
  mret sm.

(** *** [train], lines 282-316 *)
Inductive control : Type := Continue | Break.

(** a [for] statement whose body may [break] *)
Fixpoint for_each {A} (xs : list A) (body : A → M control) : M unit :=
  match xs with
  | [] => mret tt
  | x :: rest =>
      ctl ← body x;
      match ctl with
      | Break => mret tt
      | Continue => for_each rest body
      end
  end.

(** [range(a, b)] *)
Definition py_range (a b : Z) : list Z := seqZ a (b - a).

Definition train_epoch (epoch : Z) : M control :=
  stats_meter ← inference_one_epoch epoch Train;
  sched_step;;
  meter ← lift (dict_item "loss" stats_meter);
  let loss := avg meter in
  when (local_rank cfg =? 0)
    (_snapshot epoch
       (Some (str_int epoch +:+ "_epoch_model_loss_" +:+ repr_float loss)));;
  when (do_valid cfg) (_ ← inference_one_epoch epoch Val; mret tt);;
  mret Break.

Definition train : M unit :=
  print ("start training...local_rank  " +:+ str_int (local_rank cfg));;
  when (local_rank cfg =? 0) (print "record process");;
  st ← get;
  for_each (py_range (start_epoch st) (max_epoch cfg)) train_epoch;;
  print "Training finish!".
End Methods.

(** ** Reading a run

    What an observer of a run can tell from the actions performed. *)
Section Observations.
Context {X : Externals}.

(** the batch indices at which the step-or-skip decision was taken *)
Definition validated_at (e : Event) : option Z :=
  match e with EvValidate c _ => Some c | _ => None end.

(** the batch indices at which the optimizer applied a step *)
Definition stepped_at (e : Event) : option Z :=
  match e with EvOptStep c => Some c | _ => None end.

(** the places where pending gradients were cleared: [None] before the
    batch loop, [Some c] in iteration [c] *)
Definition zeroed_at (e : Event) : option (option Z) :=
  match e with EvZeroGrad c => Some c | _ => None end.

(** the batch indices taken from the loader *)
Definition batch_at (e : Event) : option Z :=
  match e with EvBatch _ c => Some c | _ => None end.

(** the step under which a scalar went to the metrics sink *)
Definition scalar_step (e : Event) : option Z :=
  match e with EvScalar _ _ s => Some s | _ => None end.

Definition log_line (e : Event) : option string :=
  match e with EvLog l => Some l | _ => None end.

Definition printed (e : Event) : option string :=
  match e with EvPrint l => Some l | _ => None end.

Definition saved (e : Event) : option (string * Checkpoint) :=
  match e with EvSave p s => Some (p, s) | _ => None end.

(** the outline of a run of [train]: epochs entered, scheduler
    steps, files written *)
Inductive Milestone : Type :=
| RunEpoch (epoch : Z) (ph : phase)
| SchedulerStep
| Saved (path : string).

Definition milestone (e : Event) : option Milestone :=
  match e with
  | EvEpoch epoch ph => Some (RunEpoch epoch ph)
  | EvSchedStep => Some SchedulerStep
  | EvSave p _ => Some (Saved p)
  | _ => None
  end.

(** the training epochs entered *)
Definition train_epoch_of (e : Event) : option Z :=
  match e with EvEpoch epoch Train => Some epoch | _ => None end.

(** the checkpoint files on disk once a sequence of actions has been
    performed, and the successive contents of the disk while it is
    being performed, one per action *)
Definition write (disk : gmap string Checkpoint) (e : Event) : gmap string Checkpoint :=
  match e with
  | EvSave p s => <[p := s]> disk
  | _ => disk
  end.

Definition disk_after (disk : gmap string Checkpoint) (evs : list Event)
  : gmap string Checkpoint :=
  List.fold_left write evs disk.

Definition disks_seen (disk : gmap string Checkpoint) (evs : list Event)
  : list (gmap string Checkpoint) :=
  List.map (λ k, disk_after disk (take k evs)) (seq 0 (S (List.length evs))).

(** [(c + 1) % k == 0] for a non-zero [k] *)
Definition due (k c : Z) : bool := (c + 1) mod k =? 0.

(** [m] performs no action that [p] retains *)
Definition quiet {A C} (p : Event → option C) (m : M A) : Prop :=
  ∀ st, omap p (events (m st)) = [].

(** the actions of lines 227-232 when the validator answers [valid] *)
Definition decision_events (c : Z) (valid : bool) : list Event :=
  [EvValidate c valid;
   if valid then EvOptStep c else EvLog ("gradient not valid" +:+ nl);
   EvZeroGrad (Some c)].

(** the actions of lines 247-256 *)
Definition progress_events (epoch : Z) (ph : phase) (total_iterations c_iter : Z)
    (stats_meter : StatsMeter) : list Event :=
  add_scalars ph stats_meter (total_iterations * (epoch - 1) + c_iter)
  ++ [EvLog (phase_name ph +:+ " Epoch: " +:+ str_int epoch +:+ " ["
             +:+ fmt_4d (c_iter + 1) +:+ "/" +:+ str_int total_iterations +:+ "]"
             +:+ averages_text stats_meter +:+ nl)].

(** the metric names an epoch tracks: those of the meter if there is
    one, else those of the [loss_info] about to create it *)
Definition meter_keys (stats_meter : option StatsMeter) (loss_info : LossInfo)
  : list string :=
  match stats_meter with
  | Some sm => keys sm
  | None => keys (create_meter loss_info)
  end.

(** the two lines a validation or test epoch logs when it ends *)
Definition recall_line (ph : phase) (epoch : Z) (RR : quotient) : string :=
  phase_name ph +:+ " Epoch: " +:+ str_int epoch +:+ " RR:" +:+ repr_quotient RR +:+ nl.

Definition summary_line (ph : phase) (epoch : Z) (sm : StatsMeter) : string :=
  phase_name ph +:+ " Epoch: " +:+ str_int epoch +:+ averages_text sm +:+ nl.

(** the indices, among the [n] from [c] on, at which line 226 holds *)
Definition decision_sites (cfg : Config) (ph : phase) (c : Z) (n : nat) : list Z :=
  List.filter (λ i, (due (iter_size cfg) i && is_train ph)%bool) (seqZ c (Z.of_nat n)).

(** the indices, among the [n] from [c] on, at which lines 245-246 hold
    for a trainer whose [self.verbose_freq] is [vf] *)
Definition report_sites (cfg : Config) (vf : Z) (ph : phase) (c : Z) (n : nat)
  : list Z :=
  List.filter (λ i, (is_train ph && (due vf i && verbose cfg))%bool)
              (seqZ c (Z.of_nat n)).

(** the samples of the batches [bs] whose RMSE is below the threshold,
    for a network with parameters [sd] in evaluation mode *)
Definition successes (sd : StateDict) (bs : list Batch) : Z :=
  List.fold_right Z.add 0
    (List.map (λ b, np_sum_below (get_recall b (model_forward sd false b))) bs).

(** the network and optimizer wrappers as [__init__] leaves them *)
Definition built (cfg : Config) (sd : StateDict) : Model :=
  let m := if distributed cfg then Wrapped (Base sd) else Base sd in
  if parallel cfg then Wrapped m else m.



(** [m] leaves [field] as it found it and performs only actions that
    [P] allows for that value of the field, however it ends *)
Definition steady {A B} (field : State → B) (P : B → Event → Prop) (m : M A) : Prop :=
  ∀ st, field (final (m st)) = field st ∧ Forall (P (field st)) (events (m st)).

(** an action that takes no step decision, applies no step and clears
    no gradient *)
Definition idle (e : Event) : Prop :=
  validated_at e = None ∧ stepped_at e = None ∧ zeroed_at e = None.

(** what a trainer keeps from its construction or its checkpoint:
    [start_epoch], [verbose_freq], [best_loss], [best_recall] *)
Definition settings (st : State) : Z * Z * Q * Q :=
  (start_epoch st, verbose_freq st, best_loss st, best_recall st).

(** a file written records the best loss and recall of [s] *)
Definition records_best (s : Z * Z * Q * Q) (e : Event) : Prop :=
  match e with
  | EvSave _ ck => ck_best_loss ck = snd (fst s) ∧ ck_best_recall ck = snd s
  | _ => True
  end.
End Observations.

(** ** Moving a batch to the device, lines 205-213

    The loop goes through the fields of the batch in order and assigns
    to the field it is at.  A field is told apart by its exact type: a
    [list] has [.to(device)] called on each of its items, a [dict], a
    [float], [None] and an [ndarray] are passed over, and anything else
    has [.to(device)] called on itself.  Only tensors have that method:
    on any other object the call raises [AttributeError]. *)
Section LoadBatch.
Variables Data Device : Type.

(** an object as [.to] sees it: a tensor, or something of the named
    type that has no such method *)
Inductive Object : Type :=
| OTensor (data : Data) (device : Device)
| OOther (type_name : string).

(** a field of the batch, by the type the loop tests for; [VObject] is
    a value of any type other than the five the loop names *)
Inductive Value : Type :=
| VObject (o : Object)
| VList (items : list Object)
| VDict
| VFloat (x : Q)
| VNone
| VArray.

(** [o.to(device)] *)
Definition to (device : Device) (o : Object) : exn + Object :=
  match o with
  | OTensor data _ => inr (OTensor data device)
  | OOther n => inl (AttributeError ("'" +:+ n +:+ "' object has no attribute 'to'"))
  end.

(** [[item.to(device) for item in v]] *)
Fixpoint to_all (device : Device) (items : list Object) : exn + list Object :=
  match items with
  | [] => inr []
  | item :: rest =>
      match to device item with
      | inl e => inl e
      | inr item' =>
          match to_all device rest with
          | inl e => inl e
          | inr rest' => inr (item' :: rest')
          end
      end
  end.

(** the body of the loop: the new value of the field *)
Definition moved (device : Device) (v : Value) : exn + Value :=
  match v with
  | VList items =>
      match to_all device items with
      | inl e => inl e
      | inr items' => inr (VList items')
      end
  | VDict | VFloat _ | VNone | VArray => inr v
  | VObject o =>
      match to device o with
      | inl e => inl e
      | inr o' => inr (VObject o')
      end
  end.

(** the loop over [inputs.items()]: the batch as the loop leaves it,
    and the exception that ended it, if any.  The assignments are made
    in place, one field at a time. *)
Fixpoint load_batch (device : Device) (inputs : list (string * Value))
  : list (string * Value) * option exn :=
  match inputs with
  | [] => ([], None)
  | (k, v) :: rest =>
      match moved device v with
      | inl e => ((k, v) :: rest, Some e)
      | inr v' =>
          let r := load_batch device rest in
          ((k, v') :: fst r, snd r)
      end
  end.

(** what the loop can move: a tensor, a list of tensors, or one of the
    types it passes over *)
Definition is_tensor (o : Object) : bool :=
  match o with OTensor _ _ => true | OOther _ => false end.

Definition supported (v : Value) : bool :=
  match v with
  | VObject o => is_tensor o
  | VList items => List.forallb is_tensor items
  | VDict | VFloat _ | VNone | VArray => true
  end.

(** every tensor of the field, at the top or in a list, is on [device] *)
Definition at_device (device : Device) (o : Object) : Prop :=
  match o with OTensor _ d => d = device | OOther _ => True end.

Definition on_device (device : Device) (v : Value) : Prop :=
  match v with
  | VObject o => at_device device o
  | VList items => Forall (at_device device) items
  | _ => True
  end.
End LoadBatch.
Global Arguments OTensor {Data Device} _ _.
Global Arguments OOther {Data Device} _.
Global Arguments VObject {Data Device} _.
Global Arguments VList {Data Device} _.
Global Arguments VDict {Data Device}.
Global Arguments VFloat {Data Device} _.
Global Arguments VNone {Data Device}.
Global Arguments VArray {Data Device}.
Global Arguments to {Data Device} _ _.
Global Arguments to_all {Data Device} _ _.
Global Arguments moved {Data Device} _ _.
Global Arguments load_batch {Data Device} _ _.
Global Arguments is_tensor {Data Device} _.
Global Arguments supported {Data Device} _.
Global Arguments at_device {Data Device} _ _.
Global Arguments on_device {Data Device} _ _.

(** ** [get_recall], lines 35-44

    The registration ([CM.get_match], [MML.ransac_regist_coarse]), the
    assembly of a transform ([compute_matrix]) and the error of one
    sample ([compute_RMSE], floating-point linear algebra) are taken as
    given; what is modelled is how the function pairs up its lists. *)
Module Recall.
Section GetRecall.
Variables Rot Trn Matrix Pcd : Type.
Variable compute_matrix : Rot → Trn → Matrix.
Variable compute_RMSE : Pcd → Matrix → Matrix → option Q.

(** [zip] stops at the shorter list *)
Fixpoint zip {A B} (l1 : list A) (l2 : list B) : list (A * B) :=
  match l1, l2 with
  | a :: l1', b :: l2' => (a, b) :: zip l1' l2'
  | _, _ => []
  end.

(** [batched_rot], [batched_trn]: the ground truth of the batch;
    [rot], [trn]: what the registration returned; [src_pcd_list]: the
    source point clouds of the samples *)
Definition get_recall (batched_rot : list Rot) (batched_trn : list Trn)
    (rot : list Rot) (trn : list Trn) (src_pcd_list : list Pcd) : list (option Q) :=
  let gt_trn := List.map (λ p, compute_matrix (fst p) (snd p)) (zip batched_rot batched_trn) in
  let pred_trn := List.map (λ p, compute_matrix (fst p) (snd p)) (zip rot trn) in
  List.map (λ t, compute_RMSE (fst t) (fst (snd t)) (snd (snd t)))
           (zip src_pcd_list (zip gt_trn pred_trn)).
End GetRecall.
Global Arguments get_recall {Rot Trn Matrix Pcd} _ _ _ _ _ _ _.
End Recall.

(** ** A small instance of the collaborators

    A batch carries the metrics the loss will report for it, the gradient
    it contributes and the registration errors of its samples; a gradient
    is valid when it is positive: zero stands for an all-zero gradient
    and a negative number for one with a NaN or an Inf. *)
Module Toy.
Record batch : Type := {
  b_loss : LossInfo;
  b_grad : Z;
  b_rmses : list (option Q)
}.

Definition externals : Externals := {|
  Tensor := Z;
  OptState := Z;
  SchedState := Z;
  Grad := Z;
  Batch := batch;
  Output := batch;
  model_forward := λ _ _ b, b;
  desc_loss := b_loss;
  loss_backward := λ _ b g, g + b_grad b;
  grad_zero := 0;
  validate_gradient := λ _ g, 0 <? g;
  optimizer_step := λ o sd g, (o + 1, List.map (λ kv, (fst kv, snd kv - g)) sd);
  scheduler_step := λ s, s + 1;
  get_recall := λ b _, b_rmses b;
  nelement := λ _, 1;
  repr_float := λ _, "<float>";
  fmt_2f := λ _, "<.2f>";
  repr_quotient := λ _, "<float>"
|}.

Definition cfg : @Config := {|
  max_epoch := 10;
  batch_size := 1;
  iter_size := 2;
  args_verbose_freq := 2;
  verbose := true;
  distributed := false;
  parallel := false;
  do_valid := true;
  local_rank := 0;
  exp_dir := "exp";
  save_dir := "snapshot/exp";
  pretrain := "missing.pth"
|}.

Definition good (loss : Q) : batch :=
  {| b_loss := [("loss", loss); ("recall", 1%Q)]; b_grad := 1; b_rmses := [] |}.

(** a batch whose gradient cancels what is pending: validation fails *)
Definition flat (loss : Q) : batch :=
  {| b_loss := [("loss", loss); ("recall", 1%Q)]; b_grad := 0; b_rmses := [] |}.

(** a batch whose backward pass leaves a gradient that is not finite *)
Definition bad (loss : Q) : batch :=
  {| b_loss := [("loss", loss); ("recall", 1%Q)]; b_grad := -1; b_rmses := [] |}.

Definition sample (rmse : Q) : batch :=
  {| b_loss := [("loss", 1%Q)]; b_grad := 0; b_rmses := [Some rmse] |}.

Definition loader (ph : phase) : list batch :=
  match ph with
  | Train => [flat 1; flat 2; good 3; good 4; good 5]
  | _ => [sample (5 # 100); sample (19 # 100); sample (21 # 100); sample (1 # 2)]
  end.

(** a loader whose second batch reports a metric the first did not *)
Definition extra : batch :=
  {| b_loss := [("loss", 1%Q); ("recall", 1%Q); ("extra", 1%Q)];
     b_grad := 1; b_rmses := [] |}.

Definition loader_new_key (ph : phase) : list batch := [good 1; extra].

Definition no_batches (ph : phase) : list batch := [].

Definition net : list (string * @Tensor externals) := [("w", 7); ("b", 1)].

Definition fresh : @State externals :=
  final (__init__ (X := externals) cfg net 0 0 ∅).



(** the meters the two epochs of the instance return *)
Definition train_meter : StatsMeter :=
  Eval vm_compute in
    match result (inference_one_epoch (X := externals) cfg loader 1 Train fresh) with
    | inr sm => sm
    | inl _ => []
    end.

(** the meter after the batch [flat 2] alone *)
Definition flat_meter : StatsMeter :=
  Eval vm_compute in
    match record_stats None (b_loss (flat 2)) with
    | inr sm => sm
    | inl _ => []
    end.

Definition val_meter : StatsMeter :=
  Eval vm_compute in
    match result (inference_one_epoch (X := externals) cfg loader 1 Val fresh) with
    | inr sm => sm
    | inl _ => []
    end.


Definition no_loss : batch :=
  {| b_loss := [("recall", 1%Q)]; b_grad := 1; b_rmses := [] |}.

Definition loader_no_loss (ph : phase) : list batch := [no_loss].



(** a trainer resumed from the checkpoint of the last epoch *)
Definition last_ckpt : @Checkpoint externals := {|
  ck_epoch := 9;
  ck_state_dict := net;
  ck_optimizer := 3;
  ck_scheduler := 9;
  ck_best_loss := 100000;
  ck_best_recall := - (100000)
|}.

Definition resume_cfg : @Config := {|
  max_epoch := 10;
  batch_size := 1;
  iter_size := 2;
  args_verbose_freq := 2;
  verbose := true;
  distributed := false;
  parallel := false;
  do_valid := true;
  local_rank := 0;
  exp_dir := "exp";
  save_dir := "snapshot/exp";
  pretrain := "snapshot.pth"
|}.

Definition last_state : @State externals :=
  final (__init__ (X := externals) resume_cfg net 0 0
           {[ "snapshot/exp/snapshot.pth"%string := last_ckpt ]}).

(** the process of rank 1 *)
Definition rank1_cfg : @Config := {|
  max_epoch := 10;
  batch_size := 1;
  iter_size := 2;
  args_verbose_freq := 2;
  verbose := true;
  distributed := false;
  parallel := false;
  do_valid := true;
  local_rank := 1;
  exp_dir := "exp";
  save_dir := "snapshot/exp";
  pretrain := ""
|}.

(** an overfit run given a batch size of 0 *)
Definition overfit_cfg : @Config := {|
  max_epoch := 10;
  batch_size := 0;
  iter_size := 2;
  args_verbose_freq := 2;
  verbose := true;
  distributed := false;
  parallel := false;
  do_valid := true;
  local_rank := 0;
  exp_dir := "exp/overfit";
  save_dir := "snapshot/exp";
  pretrain := ""
|}.

(** a file written for a network that has no parameter ["b"] *)
Definition stale_net : list (string * @Tensor externals) := [("w", 9)].

(** [net] with the one entry of [stale_net] copied in *)
Definition patched_net : list (string * @Tensor externals) := [("w", 9); ("b", 1)].

Definition stale_ckpt : @Checkpoint externals := {|
  ck_epoch := 4;
  ck_state_dict := stale_net;
  ck_optimizer := 3;
  ck_scheduler := 4;
  ck_best_loss := 1;
  ck_best_recall := 1
|}.

Definition stale_state : @State externals :=
  final (__init__ (X := externals) cfg net 0 0
           {[ "snapshot/exp/stale.pth"%string := stale_ckpt ]}).

(** under [parallel] alone *)
Definition par_cfg : @Config := {|
  max_epoch := 10;
  batch_size := 1;
  iter_size := 2;
  args_verbose_freq := 2;
  verbose := true;
  distributed := false;
  parallel := true;
  do_valid := true;
  local_rank := 0;
  exp_dir := "exp";
  save_dir := "snapshot/exp";
  pretrain := ""
|}.

Definition par_state : @State externals :=
  final (__init__ (X := externals) par_cfg net 0 0 ∅).

(** both wrappers at once *)
Definition both_cfg : @Config := {|
  max_epoch := 10;
  batch_size := 1;
  iter_size := 2;
  args_verbose_freq := 2;
  verbose := true;
  distributed := true;
  parallel := true;
  do_valid := true;
  local_rank := 0;
  exp_dir := "exp";
  save_dir := "snapshot/exp";
  pretrain := ""
|}.

Definition both_resume_cfg : @Config := {|
  max_epoch := 10;
  batch_size := 1;
  iter_size := 2;
  args_verbose_freq := 2;
  verbose := true;
  distributed := true;
  parallel := true;
  do_valid := true;
  local_rank := 0;
  exp_dir := "exp";
  save_dir := "snapshot/exp";
  pretrain := "snapshot.pth"
|}.

Definition both_state : @State externals :=
  final (__init__ (X := externals) both_cfg net 0 0 ∅).


(** an accumulation period longer than the five batches of the loader *)
Definition long_period_cfg : @Config := {|
  max_epoch := 10;
  batch_size := 1;
  iter_size := 8;
  args_verbose_freq := 2;
  verbose := true;
  distributed := false;
  parallel := false;
  do_valid := true;
  local_rank := 0;
  exp_dir := "exp";
  save_dir := "snapshot/exp";
  pretrain := ""
|}.
End Toy.

(** * Properties *)

(** ** The Python helpers on a few inputs *)

Example str_int_positive : str_int 12 = "12"%string.
Proof. reflexivity. Qed.

Example str_int_negative : str_int (-3) = "-3"%string.
Proof. reflexivity. Qed.

Example fmt_4d_pads : fmt_4d 3 = "   3"%string ∧ fmt_4d 12345 = "12345"%string.
Proof. split; reflexivity. Qed.

Example py_mod_floor : py_mod (-1) 3 = inr 2 ∧ py_mod 4 (-3) = inr (-2).
Proof. split; reflexivity. Qed.

Example py_floordiv_floor : py_floordiv (-7) 2 = inr (-4) ∧ py_floordiv 7 0 = inl ZeroDivisionError.
Proof. split; reflexivity. Qed.

Example path_join_relative_name :
  path_join "snapshot/exp" "snapshot.pth" = "snapshot/exp/snapshot.pth"%string.
Proof. reflexivity. Qed.

Example path_join_after_slash : path_join "snapshot/" "m.pth" = "snapshot/m.pth"%string.
Proof. reflexivity. Qed.

Example path_join_absolute_name : path_join "snapshot/exp" "/tmp/m.pth" = "/tmp/m.pth"%string.
Proof. reflexivity. Qed.

Example overfit_in_exp_dir :
  str_contains "overfit" "exp/overfit_1" = true ∧ str_contains "overfit" "exp/fit" = false.
Proof. split; reflexivity. Qed.

Example threshold_is_strict :
  rmse_below (Some (19 # 100)) = true
  ∧ rmse_below (Some (2 # 10)) = false
  ∧ rmse_below (Some (21 # 100)) = false
  ∧ rmse_below None = false.
Proof. repeat split; reflexivity. Qed.

Example numpy_division_by_zero :
  true_divide (NpInt 3) 0 = inr NotFinite ∧ true_divide (PyInt 3) 0 = inl ZeroDivisionError.
Proof. split; reflexivity. Qed.

(** ** Strings and dictionaries *)

Lemma append_inj_r (p a b : string) : p +:+ a = p +:+ b → a = b.
Proof.
  induction p as [|ch p IH]; simpl; [done|].
  intros H. injection H as H. by apply IH.
Qed.

Lemma path_join_relative (d a b : string) :
  String.prefix "/" a = false → String.prefix "/" b = false →
  path_join d a = path_join d b → a = b.
Proof.
  unfold path_join. intros -> ->.
  destruct (String.eqb d "" || ends_with_slash d)%bool; intros H.
  - by apply append_inj_r in H.
  - apply append_inj_r in H. by injection H.
Qed.

Lemma str_drop_prefix (k : string) : str_drop 7 ("module." +:+ k) = k.
Proof. reflexivity. Qed.

Section DictFacts.
Context {V : Type}.
Implicit Types (d : list (string * V)) (k : string).

Lemma dict_get_cons k k' (v : V) d :
  dict_get k ((k', v) :: d) = if String.eqb k' k then Some v else dict_get k d.
Proof. unfold dict_get. simpl. by destruct (String.eqb k' k). Qed.

Lemma dict_get_None k d : dict_get k d = None ↔ ¬ In k (keys d).
Proof.
  induction d as [|[k' v] d IH]; simpl; [split; [by intros _ []|done]|].
  rewrite dict_get_cons. destruct (String.eqb_spec k' k) as [->|Hne].
  - split; [done|]. intros H. exfalso. apply H. by left.
  - rewrite IH. split; [intros H [?|?]; by auto|intros H ?; apply H; by right].
Qed.

Lemma dict_get_Some_in k d (v : V) : dict_get k d = Some v → In k (keys d).
Proof.
  intros H. destruct (in_dec string_dec k (keys d)) as [|Hn]; [done|].
  apply dict_get_None in Hn. congruence.
Qed.

Lemma dict_get_in k (v : V) d :
  NoDup (keys d) → In (k, v) d → dict_get k d = Some v.
Proof.
  induction d as [|[k' v'] d IH]; simpl; [done|].
  intros Hnd Hin. apply NoDup_cons in Hnd as [Hk Hnd].
  rewrite dict_get_cons. destruct Hin as [Heq|Hin].
  - injection Heq as -> ->. by rewrite String.eqb_refl.
  - destruct (String.eqb_spec k' k) as [->|Hne]; [|by apply IH].
    exfalso. apply Hk. apply list_elem_of_In. apply (in_map fst) in Hin. exact Hin.
Qed.

Lemma has_key_in k d : has_key k d = true ↔ In k (keys d).
Proof.
  unfold has_key, keys. rewrite existsb_exists, in_map_iff. split.
  - intros [kv [Hin Heq]]. apply String.eqb_eq in Heq. by exists kv.
  - intros [kv [Heq Hin]]. exists kv. split; [done|]. by apply String.eqb_eq.
Qed.

Lemma keys_dict_set_in k (v : V) d : In k (keys d) → keys (dict_set k v d) = keys d.
Proof.
  induction d as [|[k' v'] d IH]; simpl; [done|].
  destruct (String.eqb_spec k' k) as [->|Hne]; simpl; [done|].
  intros [?|Hin]; [done|]. by rewrite IH.
Qed.

Lemma dict_set_fresh k (v : V) d : ¬ In k (keys d) → dict_set k v d = d ++ [(k, v)].
Proof.
  induction d as [|[k' v'] d IH]; simpl; [done|].
  intros Hn. destruct (String.eqb_spec k' k) as [->|Hne]; [exfalso; by auto|].
  rewrite IH; [done|]. intros ?. apply Hn. by right.
Qed.

Lemma keys_dict_set_incl k k' (v : V) d :
  k' = k ∨ In k' (keys d) → In k' (keys (dict_set k v d)).
Proof.
  induction d as [|[k0 v0] d IH]; simpl.
  - intros [->|[]]. by left.
  - destruct (String.eqb_spec k0 k) as [->|Hne]; simpl.
    + intros [->|[->|?]]; by auto.
    + intros [->|[->|?]]; [right; apply IH; by left|by left|right; apply IH; by right].
Qed.

Lemma keys_dict_set_elim k k' (v : V) d :
  In k' (keys (dict_set k v d)) → k' = k ∨ In k' (keys d).
Proof.
  induction d as [|[k0 v0] d IH]; simpl.
  - intros [->|[]]. by left.
  - destruct (String.eqb_spec k0 k) as [->|Hne]; simpl.
    + intros [->|?]; by auto.
    + intros [->|H]; [by auto|]. destruct (IH H); by auto.
Qed.

Lemma fold_dict_set_fresh (f : string * V → V) (l acc : list (string * V)) :
  NoDup (keys (acc ++ l)) → (∀ kv, In kv l → f kv = snd kv) →
  List.fold_left (λ d kv, dict_set (fst kv) (f kv) d) l acc = acc ++ l.
Proof.
  revert acc. induction l as [|[k v] l IH]; intros acc Hnd Hf; simpl.
  - by rewrite app_nil_r.
  - rewrite dict_set_fresh.
    + rewrite (Hf (k, v)) by (by left). simpl.
      replace (acc ++ (k, v) :: l) with ((acc ++ [(k, v)]) ++ l)
        by (by rewrite <- app_assoc).
      apply IH.
      * by rewrite <- app_assoc.
      * intros kv ?. apply Hf. by right.
    + unfold keys in *. rewrite map_app in Hnd. simpl in Hnd.
      apply NoDup_app in Hnd as (_ & Hdis & _). intros Hin.
      apply (Hdis k); [by apply list_elem_of_In|]. by left.
Qed.

(** building an [OrderedDict] from pairs with distinct keys keeps them *)
Lemma ordered_dict_nodup (l : list (string * V)) :
  NoDup (keys l) → ordered_dict l = l.
Proof.
  intros Hnd. unfold ordered_dict.
  by rewrite (fold_dict_set_fresh snd l []).
Qed.
End DictFacts.

Lemma keys_create_meter (li : LossInfo) : NoDup (keys li) → keys (create_meter li) = keys li.
Proof.
  intros Hnd. unfold create_meter.
  assert (Hgen : ∀ (l : LossInfo) (acc : StatsMeter),
    NoDup (keys acc ++ keys l) →
    keys (List.fold_left (λ sm kv, dict_set (fst kv) AverageMeter_new sm) l acc)
    = keys acc ++ keys l).
  { induction l as [|[k v] l IH]; intros acc Hn; simpl.
    - by rewrite app_nil_r.
    - assert (Hk : ¬ In k (keys acc)).
      { apply NoDup_app in Hn as (_ & Hdis & _). intros Hin.
        apply (Hdis k); [by apply list_elem_of_In|]. simpl. by left. }
      rewrite dict_set_fresh by done. rewrite IH.
      + unfold keys. rewrite map_app. simpl. by rewrite <- app_assoc.
      + unfold keys. rewrite map_app. simpl. rewrite <- app_assoc. exact Hn. }
  by rewrite (Hgen li []).
Qed.

Lemma create_meter_has (li : LossInfo) k : In k (keys li) → In k (keys (create_meter li)).
Proof.
  unfold create_meter.
  assert (Hgen : ∀ (l : LossInfo) (acc : StatsMeter),
    In k (keys acc) ∨ In k (keys l) →
    In k (keys (List.fold_left (λ sm kv, dict_set (fst kv) AverageMeter_new sm) l acc))).
  { induction l as [|[k0 v] l IH]; intros acc H; simpl.
    - by destruct H.
    - apply IH. destruct H as [H|[H|H]]; [| |by right].
      + left. apply keys_dict_set_incl. by right.
      + left. apply keys_dict_set_incl. left. by simpl in H. }
  intros H. apply Hgen. by right.
Qed.

Lemma create_meter_only (li : LossInfo) k : In k (keys (create_meter li)) → In k (keys li).
Proof.
  unfold create_meter.
  assert (Hgen : ∀ (l : LossInfo) (acc : StatsMeter),
    In k (keys (List.fold_left (λ sm kv, dict_set (fst kv) AverageMeter_new sm) l acc)) →
    In k (keys acc) ∨ In k (keys l)).
  { induction l as [|[k0 v] l IH]; intros acc H; simpl in *; [by left|].
    destruct (IH _ H) as [H'|H']; [|by auto].
    apply keys_dict_set_elim in H' as [->|H']; by auto. }
  intros H. by destruct (Hgen li [] H).
Qed.

Lemma np_sum_below_app (l1 l2 : list (option Q)) :
  np_sum_below (l1 ++ l2) = np_sum_below l1 + np_sum_below l2.
Proof.
  unfold np_sum_below. rewrite List.filter_app, List.length_app. lia.
Qed.



Lemma update_meter_keys (li : LossInfo) : ∀ (sm sm' : StatsMeter),
  update_meter li sm = inr sm' →
  keys sm' = keys sm ∧ ∀ k, In k (keys li) → In k (keys sm).
Proof.
  induction li as [|[k v] li IH]; intros sm sm' H; simpl in *.
  - injection H as <-. by split.
  - destruct (dict_get k sm) as [m|] eqn:Hk; [|done].
    apply dict_get_Some_in in Hk.
    apply IH in H as [Hkeys Hin]. rewrite keys_dict_set_in in Hkeys, Hin by done.
    split; [done|]. intros k' [<-|?]; by auto.
Qed.

Lemma update_meter_missing (li : LossInfo) : ∀ (sm : StatsMeter) k,
  In k (keys li) → ¬ In k (keys sm) →
  ∃ k', update_meter li sm = inl (KeyError k') ∧ In k' (keys li) ∧ ¬ In k' (keys sm).
Proof.
  induction li as [|[k0 v] li IH]; intros sm k Hin Hn; simpl in *; [done|].
  destruct (dict_get k0 sm) as [m|] eqn:Hk.
  - assert (Hk0 : In k0 (keys sm)) by (by eapply dict_get_Some_in).
    destruct Hin as [->|Hin]; [done|].
    destruct (IH (dict_set k0 (update m v) sm) k Hin) as (k' & He & Hi & Hn').
    { by rewrite keys_dict_set_in. }
    rewrite keys_dict_set_in in Hn' by done.
    exists k'. by auto.
  - exists k0. apply dict_get_None in Hk. by auto.
Qed.

(** ** Running computations *)
Section Run.
Context {X : Externals}.

Lemma bind_unfold {A B} (m : M A) (f : A → M B) (st : State) :
  (m ≫= f) st = bind m f st.
Proof. reflexivity. Qed.

Lemma bind_inr {A B} (m : M A) (f : A → M B) st b :
  result ((m ≫= f) st) = inr b →
  ∃ a, result (m st) = inr a
     ∧ result (f a (final (m st))) = inr b
     ∧ events ((m ≫= f) st) = events (m st) ++ events (f a (final (m st)))
     ∧ final ((m ≫= f) st) = final (f a (final (m st))).
Proof.
  rewrite bind_unfold. unfold bind. destruct (result (m st)) as [e|a]; simpl; [done|].
  intros H. by exists a.
Qed.

Lemma bind_ok {A B} (m : M A) (f : A → M B) st a :
  result (m st) = inr a →
  result ((m ≫= f) st) = result (f a (final (m st)))
  ∧ events ((m ≫= f) st) = events (m st) ++ events (f a (final (m st)))
  ∧ final ((m ≫= f) st) = final (f a (final (m st))).
Proof. rewrite bind_unfold. unfold bind. by intros ->. Qed.

Lemma bind_result {A B} (m : M A) (f : A → M B) st a :
  result (m st) = inr a → result ((m ≫= f) st) = result (f a (final (m st))).
Proof. intros H. by destruct (bind_ok m f st a H). Qed.

Lemma ok_bind {A B} (m : M A) (f : A → M B) st a :
  result (m st) = inr a →
  (∃ b, result (f a (final (m st))) = inr b) →
  ∃ b, result ((m ≫= f) st) = inr b.
Proof. intros H [b Hb]. exists b. by rewrite (bind_result _ _ _ _ H). Qed.

Lemma bind_raise {A B} (m : M A) (f : A → M B) st e :
  result (m st) = inl e → result ((m ≫= f) st) = inl e.
Proof. rewrite bind_unfold. unfold bind. by intros ->. Qed.

Lemma ret_run {A} (a : A) (st : State) : (mret a : M A) st = MkOut (inr a) st [].
Proof. reflexivity. Qed.

Lemma lift_run {A} (r : exn + A) (st : State) : lift r st = MkOut r st [].
Proof. reflexivity. Qed.

Lemma emit_run (e : Event) (st : State) : emit e st = MkOut (inr tt) st [e].
Proof. reflexivity. Qed.

(** a projection of the actions of [m ≫= f], whatever the outcome *)
Lemma bind_omap {A B C} (p : Event → option C) (m : M A) (f : A → M B) st :
  omap p (events ((m ≫= f) st))
  = omap p (events (m st))
    ++ match result (m st) with
       | inr a => omap p (events (f a (final (m st))))
       | inl _ => []
       end.
Proof.
  rewrite bind_unfold. unfold bind. destruct (result (m st)); simpl.
  - by rewrite app_nil_r.
  - by rewrite omap_app.
Qed.

Lemma quiet_bind {A B C} (p : Event → option C) (m : M A) (f : A → M B) :
  quiet p m → (∀ a, quiet p (f a)) → quiet p (m ≫= f).
Proof.
  intros Hm Hf st. rewrite bind_omap, Hm. destruct (result (m st)); [done|]. apply Hf.
Qed.

Lemma quiet_ret {A C} (p : Event → option C) (a : A) : quiet p (mret a).
Proof. by intros st. Qed.

Lemma quiet_lift {A C} (p : Event → option C) (r : exn + A) : quiet p (lift r).
Proof. by intros st. Qed.

Lemma quiet_get {C} (p : Event → option C) : quiet p get.
Proof. by intros st. Qed.

Lemma quiet_modify {C} (p : Event → option C) f : quiet p (modify f).
Proof. by intros st. Qed.

Lemma quiet_emit {C} (p : Event → option C) e : p e = None → quiet p (emit e).
Proof. intros H st. simpl. by rewrite H. Qed.

Lemma quiet_when {C} (p : Event → option C) b m : quiet p m → quiet p (when b m).
Proof. intros H. destruct b; [done|]. apply quiet_ret. Qed.

Lemma bind_raise_run {A B} (m : M A) (f : A → M B) st e :
  result (m st) = inl e →
  (m ≫= f) st = MkOut (inl e) (final (m st)) (events (m st)).
Proof. rewrite bind_unfold. unfold bind. by intros ->. Qed.

Lemma bind_ok_run {A B} (m : M A) (f : A → M B) st a :
  result (m st) = inr a →
  (m ≫= f) st
  = MkOut (result (f a (final (m st)))) (final (f a (final (m st))))
      (events (m st) ++ events (f a (final (m st)))).
Proof. rewrite bind_unfold. unfold bind. by intros ->. Qed.
End Run.

Ltac run := repeat progress (rewrite ?bind_unfold; unfold bind; simpl).

(** from [result ((m ≫= f) st) = inr _]: the value [a] of [m], and the
    actions and final state of the whole in terms of the two parts *)
Ltac inv_bind H a Hr :=
  let Hev := fresh "Hev" in
  let Hfin := fresh "Hfin" in
  apply bind_inr in H as (a & Hr & H & Hev & Hfin);
  cbn beta in H, Hev, Hfin; rewrite ?Hev, ?Hfin; clear Hev Hfin.

Ltac norm :=
  rewrite ?ret_run, ?lift_run, ?emit_run in *; cbn [events final result fst snd] in *.

Ltac quiet_step :=
  first
    [ apply quiet_bind; [|intros ?]
    | apply quiet_ret
    | apply quiet_lift
    | apply quiet_get
    | apply quiet_modify
    | apply quiet_emit; reflexivity
    | apply quiet_when ].


(** ** One batch *)

Arguments inference_one_batch : simpl never.
Arguments run_optimisation : simpl never.
Arguments report_progress : simpl never.
Arguments one_iteration : simpl never.
Arguments report_recall : simpl never.
Arguments inference_one_epoch : simpl never.
Arguments _snapshot : simpl never.
Arguments _load_pretrain : simpl never.
Arguments train_epoch : simpl never.

Section Cleared.
Context {X : Externals}.
Variable cfg : Config.

(** [zero_grad] touches the pending gradients at most *)
Lemma cleared_model st : model (cleared cfg st) = model st.
Proof. unfold cleared. by destruct (parallel cfg). Qed.

Lemma cleared_optimizer st : optimizer (cleared cfg st) = optimizer st.
Proof. unfold cleared. by destruct (parallel cfg). Qed.

Lemma cleared_scheduler st : scheduler (cleared cfg st) = scheduler st.
Proof. unfold cleared. by destruct (parallel cfg). Qed.



Lemma cleared_grads st :
  grads (cleared cfg st) = if parallel cfg then grads st else grad_zero.
Proof. unfold cleared. by destruct (parallel cfg). Qed.

Lemma cleared_set_grads st : set_grads grad_zero (cleared cfg st) = set_grads grad_zero st.
Proof. unfold cleared. by destruct (parallel cfg). Qed.
End Cleared.

Section Iteration.
Context {X : Externals}.
Variable cfg : Config.

Lemma inference_one_batch_run (b : Batch) ph st :
  let o := inference_one_batch b ph st in
  let data := model_forward (parameters (model st)) (is_train ph) b in
  events o = []
  ∧ model (final o) = model st
  ∧ optimizer (final o) = optimizer st
  ∧ verbose_freq (final o) = verbose_freq st
  ∧ (∀ r, result o = inr r → r = (desc_loss data, data))
  ∧ (is_train ph = false → result o = inr (desc_loss data, data) ∧ final o = st)
  ∧ (is_train ph = true →
     result o = match dict_item "loss" (desc_loss data) with
                | inl e => inl e
                | inr _ => inr (desc_loss data, data)
                end)
  ∧ (is_train ph = true → ∀ r, result o = inr r →
     grads (final o) = loss_backward (parameters (model st)) b (grads st)).
Proof.
  unfold inference_one_batch. run.
  destruct ph; simpl; try by repeat split; (try by intros ? [= <-]).
  run.
  destruct (dict_item "loss" _) as [e|q]; simpl; repeat split; try done.
  by intros ? [= <-].
Qed.

(** lines 226-232.  Under [parallel] a valid gradient at a due index
    ends the iteration: the step cannot be looked up. *)
Lemma run_optimisation_run c ph st :
  let o := run_optimisation cfg c ph st in
  let valid := validate_gradient (parameters (model st)) (grads st) in
  let blocked := (due (iter_size cfg) c && is_train ph && valid && parallel cfg)%bool in
  if iter_size cfg =? 0 then result o = inl ZeroDivisionError ∧ events o = [] ∧ final o = st
  else if blocked
  then result o = inl (AttributeError "'DataParallel' object has no attribute 'step'")
       ∧ events o = [EvValidate c true] ∧ final o = st
  else result o = inr tt
       ∧ verbose_freq (final o) = verbose_freq st
       ∧ if (due (iter_size cfg) c && is_train ph)%bool
         then events o = decision_events c valid
              ∧ grads (final o) = (if parallel cfg then grads st else grad_zero)
              ∧ (valid = false → model (final o) = model st
                                 ∧ optimizer (final o) = optimizer st)
         else events o = [] ∧ final o = st.
Proof.
  unfold run_optimisation, py_mod, due. run.
  destruct (iter_size cfg =? 0); simpl; [done|].
  destruct (((c + 1) mod iter_size cfg =? 0) && is_train ph)%bool; simpl; [|done].
  unfold step, zero_grad, cleared, logger_write, decision_events.
  destruct (validate_gradient _ _), (parallel cfg); run; by repeat split.
Qed.

Lemma report_progress_run epoch ph total c sm st :
  let o := report_progress cfg epoch ph total c sm st in
  final o = st
  ∧ if verbose_freq st =? 0 then result o = inl ZeroDivisionError ∧ events o = []
    else result o = inr tt
         ∧ events o = if (due (verbose_freq st) c && verbose cfg)%bool
                      then progress_events epoch ph total c sm else [].
Proof.
  unfold report_progress, py_mod, due. run.
  destruct (verbose_freq st =? 0); simpl; [done|].
  destruct (((c + 1) mod verbose_freq st =? 0) && verbose cfg)%bool; simpl; [|done].
  run. done.
Qed.

Lemma one_iteration_inr epoch ph total c b vars st vars' :
  result (one_iteration cfg epoch ph total c b vars st) = inr vars' →
  let o := one_iteration cfg epoch ph total c b vars st in
  let data := model_forward (parameters (model st)) (is_train ph) b in
  ∃ sm valid,
    record_stats (fst vars) (desc_loss data) = inr sm
    ∧ vars' = (Some sm,
               if is_train ph then snd vars
               else counter_add_np (snd vars) (np_sum_below (get_recall b data)))
    ∧ events o
      = EvBatch ph c
        :: (if (due (iter_size cfg) c && is_train ph)%bool
            then decision_events c valid else [])
        ++ (if (is_train ph && (due (verbose_freq st) c && verbose cfg))%bool
            then progress_events epoch ph total c sm else [])
    ∧ verbose_freq (final o) = verbose_freq st
    ∧ (is_train ph = false → final o = st)
    ∧ iter_size cfg ≠ 0
    ∧ (is_train ph = true → verbose_freq st ≠ 0)
    ∧ (is_train ph = true →
       valid = validate_gradient (parameters (model st))
                 (loss_backward (parameters (model st)) b (grads st)))
    ∧ ((due (iter_size cfg) c && is_train ph)%bool = false ∨ valid = false →
       model (final o) = model st ∧ optimizer (final o) = optimizer st)
    ∧ ((due (iter_size cfg) c && is_train ph)%bool = true →
       grads (final o)
       = if parallel cfg then loss_backward (parameters (model st)) b (grads st)
         else grad_zero)
    ∧ ((due (iter_size cfg) c && is_train ph)%bool = true → valid = true →
       parallel cfg = false).
Proof.
  intros H o data. subst o. unfold one_iteration in *.
  inv_bind H u Hu. clear Hu. norm.
  inv_bind H r Hb. destruct r as [li out].
  destruct (inference_one_batch_run b ph st) as (-> & Hm1 & Ho1 & Hv1 & Hr & Hev & _ & Hg).
  pose proof (λ t, Hg t _ Hb) as Hg1. clear Hg.
  apply Hr in Hb as [= -> ->]. fold data in H |- *. clear Hr.
  set (st1 := final (inference_one_batch b ph st)) in *.
  inv_bind H u2 Ho.
  pose proof (run_optimisation_run c ph st1) as Hopt. cbv zeta in Hopt.
  destruct (iter_size cfg =? 0) eqn:Hi; [destruct Hopt as [Hopt _]; congruence|].
  destruct (due (iter_size cfg) c && is_train ph
            && validate_gradient (parameters (model st1)) (grads st1)
            && parallel cfg)%bool eqn:Hbl; [destruct Hopt as [Hopt _]; congruence|].
  destruct Hopt as (_ & Hv2 & Hopt).
  set (st2 := final (run_optimisation cfg c ph st1)) in *.
  inv_bind H sm Hs. norm.
  exists sm, (validate_gradient (parameters (model st1)) (grads st1)).
  split; [done|].
  assert (Hne : iter_size cfg ≠ 0) by (by apply Z.eqb_neq).
  destruct (is_train ph) eqn:Ht.
  - inv_bind H u' Hp. norm. injection H as <-.
    destruct (report_progress_run epoch ph total c sm st2) as (Hst3 & Hrep).
    rewrite Hv2, Hv1 in Hrep.
    destruct (verbose_freq st =? 0) eqn:Hvf; [destruct Hrep as [Hrep _]; congruence|].
    destruct Hrep as (_ & Hrep). rewrite Hrep, Hst3.
    rewrite !andb_true_r in *. rewrite app_nil_r. cbn [andb].
    split_and!; try done.
    + cbn [app]. f_equal. f_equal. destruct (due (iter_size cfg) c); by destruct Hopt as [-> _].
    + congruence.
    + intros _. by apply Z.eqb_neq.
    + intros _. subst st1. by rewrite Hg1, Hm1.
    + intros [Hd|Hd].
      * rewrite Hd in Hopt. destruct Hopt as [_ Hst2]. rewrite Hst2. by split.
      * destruct (due (iter_size cfg) c).
        -- destruct Hopt as (_ & _ & Hopt). destruct (Hopt Hd) as [Hm2 Ho2].
           split; congruence.
        -- destruct Hopt as [_ Hst2]. rewrite Hst2. by split.
    + intros Hd. rewrite Hd in Hopt. destruct Hopt as (_ & Hz & _).
      rewrite Hz. destruct (parallel cfg); [|done]. subst st1. by rewrite Hg1.
    + intros Hd Hval. rewrite Hd, Hval in Hbl. by destruct (parallel cfg).
  - norm. injection H as <-.
    rewrite !andb_false_r in *. destruct Hopt as [-> Hst2]. rewrite app_nil_r.
    cbn [andb app]. destruct (Hev eq_refl) as [_ Hst1].
    split_and!; try done.
    + congruence.
    + intros _. by rewrite Hst2.
    + intros _. by rewrite Hst2, Hst1.
Qed.

Lemma dict_item_in {V} k (d : list (string * V)) :
  In k (keys d) → ∃ v, dict_item k d = inr v.
Proof.
  intros Hin. unfold dict_item. destruct (dict_get k d) as [v|] eqn:Hg; [by exists v|].
  by apply dict_get_None in Hg.
Qed.


Lemma omap_add_scalars {C} (p : Event → option C) ph (sm : StatsMeter) step :
  (∀ series value, p (EvScalar series value step) = None) →
  omap p (add_scalars ph sm step) = [].
Proof.
  intros Hp. unfold add_scalars. induction sm as [|kv sm IH]; simpl; [done|].
  rewrite Hp. exact IH.
Qed.

Lemma scalar_step_add_scalars ph (sm : StatsMeter) step :
  omap scalar_step (add_scalars ph sm step) = replicate (List.length sm) step.
Proof.
  unfold add_scalars. induction sm as [|kv sm IH]; simpl; [done|]. f_equal. exact IH.
Qed.

(** what each observer retains of the actions of one iteration *)
Lemma iteration_events epoch ph total c valid (d t : bool) (sm : StatsMeter) :
  let evs := EvBatch ph c
             :: (if d then decision_events c valid else [])
             ++ (if t then progress_events epoch ph total c sm else []) in
  omap validated_at evs = (if d then [c] else [])
  ∧ omap zeroed_at evs = (if d then [Some c] else [])
  ∧ omap stepped_at evs = (if (d && valid)%bool then [c] else [])
  ∧ omap batch_at evs = [c]
  ∧ omap scalar_step evs
    = (if t then replicate (List.length sm) (total * (epoch - 1) + c) else [])
  ∧ omap milestone evs = [].
Proof.
  unfold progress_events, decision_events.
  destruct d, t, valid; cbn [app]; cbn -[add_scalars];
    rewrite ?omap_app, ?scalar_step_add_scalars, ?omap_add_scalars, ?app_nil_r by done;
    by repeat split.
Qed.

(** a training iteration at an index where no decision is due only adds
    the gradients of its batch to the pending ones *)
Lemma one_iteration_accumulates epoch total c b vars st vars' :
  result (one_iteration cfg epoch Train total c b vars st) = inr vars' →
  due (iter_size cfg) c = false →
  let o := one_iteration cfg epoch Train total c b vars st in
  model (final o) = model st
  ∧ optimizer (final o) = optimizer st
  ∧ grads (final o) = loss_backward (parameters (model st)) b (grads st).
Proof.
  intros H Hd. cbv zeta. unfold one_iteration in *.
  inv_bind H u Hu. clear Hu. norm.
  inv_bind H r Hb. destruct r as [li out].
  destruct (inference_one_batch_run b Train st) as (_ & Hm1 & Ho1 & _ & _ & _ & _ & Hg).
  pose proof (Hg eq_refl _ Hb) as Hg1. clear Hg.
  set (st1 := final (inference_one_batch b Train st)) in *.
  inv_bind H u2 Ho.
  pose proof (run_optimisation_run c Train st1) as Hopt. cbv zeta in Hopt.
  destruct (iter_size cfg =? 0) eqn:Hi; [destruct Hopt as [Hopt _]; congruence|].
  rewrite Hd in Hopt. cbn [andb] in Hopt. destruct Hopt as (_ & _ & _ & Hst2).
  rewrite Hst2 in *.
  inv_bind H sm Hs. norm. cbn [is_train] in *.
  inv_bind H u' Hp. norm.
  destruct (report_progress_run epoch Train total c sm st1) as (Hst3 & _).
  rewrite Hst3. by split_and!.
Qed.

End Iteration.

Lemma omap_cons_None {A B} (p : A → option B) (a : A) (l : list A) :
  p a = None → omap p (a :: l) = omap p l.
Proof. intros H. simpl. by rewrite H. Qed.

Lemma omap_nil' {A B} (p : A → option B) : omap p [] = [].
Proof. reflexivity. Qed.

(** push a projection through appends and drop what it does not retain *)
Ltac proj :=
  repeat first [ rewrite omap_app | rewrite omap_cons_None by done | rewrite omap_nil' ];
  rewrite ?app_nil_r, ?app_nil_l.

Lemma seqZ_S_cons (c : Z) (n : nat) :
  seqZ c (Z.of_nat (S n)) = c :: seqZ (c + 1) (Z.of_nat n).
Proof.
  rewrite seqZ_cons by lia. f_equal. f_equal; lia.
Qed.

(** ** The batch loop *)
Section Loop.
Context {X : Externals}.
Variable cfg : Config.

Lemma epoch_loop_cons epoch ph total c b bs vars :
  epoch_loop cfg epoch ph total c (b :: bs) vars
  = (one_iteration cfg epoch ph total c b vars
     ≫= epoch_loop cfg epoch ph total (c + 1) bs).
Proof. reflexivity. Qed.

Lemma epoch_loop_sites epoch ph total bs : ∀ c vars st vars',
  result (epoch_loop cfg epoch ph total c bs vars st) = inr vars' →
  let o := epoch_loop cfg epoch ph total c bs vars st in
  omap validated_at (events o) = decision_sites cfg ph c (List.length bs)
  ∧ omap zeroed_at (events o) = List.map Some (decision_sites cfg ph c (List.length bs))
  ∧ omap batch_at (events o) = seqZ c (Z.of_nat (List.length bs))
  ∧ omap milestone (events o) = []
  ∧ verbose_freq (final o) = verbose_freq st
  ∧ (is_train ph = false → final o = st)
  ∧ (bs ≠ [] → iter_size cfg ≠ 0)
  ∧ (∀ i, In i (omap stepped_at (events o)) →
          In i (decision_sites cfg ph c (List.length bs))).
Proof.
  unfold decision_sites.
  induction bs as [|b bs IH]; intros c vars st vars' H; cbv zeta.
  - simpl. by repeat split.
  - rewrite epoch_loop_cons in *. inv_bind H vars1 H1.
    destruct (one_iteration_inr cfg _ _ _ _ _ _ _ _ H1)
      as (sm & valid & _ & _ & -> & Hv & Hst & Hne & _).
    destruct (iteration_events epoch ph total c valid
                (due (iter_size cfg) c && is_train ph)
                (is_train ph && (due (verbose_freq st) c && verbose cfg)) sm)
      as (Ea & Eb & Es & Ec & _ & Ed).
    destruct (IH _ _ _ _ H) as (Ia & Ib & Ic & Id & Iv & Ist & _ & Is).
    rewrite !omap_app, Ea, Eb, Ec, Ed, Es, Ia, Ib, Ic, Id, Iv, Hv.
    cbn [List.length]. rewrite seqZ_S_cons. cbn [List.filter].
    destruct (due (iter_size cfg) c && is_train ph)%bool; cbn [app List.map andb];
      split_and!; try done.
    + intros Ht. by rewrite Ist, Hst.
    + intros i Hin. apply in_app_or in Hin as [Hin|Hin].
      * left. destruct valid; simpl in Hin; by destruct Hin.
      * right. by apply Is.
    + intros Ht. by rewrite Ist, Hst.
Qed.

Lemma record_stats_keys (stats_meter : option StatsMeter) (li : LossInfo) sm :
  record_stats stats_meter li = inr sm →
  keys sm = meter_keys stats_meter li ∧ ∀ k, In k (keys li) → In k (keys sm).
Proof.
  unfold record_stats, meter_keys. intros H.
  apply update_meter_keys in H as [Hk Hin]. split; [by destruct stats_meter|].
  intros k Hi. rewrite Hk. by apply Hin.
Qed.

Lemma epoch_loop_stats epoch ph total bs : ∀ c vars st vars' K,
  result (epoch_loop cfg epoch ph total c bs vars st) = inr vars' →
  (∀ b, head bs = Some b →
     meter_keys (fst vars)
       (desc_loss (model_forward (parameters (model st)) (is_train ph) b)) = K) →
  let o := epoch_loop cfg epoch ph total c bs vars st in
  (bs = [] → vars' = vars)
  ∧ (bs ≠ [] → ∃ smf, fst vars' = Some smf ∧ keys smf = K)
  ∧ omap scalar_step (events o)
    = List.flat_map (λ i, replicate (List.length K) (total * (epoch - 1) + i))
        (report_sites cfg (verbose_freq st) ph c (List.length bs))
  ∧ Forall (λ b, ∃ sd, ∀ k,
              In k (keys (desc_loss (model_forward sd (is_train ph) b))) → In k K) bs.
Proof.
  unfold report_sites.
  induction bs as [|b bs IH]; intros c vars st vars' K H HK; cbv zeta.
  - simpl in *. injection H as <-. by repeat split.
  - rewrite epoch_loop_cons in *. inv_bind H vars1 H1.
    destruct (one_iteration_inr cfg _ _ _ _ _ _ _ _ H1)
      as (sm & valid & Hs & -> & -> & Hv & _ & _ & _).
    apply record_stats_keys in Hs as [Hk Hin]. rewrite (HK b eq_refl) in Hk.
    destruct (iteration_events epoch ph total c valid
                (due (iter_size cfg) c && is_train ph)
                (is_train ph && (due (verbose_freq st) c && verbose cfg)) sm)
      as (_ & _ & _ & _ & Es & _).
    destruct (IH _ _ _ _ K H) as (Ia & Ib & Ic & Id).
    { intros b' _. exact Hk. }
    rewrite !omap_app, Es, Ic, Hv.
    cbn [List.length]. rewrite seqZ_S_cons. cbn [List.filter].
    repeat split.
    + done.
    + intros _. destruct bs as [|b' bs].
      * rewrite (Ia eq_refl). by exists sm.
      * by apply Ib.
    + destruct (is_train ph && (due (verbose_freq st) c && verbose cfg))%bool;
        cbn [List.flat_map app]; [|done].
      f_equal. f_equal. rewrite <- Hk. unfold keys. by rewrite length_map.
    + constructor; [|done]. exists (parameters (model st)). intros k Hi.
      rewrite <- Hk. by apply Hin.
Qed.


Lemma epoch_loop_eval epoch ph total bs : is_train ph = false → ∀ c vars st vars',
  result (epoch_loop cfg epoch ph total c bs vars st) = inr vars' →
  let o := epoch_loop cfg epoch ph total c bs vars st in
  counter_value (snd vars')
  = counter_value (snd vars) + successes (parameters (model st)) bs
  ∧ (bs ≠ [] → snd vars' = NpInt (counter_value (snd vars')))
  ∧ omap log_line (events o) = []
  ∧ omap scalar_step (events o) = [].
Proof.
  intros Ht. induction bs as [|b bs IH]; intros c vars st vars' H; cbv zeta.
  - simpl in *. injection H as <-. unfold successes. simpl. repeat split; try done. lia.
  - rewrite epoch_loop_cons in *. inv_bind H vars1 H1.
    destruct (one_iteration_inr cfg _ _ _ _ _ _ _ _ H1)
      as (sm & valid & _ & -> & -> & _ & Hst & _ & _).
    rewrite Ht in *. rewrite (Hst eq_refl) in *. rewrite andb_false_r. cbn [andb app].
    destruct (IH _ _ _ _ H) as (Ia & Ib & Ic & Id).
    rewrite !omap_cons_None, Ic, Id by done. cbn [snd] in Ia. unfold successes in *.
    cbn [List.map List.fold_right]. cbn [counter_add_np counter_value] in Ia.
    repeat split; try done.
    + rewrite Ia. simpl. lia.
    + intros _. destruct bs as [|b' bs]; [|by apply Ib].
      simpl in H. by injection H as <-.
Qed.


End Loop.

(** ** One epoch *)
Section EpochRun.
Context {X : Externals}.
Variable cfg : Config.
Variable loader : phase → list Batch.

Lemma zero_grad_run c st :
  zero_grad cfg c st = MkOut (inr tt) (cleared cfg st) [EvZeroGrad c].
Proof. reflexivity. Qed.

Lemma report_recall_run epoch ph total (stats_meter : option StatsMeter) succ st :
  report_recall cfg epoch ph total stats_meter succ st
  = match stats_meter with
    | None => MkOut (inl (AttributeError "'NoneType' object has no attribute 'items'")) st []
    | Some sm =>
        match true_divide succ (total * batch_size cfg) with
        | inl e => MkOut (inl e) st (add_scalars ph sm epoch)
        | inr RR => MkOut (inr tt) st
                      (add_scalars ph sm epoch ++ [EvLog (recall_line ph epoch RR)])
        end
    end.
Proof.
  unfold report_recall. destruct stats_meter as [sm|]; [|reflexivity].
  run. destruct (true_divide succ (total * batch_size cfg)); simpl; [|done].
  by rewrite app_nil_r.
Qed.

Lemma inference_one_epoch_inr epoch ph st sm :
  result (inference_one_epoch cfg loader epoch ph st) = inr sm →
  let o := inference_one_epoch cfg loader epoch ph st in
  let total := Z.of_nat (List.length (loader ph)) in
  let loop := epoch_loop cfg epoch ph total 0 (loader ph) (None, PyInt 0)
                (cleared cfg st) in
  ∃ succ RR,
    result loop = inr (Some sm, succ)
    ∧ (is_train ph = false → true_divide succ (total * batch_size cfg) = inr RR)
    ∧ final o = final loop
    ∧ events o
      = EvEpoch epoch ph
        :: (if distributed cfg
            then [EvPrint ("epoch  " +:+ str_int epoch); EvSetEpoch ph epoch] else [])
        ++ [EvZeroGrad None; EvPrint ("iteration  " +:+ str_int total)]
        ++ events loop
        ++ (if is_train ph then []
            else add_scalars ph sm epoch ++ [EvLog (recall_line ph epoch RR)])
        ++ [EvLog (summary_line ph epoch sm)].
Proof.
  intros H. cbv zeta. unfold inference_one_epoch in *.
  inv_bind H u1 H1. clear H1. norm.
  inv_bind H u2 H2.
  assert (Hd : final (when (distributed cfg)
                        (print ("epoch  " +:+ str_int epoch);; emit (EvSetEpoch ph epoch)) st) = st
               ∧ events (when (distributed cfg)
                        (print ("epoch  " +:+ str_int epoch);; emit (EvSetEpoch ph epoch)) st)
                 = if distributed cfg
                   then [EvPrint ("epoch  " +:+ str_int epoch); EvSetEpoch ph epoch] else []).
  { unfold when. by destruct (distributed cfg). }
  destruct Hd as [Hd1 Hd2]. rewrite Hd1, Hd2 in *. clear Hd1 Hd2 H2.
  inv_bind H u3 H3. clear H3. rewrite zero_grad_run in *. norm.
  inv_bind H u4 H4. clear H4. unfold print in *. norm.
  inv_bind H vars Hl. destruct vars as [osm succ]. norm.
  set (loop := epoch_loop cfg epoch ph (Z.of_nat (List.length (loader ph))) 0
                 (loader ph) (None, PyInt 0) (cleared cfg st)) in *.
  inv_bind H u5 H5.
  inv_bind H sm' H6. norm. destruct osm as [sm0|]; [|done].
  simpl in H6. injection H6 as <-.
  inv_bind H u6 H7. unfold logger_write in *. norm. injection H as <-.
  unfold when in *. destruct (is_train ph) eqn:Ht; cbn [negb] in *.
  - norm. exists succ, NotFinite. repeat split; try done.
  - rewrite report_recall_run in *.
    destruct (true_divide succ _) as [e|RR] eqn:Hdiv; [done|]. norm.
    exists succ, RR. by repeat split.
Qed.

End EpochRun.

(** * Properties of the trainer *)

(** ** Gradient accumulation and the step-or-skip decision *)
Section StepPolicy.
Context {X : Externals}.
Variable cfg : Config.
Variable loader : phase → list Batch.


End StepPolicy.



(** ** Metrics of an epoch *)
Section EpochMetrics.
Context {X : Externals}.
Variable cfg : Config.
Variable loader : phase → list Batch.

(** C7.  The meter of an epoch is created from the metric names of the
    first batch's [loss_info], and an epoch that runs to its end returns
    a meter with exactly those names.  A [loss_info] never adds a name
    to an existing meter: recording it either keeps the names or raises
    [KeyError] at the first name the meter lacks; so an epoch in which a
    later batch reports a name that the first batch did not report
    raises instead of returning. *)
Theorem stats_meter_keys_frozen epoch ph st b0 rest :
  loader ph = b0 :: rest →
  let first := desc_loss (model_forward (parameters (model st)) (is_train ph) b0) in
  (∀ sm, result (inference_one_epoch cfg loader epoch ph st) = inr sm →
         keys sm = keys (create_meter first))
  ∧ (NoDup (keys first) → keys (create_meter first) = keys first)
  ∧ (∀ sm li sm', record_stats (Some sm) li = inr sm' → keys sm' = keys sm)
  ∧ (∀ sm li k, In k (keys li) → ¬ In k (keys sm) →
       ∃ k', record_stats (Some sm) li = inl (KeyError k')
             ∧ In k' (keys li) ∧ ¬ In k' (keys sm))
  ∧ (∀ b k, In b rest → ¬ In k (keys first) →
       (∀ sd, In k (keys (desc_loss (model_forward sd (is_train ph) b)))) →
       ∃ e, result (inference_one_epoch cfg loader epoch ph st) = inl e).
Proof.
  intros Hload first.
  assert (Hkeys : ∀ sm, result (inference_one_epoch cfg loader epoch ph st) = inr sm →
            keys sm = keys (create_meter first)
            ∧ Forall (λ b, ∃ sd, ∀ k,
                 In k (keys (desc_loss (model_forward sd (is_train ph) b))) →
                 In k (keys (create_meter first))) (loader ph)).
  { intros sm H.
    destruct (inference_one_epoch_inr cfg loader epoch ph st sm H)
      as (succ & RR & Hl & _).
    destruct (epoch_loop_stats cfg epoch ph _ (loader ph) 0 _ _ _
                (keys (create_meter first)) Hl) as (_ & Hsm & _ & Hall).
    { rewrite Hload. intros b [= <-]. by rewrite cleared_model. }
    destruct Hsm as (smf & E & Hk); [by rewrite Hload|].
    cbn [fst] in E. injection E as <-. by split. }
  split_and!.
  - intros sm H. by apply Hkeys.
  - apply keys_create_meter.
  - intros sm li sm' H. by apply record_stats_keys in H as [H _].
  - intros sm li k Hin Hn. unfold record_stats. by eapply update_meter_missing.
  - intros b k Hb Hn Hk.
    destruct (result (inference_one_epoch cfg loader epoch ph st)) as [e|sm] eqn:E;
      [by exists e|].
    exfalso. destruct (Hkeys sm eq_refl) as [_ Hall].
    rewrite Hload in Hall. apply Forall_cons in Hall as [_ Hall].
    rewrite Forall_forall in Hall.
    destruct (Hall b) as [sd Hsd]; [by apply list_elem_of_In|].
    apply Hn, create_meter_only, Hsd, Hk.
Qed.

(** C10.  On a loader that yields no batch, [inference_one_epoch]
    returns nothing in any phase: the batch loop leaves [stats_meter] at
    [None] and the success counter at the Python integer [0], and the
    first iteration over the meter's items raises.  The recall quotient
    of a validation or test epoch has the divisor [0] in that state: the
    division raises [ZeroDivisionError] for whatever meter the report
    would be given. *)
Theorem empty_loader_fails epoch ph st :
  loader ph = [] →
  let total := Z.of_nat (List.length (loader ph)) in
  result (inference_one_epoch cfg loader epoch ph st)
  = inl (AttributeError "'NoneType' object has no attribute 'items'")
  ∧ result (epoch_loop cfg epoch ph total 0 (loader ph) (None, PyInt 0)
              (set_grads grad_zero st))
    = inr (None, PyInt 0)
  ∧ true_divide (PyInt 0) (total * batch_size cfg) = inl ZeroDivisionError
  ∧ (∀ sm0 st', result (report_recall cfg epoch ph total (Some sm0) (PyInt 0) st')
                = inl ZeroDivisionError).
Proof.
  intros Hload. cbv zeta. split_and!.
  - unfold inference_one_epoch, when, report_recall. rewrite Hload.
    destruct ph, (distributed cfg); reflexivity.
  - by rewrite Hload.
  - by rewrite Hload.
  - intros sm0 st'. rewrite report_recall_run, Hload. reflexivity.
Qed.
End EpochMetrics.

Lemma stats_meter_keys_frozen_witness :
  ∃ e, result (inference_one_epoch (X := Toy.externals) Toy.cfg Toy.loader_new_key 1 Train
                 Toy.fresh) = inl e.
Proof.
  destruct (stats_meter_keys_frozen (X := Toy.externals) Toy.cfg Toy.loader_new_key 1 Train
              Toy.fresh (Toy.good 1) [Toy.extra] eq_refl) as (_ & _ & _ & _ & H).
  apply (H Toy.extra "extra"%string).
  - left. reflexivity.
  - vm_compute. intros [H1|[H1|[]]]; discriminate H1.
  - intros sd. vm_compute. right. right. left. reflexivity.
Defined.

Lemma empty_loader_fails_witness :
  result (inference_one_epoch (X := Toy.externals) Toy.cfg Toy.no_batches 1 Val Toy.fresh)
  = inl (AttributeError "'NoneType' object has no attribute 'items'").
Proof.
  apply (empty_loader_fails (X := Toy.externals) Toy.cfg Toy.no_batches 1 Val Toy.fresh).
  reflexivity.
Defined.

(** ** Registration recall and progress reports *)
Section Reports.
Context {X : Externals}.
Variable cfg : Config.
Variable loader : phase → list Batch.

Lemma successes_concat sd (bs : list Batch) :
  successes sd bs
  = np_sum_below (List.concat (List.map (λ b, get_recall b (model_forward sd false b)) bs)).
Proof.
  unfold successes. induction bs as [|b bs IH]; simpl; [done|].
  by rewrite np_sum_below_app, IH.
Qed.

(** C5.  A validation or test epoch that runs to its end logs two
    lines: the recall, then the averages.  The recall is the number of
    samples, over all the batches of the epoch, whose RMSE is strictly
    below 0.2, divided by the number of batches times the configured
    [batch_size].  When the errors of the epoch are 0.05, 0.19, 0.21 and
    0.5 the count is 2, and over four batches the recall is
    [2 / (4 * batch_size)]. *)
Theorem registration_recall epoch ph st sm :
  is_train ph = false →
  batch_size cfg ≠ 0 →
  result (inference_one_epoch cfg loader epoch ph st) = inr sm →
  let total := Z.of_nat (List.length (loader ph)) in
  let rmses := List.concat
                 (List.map (λ b, get_recall b
                                   (model_forward (parameters (model st)) false b))
                           (loader ph)) in
  let RR := Finite (inject_Z (np_sum_below rmses) / inject_Z (total * batch_size cfg)) in
  omap log_line (events (inference_one_epoch cfg loader epoch ph st))
  = [recall_line ph epoch RR; summary_line ph epoch sm]
  ∧ (rmses = [Some (5 # 100); Some (19 # 100); Some (21 # 100); Some (1 # 2)] →
     np_sum_below rmses = 2
     ∧ (total = 4 → RR = Finite (inject_Z 2 / inject_Z (4 * batch_size cfg)))).
Proof.
  intros Ht Hbs H. cbv zeta.
  destruct (inference_one_epoch_inr cfg loader epoch ph st sm H)
    as (succ & RR & Hl & Hdiv & _ & Hev).
  specialize (Hdiv Ht).
  destruct (epoch_loop_eval cfg epoch ph _ (loader ph) Ht 0 _ _ _ Hl)
    as (Hc & Hnp & Hlog & _).
  destruct (epoch_loop_stats cfg epoch ph _ (loader ph) 0 _ _ _
              (meter_keys None
                 (match loader ph with
                  | b :: _ => desc_loss (model_forward
                                (parameters (model (cleared cfg st))) (is_train ph) b)
                  | [] => []
                  end)) Hl) as (Hnil & _).
  { intros b Hb. destruct (loader ph); [done|]. by injection Hb as ->. }
  assert (Hne : loader ph ≠ []).
  { intros E. by specialize (Hnil E). }
  cbn [snd counter_value] in Hc, Hnp. rewrite (Hnp Hne), Hc in Hdiv.
  rewrite cleared_model in Hdiv.
  rewrite successes_concat in Hdiv. cbn [true_divide] in Hdiv.
  assert (Hd : Z.of_nat (List.length (loader ph)) * batch_size cfg ≠ 0).
  { destruct (loader ph); [done|]. simpl List.length. lia. }
  apply Z.eqb_neq in Hd. rewrite Hd in Hdiv. injection Hdiv as <-.
  split.
  - rewrite Hev, Ht. proj. rewrite Hlog.
    rewrite omap_add_scalars by done.
    destruct (distributed cfg); cbn [app]; by proj.
  - intros ->. split; [reflexivity|]. by intros ->.
Qed.
End Reports.

Lemma registration_recall_witness :
  np_sum_below [Some (5 # 100); Some (19 # 100); Some (21 # 100); Some (1 # 2)] = 2
  ∧ omap log_line
      (events (inference_one_epoch (X := Toy.externals) Toy.cfg Toy.loader 1 Val Toy.fresh))
    = [recall_line (X := Toy.externals) Val 1 (Finite (inject_Z 2 / inject_Z (4 * 1)));
       summary_line (X := Toy.externals) Val 1 Toy.val_meter].
Proof.
  destruct (registration_recall (X := Toy.externals) Toy.cfg Toy.loader 1 Val Toy.fresh
              Toy.val_meter) as [H1 H2].
  - reflexivity.
  - vm_compute. discriminate.
  - vm_compute. reflexivity.
  - destruct (H2 eq_refl) as [H3 _]. split; [exact H3|exact H1].
Defined.

(** ** Construction and the period of the progress reports *)
Section Construction.
Context {X : Externals}.
Variable cfg : Config.
Variable loader : phase → list Batch.

Lemma load_pretrain_verbose_freq resume st :
  verbose_freq (final (_load_pretrain cfg resume st)) = verbose_freq st.
Proof.
  unfold _load_pretrain. run. destruct (fs st !! _) as [state|]; [|done].
  run. by destruct (_ && _)%bool.
Qed.

Lemma init_verbose_freq args_model args_optimizer args_scheduler disk :
  let o := __init__ cfg args_model args_optimizer args_scheduler disk in
  result o = inr tt →
  batch_size cfg ≠ 0
  ∧ verbose_freq (final o)
    = if overfit cfg then 1 else args_verbose_freq cfg / batch_size cfg + 1.
Proof.
  cbv zeta. unfold __init__, init_body, py_floordiv.
  set (st0 := fresh_state cfg args_model args_optimizer args_scheduler disk).
  intros H. inv_bind H q Hq. norm.
  destruct (batch_size cfg =? 0) eqn:Hb; [done|]. injection Hq as <-.
  split; [by apply Z.eqb_neq|].
  inv_bind H u1 H1. clear H1. unfold modify in *. cbn [final] in *.
  inv_bind H st1 H1. unfold get in H1. cbn [result final] in *. injection H1 as <-.
  inv_bind H u2 H2. clear H2. unfold logger_write in *. norm.
  inv_bind H u3 H3. clear H3.
  set (st1 := set_verbose_freq _ st0) in *.
  assert (Hv : verbose_freq
                 (final (when (negb (String.eqb (pretrain cfg) ""))
                           (_load_pretrain cfg (pretrain cfg)) st1))
               = verbose_freq st1).
  { unfold when. destruct (negb _); [|done]. apply load_pretrain_verbose_freq. }
  change (final (get st1)) with st1.
  unfold when at 1.
  destruct (parallel cfg); exact (eq_trans Hv eq_refl).
Qed.
End Construction.

Section ProgressReports.
Context {X : Externals}.
Variable cfg : Config.
Variable loader : phase → list Batch.

End ProgressReports.



(** ** Checkpoints *)
Section StateDicts.
Context {X : Externals}.

Lemma strip_add_prefix (sd : StateDict) :
  List.map strip_prefix (List.map add_prefix sd) = sd.
Proof.
  induction sd as [|[k v] sd IH]; [done|]. simpl. by rewrite IH.
Qed.

Lemma keys_add_prefix (sd : StateDict) :
  keys (List.map add_prefix sd) = List.map (String.append "module.") (keys sd).
Proof. unfold keys. rewrite !List.map_map. reflexivity. Qed.

Lemma NoDup_add_prefix (sd : StateDict) :
  NoDup (keys sd) → NoDup (keys (List.map add_prefix sd)).
Proof.
  induction sd as [|[k v] sd IH]; simpl; [done|].
  rewrite !NoDup_cons. intros [Hk Hnd]. split; [|by apply IH].
  intros Hin. apply Hk. apply list_elem_of_In in Hin. apply list_elem_of_In.
  rewrite keys_add_prefix in Hin. apply in_map_iff in Hin as (k' & Heq & Hin').
  apply append_inj_r in Heq. by subst k'.
Qed.

Lemma dict_get_prefixed k (d : StateDict) :
  dict_get ("module." +:+ k) (List.map add_prefix d) = dict_get k d.
Proof.
  induction d as [|[k' v] d IH]; [done|].
  cbn [List.map]. unfold add_prefix at 1. cbn [fst snd]. rewrite !dict_get_cons, IH.
  replace (("module." +:+ k' =? "module." +:+ k)%string) with ((k' =? k)%string);
    [done|].
  destruct (String.eqb_spec k' k) as [->|Hne].
  - by rewrite String.eqb_refl.
  - symmetry. apply String.eqb_neq. intros Heq. by apply append_inj_r in Heq.
Qed.

(** a dictionary with exactly the expected names passes the strict
    check of [load_state_dict] *)
Lemma load_state_dict_ok (m : Model) (d : StateDict) :
  keys (state_dict m) = keys d →
  load_state_dict m d = (load_values m (λ k, dict_get k d), None).
Proof.
  intros Hk. unfold load_state_dict. rewrite Hk.
  replace (List.forallb (λ k, has_key k d) (keys d)) with true.
  - replace (List.forallb (λ k, List.existsb (String.eqb k) (keys d)) (keys d)) with true;
      [done|].
    symmetry. apply forallb_forall. intros k Hin. apply existsb_exists.
    exists k. split; [done|]. apply String.eqb_refl.
  - symmetry. apply forallb_forall. intros k Hin. by apply has_key_in.
Qed.

Lemma load_map (look : string → option Tensor) (l : StateDict) : ∀ l' : StateDict,
  keys l' = keys l →
  (∀ kv, In kv l → look (fst kv) = Some (snd kv)) →
  List.map (λ kv, (fst kv, default (snd kv) (look (fst kv)))) l' = l.
Proof.
  induction l as [|[k v] l IH]; intros [|[k' v'] l'] Hk Hl; simpl in *; try done.
  injection Hk as -> Hk.
  pose proof (Hl (k, v) (or_introl eq_refl)) as Hkv. cbn [fst snd] in Hkv.
  rewrite Hkv. simpl. f_equal.
  apply IH; [done|]. intros kv Hin. apply Hl. by right.
Qed.

(** loading into a bare network, and into a wrapped one *)
Lemma load_bare (sd0 d : StateDict) :
  NoDup (keys d) → keys sd0 = keys d → load_state_dict (Base sd0) d = (Base d, None).
Proof.
  intros Hnd Hk. rewrite load_state_dict_ok by done. simpl. f_equal. f_equal.
  apply (load_map (λ k, dict_get k d)); [done|]. intros [k v] Hin. by apply dict_get_in.
Qed.

Lemma load_wrapped (sd0 d : StateDict) :
  NoDup (keys d) → keys sd0 = keys d →
  load_state_dict (Wrapped (Base sd0)) (List.map add_prefix d)
  = (Wrapped (Base d), None).
Proof.
  intros Hnd Hk. rewrite load_state_dict_ok.
  - simpl. f_equal. f_equal. f_equal.
    apply (load_map (λ k, dict_get ("module." +:+ k) (List.map add_prefix d))); [done|].
    intros [k v] Hin. cbn [fst snd].
    rewrite dict_get_prefixed. by apply dict_get_in.
  - simpl. by rewrite !keys_add_prefix, Hk.
Qed.
End StateDicts.

Section Checkpoints.
Context {X : Externals}.
Variable cfg : Config.

(** the record [_snapshot] builds, given the state dictionary it took *)
Lemma snapshot_inr epoch name st :
  result (_snapshot cfg epoch name st) = inr tt →
  ∃ sd,
    let state := {| ck_epoch := epoch; ck_state_dict := sd;
                    ck_optimizer := optimizer st; ck_scheduler := scheduler st;
                    ck_best_loss := best_loss st; ck_best_recall := best_recall st |} in
    (if distributed cfg
     then sd = ordered_dict (List.map strip_prefix (state_dict (model st)))
     else if parallel cfg
     then ∃ inner, model st = Wrapped inner ∧ sd = state_dict inner
     else sd = state_dict (model st))
    ∧ events (_snapshot cfg epoch name st)
      = [EvLog ("Save model to snapshot.pth" +:+ nl);
         EvLog ("Save model to " +:+ archive_path cfg epoch name +:+ nl);
         EvSave (snapshot_path cfg) state;
         EvSave (archive_path cfg epoch name) state]
    ∧ final (_snapshot cfg epoch name st)
      = set_fs (<[archive_path cfg epoch name := state]>
                  (<[snapshot_path cfg := state]> (fs st))) st.
Proof.
  unfold _snapshot. intros H.
  destruct (distributed cfg) eqn:Hd.
  - eexists. split; [reflexivity|]. by split.
  - destruct (parallel cfg) eqn:Hp.
    + destruct (model st) as [sd0|inner] eqn:Hm.
      * revert H. run. by rewrite Hm.
      * exists (state_dict inner). split; [by exists inner|].
        run. rewrite Hm. by split.
    + eexists. split; [reflexivity|]. by split.
Qed.

Lemma snapshot_ok epoch name st :
  (distributed cfg = false → parallel cfg = true → ∃ inner, model st = Wrapped inner) →
  result (_snapshot cfg epoch name st) = inr tt.
Proof.
  unfold _snapshot. intros H.
  destruct (distributed cfg) eqn:Hd; [reflexivity|].
  destruct (parallel cfg) eqn:Hp; [|reflexivity].
  destruct (H eq_refl eq_refl) as [inner Hm]. run. by rewrite Hm.
Qed.

Lemma load_pretrain_missing resume st :
  fs st !! path_join (save_dir cfg) resume = None →
  _load_pretrain cfg resume st
  = MkOut (inr tt) st [EvPrint "no snapshot training from start"].
Proof. unfold _load_pretrain. run. by intros ->. Qed.

Lemma load_pretrain_found resume st state m :
  fs st !! path_join (save_dir cfg) resume = Some state →
  load_state_dict (model st)
    (if distributed cfg then ordered_dict (List.map add_prefix (ck_state_dict state))
     else ck_state_dict state) = (m, None) →
  result (_load_pretrain cfg resume st) = inr tt
  ∧ final (_load_pretrain cfg resume st) = restore state (set_model m st).
Proof.
  unfold _load_pretrain, load_state_dict. run. intros -> Hm. run.
  injection Hm as Hm He. rewrite He. by rewrite <- Hm.
Qed.
End Checkpoints.

Section Init.
Context {X : Externals}.
Variable cfg : Config.

(** construction, in terms of its resume step *)
Lemma init_run args_model args_optimizer args_scheduler disk :
  batch_size cfg ≠ 0 →
  let st1 := set_verbose_freq
               (if overfit cfg then 1 else args_verbose_freq cfg / batch_size cfg + 1)
               (fresh_state cfg args_model args_optimizer args_scheduler disk) in
  let l := when (negb (String.eqb (pretrain cfg) ""))
             (_load_pretrain cfg (pretrain cfg)) st1 in
  let o := __init__ cfg args_model args_optimizer args_scheduler disk in
  result o = result l
  ∧ omap printed (events o) = omap printed (events l)
  ∧ (result l = inr tt →
     final o = if parallel cfg then set_model (Wrapped (model (final l))) (final l)
               else final l).
Proof.
  intros Hb. cbv zeta. apply Z.eqb_neq in Hb.
  unfold __init__, init_body, py_floordiv. rewrite Hb. run.
  set (l := when _ _ _).
  destruct (result l) as [e|[]] eqn:Hl; simpl.
  - by split_and!.
  - unfold when. destruct (parallel cfg); simpl; rewrite ?app_nil_r; by split_and!.
Qed.

(** what construction writes to the log: the parameter count of line 77,
    then the lines of its resume step *)
Lemma init_log args_model args_optimizer args_scheduler disk :
  batch_size cfg ≠ 0 →
  let st1 := set_verbose_freq
               (if overfit cfg then 1 else args_verbose_freq cfg / batch_size cfg + 1)
               (fresh_state cfg args_model args_optimizer args_scheduler disk) in
  let l := when (negb (String.eqb (pretrain cfg) ""))
             (_load_pretrain cfg (pretrain cfg)) st1 in
  let o := __init__ cfg args_model args_optimizer args_scheduler disk in
  omap log_line (events o)
  = ("#parameters "
     +:+ repr_float (inject_Z (count_parameters (model st1)) / 1000000)%Q
     +:+ " M" +:+ nl)
    :: omap log_line (events l).
Proof.
  intros Hb. cbv zeta. apply Z.eqb_neq in Hb.
  unfold __init__, init_body, py_floordiv. rewrite Hb. run.
  set (l := when _ _ _).
  destruct (result l) as [e|[]] eqn:Hl; simpl; [done|].
  unfold when. destruct (parallel cfg); simpl; by rewrite ?app_nil_r.
Qed.
End Init.

Section RoundTrip.
Context {X : Externals}.

End RoundTrip.


Section TwoFiles.
Context {X : Externals}.
Variable cfg : Config.

Lemma snapshot_archive_distinct epoch name :
  snapshot_path cfg ≠ archive_path cfg epoch name.
Proof.
  unfold snapshot_path, archive_path. intros H.
  apply path_join_relative in H; [|reflexivity|reflexivity]. discriminate H.
Qed.

(** C6, as the code has it.  A save that returns has written the same
    record to two distinct files, first [snapshot.pth] and then
    [model_<label>.pth], and both hold it afterwards.  The two writes
    are separate actions: the disk passes through a state in which
    [snapshot.pth] already holds the new record while the archival file
    is still what it was before the save. *)
Theorem snapshot_writes_two_files epoch name st :
  result (_snapshot cfg epoch name st) = inr tt →
  let o := _snapshot cfg epoch name st in
  let latest := snapshot_path cfg in
  let archive := archive_path cfg epoch name in
  ∃ state,
    omap saved (events o) = [(latest, state); (archive, state)]
    ∧ latest ≠ archive
    ∧ fs (final o) = disk_after (fs st) (events o)
    ∧ fs (final o) !! latest = Some state
    ∧ fs (final o) !! archive = Some state
    ∧ ∃ between, In between (disks_seen (fs st) (events o))
                 ∧ between !! latest = Some state
                 ∧ between !! archive = fs st !! archive.
Proof.
  intros H. cbv zeta.
  destruct (snapshot_inr cfg epoch name st H) as (sd & _ & Hev & Hfin).
  cbv zeta in Hev, Hfin. rewrite Hev, Hfin.
  pose proof (snapshot_archive_distinct epoch name) as Hne.
  eexists. split_and!.
  - reflexivity.
  - done.
  - reflexivity.
  - cbn [fs set_fs]. rewrite lookup_insert_ne by done. by rewrite lookup_insert_eq.
  - cbn [fs set_fs]. by rewrite lookup_insert_eq.
  - eexists. split_and!.
    + unfold disks_seen. cbn [List.length seq List.map].
      do 3 right. left. reflexivity.
    + cbn. by rewrite lookup_insert_eq.
    + cbn. by rewrite lookup_insert_ne.
Qed.
End TwoFiles.

Lemma snapshot_writes_two_files_witness :
  ∃ state,
    fs (final (_snapshot (X := Toy.externals) Toy.cfg 1 None Toy.fresh))
      !! snapshot_path Toy.cfg = Some state
    ∧ fs (final (_snapshot (X := Toy.externals) Toy.cfg 1 None Toy.fresh))
        !! archive_path Toy.cfg 1 None = Some state.
Proof.
  destruct (snapshot_writes_two_files (X := Toy.externals) Toy.cfg 1 None Toy.fresh)
    as (state & _ & _ & _ & H1 & H2 & _).
  - reflexivity.
  - exists state. split; [exact H1|exact H2].
Defined.

(** C6 as stated makes the two writes atomic.  Saving on an empty disk,
    an observer of the successive disk contents sees [snapshot.pth]
    present while the archival file does not exist yet. *)
Lemma atomic_save_counterexample :
  ¬ (∀ disk : gmap string (Checkpoint (X := Toy.externals)),
       In disk (disks_seen ∅ (events (_snapshot (X := Toy.externals) Toy.cfg 1 None Toy.fresh))) →
       is_Some (disk !! snapshot_path Toy.cfg) →
       is_Some (disk !! archive_path Toy.cfg 1 None)).
Proof.
  intros H.
  destruct (snapshot_inr (X := Toy.externals) Toy.cfg 1 None Toy.fresh eq_refl)
    as (sd & _ & Hev & _).
  cbv zeta in Hev. rewrite Hev in H. clear Hev.
  set (state := Build_Checkpoint _ _ _ _ _ _) in H.
  specialize (H (<[snapshot_path Toy.cfg := state]> ∅)).
  destruct H as [x Hx].
  - unfold disks_seen. cbn [List.length seq List.map]. do 3 right. left. reflexivity.
  - rewrite lookup_insert_eq. by eexists.
  - rewrite lookup_insert_ne in Hx by apply snapshot_archive_distinct.
    by rewrite lookup_empty in Hx.
Qed.

(** ** The top-level procedure *)
Section Train.
Context {X : Externals}.
Variable cfg : Config.
Variable loader : phase → list Batch.

Lemma quiet_emit_all {C} (p : Event → option C) evs :
  omap p evs = [] → quiet p (emit_all evs).
Proof. by intros H st. Qed.

Ltac quiet_auto :=
  repeat first
    [ quiet_step
    | apply quiet_emit_all; apply omap_add_scalars; reflexivity
    | match goal with
      | |- quiet _ (if ?b then _ else _) => destruct b
      | |- quiet _ (match ?x with _ => _ end) => destruct x
      end ].

(** nothing inside the batch loop enters an epoch *)
Lemma quiet_one_iteration epoch ph total c b vars :
  quiet train_epoch_of (one_iteration cfg epoch ph total c b vars).
Proof.
  unfold one_iteration, inference_one_batch, run_optimisation, report_progress,
    zero_grad, step, logger_write.
  quiet_auto.
Qed.

Lemma quiet_epoch_loop epoch ph total bs : ∀ c vars,
  quiet train_epoch_of (epoch_loop cfg epoch ph total c bs vars).
Proof.
  induction bs as [|b bs IH]; intros c vars.
  - apply quiet_ret.
  - rewrite epoch_loop_cons. apply quiet_bind; [apply quiet_one_iteration|].
    intros vars1. apply IH.
Qed.

(** an epoch, however it ends, is one entry into [inference_one_epoch] *)
Lemma epochs_entered epoch ph st :
  omap train_epoch_of (events (inference_one_epoch cfg loader epoch ph st))
  = if is_train ph then [epoch] else [].
Proof.
  unfold inference_one_epoch. rewrite bind_omap. rewrite emit_run. cbn [result final events].
  assert (Hq : quiet train_epoch_of
            (when (distributed cfg)
               (print ("epoch  " +:+ str_int epoch);; emit (EvSetEpoch ph epoch));;
             zero_grad cfg None;;
             print ("iteration  " +:+ str_int (Z.of_nat (List.length (loader ph))));;
             vars ← epoch_loop cfg epoch ph (Z.of_nat (List.length (loader ph))) 0
                      (loader ph) (None, PyInt 0);
             when (negb (is_train ph))
               (report_recall cfg epoch ph (Z.of_nat (List.length (loader ph)))
                  (fst vars) (snd vars));;
             sm ← lift (items (fst vars));
             logger_write (phase_name ph +:+ " Epoch: " +:+ str_int epoch
                           +:+ averages_text sm +:+ nl);;
             mret sm)).
  { unfold print, zero_grad, logger_write, report_recall.
    apply quiet_bind; [quiet_auto|]. intros ?.
    apply quiet_bind; [quiet_auto|]. intros ?.
    apply quiet_bind; [quiet_auto|]. intros ?.
    apply quiet_bind; [apply quiet_epoch_loop|]. intros ?.
    quiet_auto. }
  rewrite Hq, app_nil_r. by destruct ph.
Qed.

Lemma quiet_snapshot epoch name : quiet train_epoch_of (_snapshot cfg epoch name).
Proof.
  unfold _snapshot, torch_save, logger_write. quiet_auto.
Qed.

(** the body of the epoch loop of [train] always ends in [break] *)
Lemma train_epoch_break epoch st ctl :
  result (train_epoch cfg loader epoch st) = inr ctl → ctl = Break.
Proof.
  unfold train_epoch. intros H.
  inv_bind H sm H1. inv_bind H u1 H2. inv_bind H meter H3.
  inv_bind H u2 H4. inv_bind H u3 H5. by injection H as <-.
Qed.

Lemma train_epoch_entered epoch st :
  omap train_epoch_of (events (train_epoch cfg loader epoch st)) = [epoch].
Proof.
  unfold train_epoch. rewrite bind_omap, epochs_entered. cbn [is_train].
  match goal with |- context [match ?r with _ => _ end] => destruct r as [e|sm] end;
    [reflexivity|].
  assert (Hq : quiet train_epoch_of
            (sched_step;;
             meter ← lift (dict_item "loss" sm);
             when (local_rank cfg =? 0)
               (_snapshot cfg epoch
                  (Some (str_int epoch +:+ "_epoch_model_loss_"
                         +:+ repr_float (avg meter))));;
             when (do_valid cfg) (_ ← inference_one_epoch cfg loader epoch Val; mret tt);;
             mret Break)).
  { unfold sched_step.
    apply quiet_bind; [quiet_auto|]. intros ?.
    apply quiet_bind; [quiet_auto|]. intros meter.
    apply quiet_bind; [apply quiet_when, quiet_snapshot|]. intros ?.
    apply quiet_bind; [|intros ?; apply quiet_ret].
    apply quiet_when. apply quiet_bind; [|intros ?; apply quiet_ret].
    intros st'. by rewrite epochs_entered. }
  by rewrite Hq.
Qed.

(** [for epoch in range(start, max): ...; break] runs its body once *)
Lemma for_each_train_epoch first rest st :
  for_each (first :: rest) (train_epoch cfg loader) st
  = (_ ← train_epoch cfg loader first; mret tt) st.
Proof.
  cbn [for_each]. rewrite !bind_unfold. unfold bind.
  destruct (result (train_epoch cfg loader first st)) as [e|ctl] eqn:H; [done|].
  by rewrite (train_epoch_break _ _ _ H).
Qed.

Lemma py_range_cons a b : a < b → py_range a b = a :: py_range (a + 1) b.
Proof.
  intros H. unfold py_range. rewrite seqZ_cons by lia. f_equal. f_equal; lia.
Qed.
End Train.

(** ** What a computation leaves alone *)
Section Steady.
Context {X : Externals}.
Context {B : Type} (field : State → B) (P : B → Event → Prop).

Lemma steady_bind {A C} (m : M A) (f : A → M C) :
  steady field P m → (∀ a, steady field P (f a)) → steady field P (m ≫= f).
Proof.
  intros Hm Hf st. rewrite bind_unfold. unfold bind.
  destruct (Hm st) as [Hfm Hem].
  destruct (result (m st)) as [e|a]; cbn [final events]; [done|].
  destruct (Hf a (final (m st))) as [H1 H2]. rewrite Hfm in *.
  split; [done|]. apply Forall_app. by split.
Qed.

Lemma steady_ret {A} (a : A) : steady field P (mret a).
Proof. intros st. by split. Qed.

Lemma steady_lift {A} (r : exn + A) : steady field P (lift r).
Proof. intros st. by split. Qed.

Lemma steady_get : steady field P get.
Proof. intros st. by split. Qed.

Lemma steady_modify f : (∀ st, field (f st) = field st) → steady field P (modify f).
Proof. intros H st. split; [apply H|constructor]. Qed.

Lemma steady_emit e : (∀ b, P b e) → steady field P (emit e).
Proof. intros H st. split; [done|]. by apply Forall_singleton. Qed.

Lemma steady_emit_all evs : (∀ b, Forall (P b) evs) → steady field P (emit_all evs).
Proof. intros H st. split; [reflexivity|apply H]. Qed.

Lemma steady_when b m : steady field P m → steady field P (when b m).
Proof. intros H. destruct b; [done|]. apply steady_ret. Qed.

(** after [get], the continuation may rely on the value read *)
Lemma steady_get_bind {A} (f : State → M A) :
  (∀ s, steady field (λ b e, b = field s → P b e) (f s)) →
  steady field P (get ≫= f).
Proof.
  intros H st. rewrite bind_unfold. unfold bind, get. cbn [result final events app].
  destruct (H st st) as [H1 H2]. split; [done|].
  eapply Forall_impl; [exact H2|]. intros e He. by apply He.
Qed.

Lemma steady_for_each {A} (xs : list A) (body : A → M control) :
  (∀ x, steady field P (body x)) → steady field P (for_each xs body).
Proof.
  intros H. induction xs as [|x xs IH]; [apply steady_ret|].
  cbn [for_each]. apply steady_bind; [done|]. intros [|]; [done|apply steady_ret].
Qed.
End Steady.

Lemma Forall_omap_nil {A C} (p : A → option C) (l : list A) :
  Forall (λ e, p e = None) l → omap p l = [].
Proof.
  induction 1 as [|e l He _ IH]; [done|]. by rewrite omap_cons_None.
Qed.

Lemma Forall_add_scalars {X : Externals} (Q : Event → Prop) ph (sm : StatsMeter) step :
  (∀ series value, Q (EvScalar series value step)) →
  Forall Q (add_scalars ph sm step).
Proof.
  intros H. unfold add_scalars. induction sm as [|kv sm IH]; constructor; [apply H|done].
Qed.

Ltac steady_step :=
  first
    [ apply steady_bind; [|intros ?]
    | apply steady_ret
    | apply steady_lift
    | apply steady_get
    | apply steady_modify; reflexivity
    | apply steady_emit; intros; done
    | apply steady_emit_all; intros; apply Forall_add_scalars; done
    | apply steady_when ].

(** ** What an epoch leaves alone *)
Section Kept.
Context {X : Externals}.
Variable cfg : Config.
Variable loader : phase → list Batch.
Context {B : Type} (field : State → B) (P : B → Event → Prop).

(** the fields the batch loop writes are the network, the optimizer and
    the gradients; a field that ignores them is kept by an epoch, whose
    actions, but for the entry into the epoch, are no milestones *)
Hypothesis field_grads : ∀ g st, field (set_grads g st) = field st.
Hypothesis field_step : ∀ st,
  field (let r := optimizer_step (optimizer st) (parameters (model st)) (grads st) in
         set_model_optimizer (with_parameters (model st) (snd r)) (fst r) st)
  = field st.
Hypothesis allowed : ∀ b e, milestone e = None → P b e.

Lemma steady_zero_grad c : steady field P (zero_grad cfg c).
Proof.
  unfold zero_grad. apply steady_bind; [by apply steady_emit; intros; apply allowed|intros _].
  apply steady_modify. intros st. unfold cleared.
  destruct (parallel cfg); [done|apply field_grads].
Qed.

Lemma steady_iteration epoch ph total c b vars :
  steady field P (one_iteration cfg epoch ph total c b vars).
Proof.
  unfold one_iteration.
  apply steady_bind; [by apply steady_emit; intros; apply allowed|intros _].
  apply steady_bind.
  { unfold inference_one_batch. apply steady_bind; [apply steady_get|intros s].
    destruct (is_train ph); [|apply steady_ret].
    apply steady_bind; [apply steady_lift|intros _].
    apply steady_bind; [apply steady_modify, field_grads|intros _]. apply steady_ret. }
  intros [li out]. apply steady_bind.
  { unfold run_optimisation. apply steady_bind; [apply steady_lift|intros r].
    destruct ((r =? 0) && is_train ph)%bool; [|apply steady_ret].
    apply steady_bind; [apply steady_get|intros s].
    apply steady_bind; [by apply steady_emit; intros; apply allowed|intros _].
    apply steady_bind; [|intros _; apply steady_zero_grad].
    destruct (validate_gradient _ _).
    - unfold step. destruct (parallel cfg); [apply steady_lift|].
      apply steady_bind; [by apply steady_emit; intros; apply allowed|intros _].
      apply steady_modify. exact field_step.
    - by apply steady_emit; intros; apply allowed. }
  intros _. apply steady_bind; [apply steady_lift|intros sm].
  destruct (is_train ph); [|apply steady_ret].
  apply steady_bind; [|intros _; apply steady_ret].
  unfold report_progress. apply steady_bind; [apply steady_get|intros s].
  apply steady_bind; [apply steady_lift|intros r].
  destruct ((r =? 0) && verbose cfg)%bool; [|apply steady_ret].
  apply steady_bind.
  - apply steady_emit_all. intros b0. apply Forall_add_scalars. intros. by apply allowed.
  - intros _. by apply steady_emit; intros; apply allowed.
Qed.

Lemma steady_loop epoch ph total bs :
  ∀ c vars, steady field P (epoch_loop cfg epoch ph total c bs vars).
Proof.
  induction bs as [|b bs IH]; intros c vars; [apply steady_ret|].
  rewrite epoch_loop_cons. apply steady_bind; [apply steady_iteration|].
  intros vars'. apply IH.
Qed.

(** the lines of [inference_one_epoch] from the batch loop on *)
Lemma steady_epoch_rest epoch ph total :
  steady field P
    (vars ← epoch_loop cfg epoch ph total 0 (loader ph) (None, PyInt 0);
     when (negb (is_train ph))
       (report_recall cfg epoch ph total (fst vars) (snd vars));;
     sm ← lift (items (fst vars));
     logger_write (phase_name ph +:+ " Epoch: " +:+ str_int epoch
                   +:+ averages_text sm +:+ nl);;
     mret sm).
Proof.
  apply steady_bind; [apply steady_loop|intros [osm succ]].
  apply steady_bind.
  { apply steady_when. unfold report_recall.
    apply steady_bind; [apply steady_lift|intros sm].
    apply steady_bind.
    { apply steady_emit_all. intros b0. apply Forall_add_scalars. intros. by apply allowed. }
    intros _. apply steady_bind; [apply steady_lift|intros RR].
    by apply steady_emit; intros; apply allowed. }
  intros _. apply steady_bind; [apply steady_lift|intros sm].
  apply steady_bind; [by apply steady_emit; intros; apply allowed|intros _].
  apply steady_ret.
Qed.

Lemma steady_epoch epoch ph :
  (∀ b, P b (EvEpoch epoch ph)) →
  steady field P (inference_one_epoch cfg loader epoch ph).
Proof.
  intros Hentry. unfold inference_one_epoch.
  apply steady_bind; [by apply steady_emit|intros _].
  apply steady_bind.
  { apply steady_when. unfold print.
    apply steady_bind; [|intros _]; by apply steady_emit; intros; apply allowed. }
  intros _. apply steady_bind; [apply steady_zero_grad|intros _].
  apply steady_bind; [by apply steady_emit; intros; apply allowed|intros _].
  apply steady_bind; [apply steady_loop|intros [osm succ]].
  apply steady_bind.
  { apply steady_when. unfold report_recall.
    apply steady_bind; [apply steady_lift|intros sm].
    apply steady_bind.
    { apply steady_emit_all. intros b0. apply Forall_add_scalars. intros. by apply allowed. }
    intros _. apply steady_bind; [apply steady_lift|intros RR].
    by apply steady_emit; intros; apply allowed. }
  intros _. apply steady_bind; [apply steady_lift|intros sm].
  apply steady_bind; [by apply steady_emit; intros; apply allowed|intros _].
  apply steady_ret.
Qed.
End Kept.

Section TrainClaim.
Context {X : Externals}.
Variable cfg : Config.
Variable loader : phase → list Batch.

(** an epoch, however it ends, touches neither the scheduler nor the
    files nor the best scores, and saves nothing *)
Lemma epoch_keeps_schedule epoch ph :
  steady (λ st, (scheduler st, best_loss st, best_recall st, fs st))
         (λ _ e, saved e = None)
         (inference_one_epoch cfg loader epoch ph).
Proof. apply steady_epoch; try done. by intros b []. Qed.

Lemma train_run st :
  start_epoch st < max_epoch cfg →
  let t := train_epoch cfg loader (start_epoch st) st in
  let pre := EvPrint ("start training...local_rank  " +:+ str_int (local_rank cfg))
             :: (if local_rank cfg =? 0 then [EvPrint "record process"] else []) in
  train cfg loader st
  = match result t with
    | inl e => MkOut (inl e) (final t) (pre ++ events t)
    | inr _ => MkOut (inr tt) (final t) (pre ++ events t ++ [EvPrint "Training finish!"])
    end.
Proof.
  intros Hlt. cbv zeta. unfold train, print, when.
  destruct (local_rank cfg =? 0); run; rewrite (py_range_cons _ _ Hlt);
    rewrite for_each_train_epoch; run;
    destruct (result (train_epoch cfg loader (start_epoch st) st)); simpl;
    by rewrite ?app_nil_r, <- ?app_assoc.
Qed.

Lemma epoch_milestones epoch ph st sm :
  result (inference_one_epoch cfg loader epoch ph st) = inr sm →
  omap milestone (events (inference_one_epoch cfg loader epoch ph st))
  = [RunEpoch epoch ph].
Proof.
  intros H.
  destruct (inference_one_epoch_inr cfg loader epoch ph st sm H)
    as (succ & RR & Hl & _ & _ & Hev).
  destruct (epoch_loop_sites cfg epoch ph _ (loader ph) 0 _ _ _ Hl)
    as (_ & _ & _ & Hm & _).
  rewrite Hev.
  change (omap milestone (EvEpoch epoch ph :: ?l)) with (RunEpoch epoch ph :: omap milestone l).
  f_equal. destruct (distributed cfg), (is_train ph); cbn [app]; proj;
    rewrite ?Hm, ?omap_add_scalars by done; by proj.
Qed.

Lemma train_epoch_inr epoch st ctl :
  result (train_epoch cfg loader epoch st) = inr ctl →
  ∃ sm meter,
    result (inference_one_epoch cfg loader epoch Train st) = inr sm
    ∧ dict_item "loss" sm = inr meter
    ∧ omap milestone (events (train_epoch cfg loader epoch st))
      = RunEpoch epoch Train :: SchedulerStep
        :: (if local_rank cfg =? 0
            then [Saved (snapshot_path cfg);
                  Saved (archive_path cfg epoch
                           (Some (str_int epoch +:+ "_epoch_model_loss_"
                                  +:+ repr_float (avg meter))))]
            else [])
        ++ (if do_valid cfg then [RunEpoch epoch Val] else []).
Proof.
  unfold train_epoch. intros H.
  inv_bind H sm H1. inv_bind H u1 H2. clear H2.
  inv_bind H meter H3. rewrite lift_run in H3. cbn [result] in H3.
  inv_bind H u2 H4. inv_bind H u3 H5. clear H.
  exists sm, meter. split_and!; [done|done|].
  set (s1 := final (inference_one_epoch cfg loader epoch Train st)) in *.
  set (s2 := final (sched_step s1)) in *.
  set (s3 := final (lift (dict_item "loss" sm) s2)) in *.
  set (s4 := final (when (local_rank cfg =? 0) _ s3)) in *.
  set (s5 := final (when (do_valid cfg) _ s4)) in *.
  clearbody s5 s4 s3 s2.
  rewrite !omap_app. rewrite (epoch_milestones _ _ _ _ H1).
  change (omap milestone (events (sched_step s1))) with [SchedulerStep].
  rewrite lift_run, ret_run. cbn [events app]. f_equal. f_equal.
  rewrite omap_nil', app_nil_l, app_nil_r. f_equal.
  - unfold when in H4 |- *. destruct (local_rank cfg =? 0); [|done].
    destruct u2.
    destruct (snapshot_inr cfg _ _ _ H4) as (sd & _ & Hev & _). cbv zeta in Hev.
    by rewrite Hev.
  - unfold when in H5 |- *. destruct (do_valid cfg); [|done].
    inv_bind H5 smv H6. rewrite omap_app, (epoch_milestones _ _ _ _ H6). by rewrite ret_run.
Qed.

(** whatever happens in it, a run of [train] enters the training epoch
    numbered [start_epoch] and no other *)
Lemma train_enters_start_epoch st :
  start_epoch st < max_epoch cfg →
  omap train_epoch_of (events (train cfg loader st)) = [start_epoch st].
Proof.
  intros Hlt. rewrite (train_run st Hlt). cbv zeta.
  pose proof (train_epoch_entered cfg loader (start_epoch st) st) as He.
  destruct (result (train_epoch cfg loader (start_epoch st) st));
    cbn [events]; destruct (local_rank cfg =? 0); cbn [app]; proj; by rewrite He.
Qed.

(** the scheduler and the disk as the one pass of [train]'s loop leaves
    them *)
Lemma train_epoch_effect epoch st ctl :
  result (train_epoch cfg loader epoch st) = inr ctl →
  let o := train_epoch cfg loader epoch st in
  let s1 := final (inference_one_epoch cfg loader epoch Train st) in
  ∀ meter,
    (∃ sm, result (inference_one_epoch cfg loader epoch Train st) = inr sm
           ∧ dict_item "loss" sm = inr meter) →
    let path := archive_path cfg epoch
                  (Some (str_int epoch +:+ "_epoch_model_loss_"
                         +:+ repr_float (avg meter))) in
    scheduler (final o) = scheduler_step (scheduler st)
    ∧ if local_rank cfg =? 0
      then ∃ sd,
             let ck := {| ck_epoch := epoch; ck_state_dict := sd;
                          ck_optimizer := optimizer s1;
                          ck_scheduler := scheduler_step (scheduler st);
                          ck_best_loss := best_loss st;
                          ck_best_recall := best_recall st |} in
             (if distributed cfg
              then sd = ordered_dict (List.map strip_prefix (state_dict (model s1)))
              else if parallel cfg
              then ∃ inner, model s1 = Wrapped inner ∧ sd = state_dict inner
              else sd = state_dict (model s1))
             ∧ omap saved (events o) = [(snapshot_path cfg, ck); (path, ck)]
             ∧ fs (final o) = <[path := ck]> (<[snapshot_path cfg := ck]> (fs st))
      else omap saved (events o) = [] ∧ fs (final o) = fs st.
Proof.
  intros H. cbv zeta. intros meter0 (sm0 & Hsm0 & Hmeter0). unfold train_epoch in *.
  inv_bind H sm H1. inv_bind H u1 H2. clear H2.
  inv_bind H meter H3. rewrite lift_run in H3. cbn [result] in H3.
  inv_bind H u2 H4. inv_bind H u3 H5. clear H.
  assert (sm0 = sm) by congruence. subst sm0.
  assert (meter0 = meter) by congruence. subst meter0. clear Hsm0 Hmeter0.
  destruct (epoch_keeps_schedule epoch Train st) as [Hf1 He1].
  set (s1 := final (inference_one_epoch cfg loader epoch Train st)) in *.
  assert (Hsch : scheduler s1 = scheduler st) by (by injection Hf1).
  assert (Hbl : best_loss s1 = best_loss st) by (by injection Hf1).
  assert (Hbr : best_recall s1 = best_recall st) by (by injection Hf1).
  assert (Hfs : fs s1 = fs st) by (by injection Hf1).
  clear Hf1.
  rewrite lift_run in *. cbn [final events] in *.
  set (s2 := final (sched_step s1)) in *.
  assert (Hs2 : scheduler s2 = scheduler_step (scheduler st)
                ∧ optimizer s2 = optimizer s1 ∧ fs s2 = fs st
                ∧ best_loss s2 = best_loss st ∧ best_recall s2 = best_recall st
                ∧ model s2 = model s1).
  { subst s2.
    change (scheduler (final (sched_step s1))) with (scheduler_step (scheduler s1)).
    change (optimizer (final (sched_step s1))) with (optimizer s1).
    change (best_loss (final (sched_step s1))) with (best_loss s1).
    change (best_recall (final (sched_step s1))) with (best_recall s1).
    change (fs (final (sched_step s1))) with (fs s1).
    change (model (final (sched_step s1))) with (model s1).
    by rewrite Hsch, Hbl, Hbr, Hfs. }
  destruct Hs2 as (Hs2a & Hs2b & Hs2c & Hs2d & Hs2e & Hs2f).
  assert (Hv : ∀ s3, let v := when (do_valid cfg)
                                 (_ ← inference_one_epoch cfg loader epoch Val; mret tt) s3 in
               omap saved (events v) = []
               ∧ fs (final v) = fs s3 ∧ scheduler (final v) = scheduler s3).
  { intros s3. cbv zeta. unfold when. destruct (do_valid cfg); [|done].
    destruct (epoch_keeps_schedule epoch Val s3) as [Hf He].
    assert (Hsch' : scheduler (final (inference_one_epoch cfg loader epoch Val s3))
                    = scheduler s3) by (by injection Hf).
    assert (Hfs' : fs (final (inference_one_epoch cfg loader epoch Val s3)) = fs s3)
      by (by injection Hf).
    destruct (result (inference_one_epoch cfg loader epoch Val s3)) as [e|smv] eqn:Er.
    - rewrite (bind_raise_run _ _ _ _ Er). cbn [events final].
      split_and!; [by apply Forall_omap_nil|done|done].
    - rewrite (bind_ok_run _ _ _ _ Er). rewrite ret_run. cbn [events final].
      rewrite app_nil_r. split_and!; [by apply Forall_omap_nil|done|done]. }
  cbv zeta in Hv. rewrite ret_run. cbn [events final]. rewrite app_nil_r.
  rewrite !omap_app, (Forall_omap_nil saved _ He1).
  change (omap saved (events (sched_step s1))) with (@nil (string * Checkpoint)).
  cbn [app].
  match goal with
  | |- context [when (do_valid cfg) ?m ?s] =>
      destruct (Hv s) as (Hv1 & Hv2 & Hv3)
  end.
  rewrite Hv1, Hv2, Hv3, app_nil_r.
  destruct (local_rank cfg =? 0); cbn [when] in *.
  - destruct u2.
    destruct (snapshot_inr cfg _ _ _ H4) as (sd & Hsd & Hev & Hfin). cbv zeta in Hev, Hfin.
    rewrite Hfin, Hev. cbn [scheduler fs set_fs].
    rewrite Hs2a, Hs2b, Hs2c, Hs2d, Hs2e. rewrite Hs2f in Hsd.
    split; [done|]. exists sd. by split_and!.
  - change (ret tt s2) with (MkOut (inr tt) s2 []). cbn [events final].
    by rewrite Hs2a, Hs2c.
Qed.

(** C1.  When [start_epoch < max_epoch], a run of [train] enters
    exactly one training epoch, the one numbered [start_epoch], however
    the run ends.  A run that returns has done, in this order: the
    training epoch, one scheduler step, the two checkpoint files
    (labelled with the epoch and its training loss) when [local_rank]
    is 0 and none otherwise, and a validation epoch of the same number
    when [do_valid] is set and none otherwise; it ends with "Training
    finish!", without entering epoch [start_epoch + 1].  In the state it
    leaves, the scheduler is the given one stepped once.  On rank 0 the
    two files hold one record: the epoch number, the state dictionary of
    the network and the optimizer as the training epoch left them, the
    stepped scheduler, and the best scores; these two writes are the
    only ones, and the disk is the given one with the two files
    written.  On another rank nothing is written and the disk is as
    given. *)
Theorem train_runs_one_epoch st :
  start_epoch st < max_epoch cfg →
  let o := train cfg loader st in
  let epoch := start_epoch st in
  let s1 := final (inference_one_epoch cfg loader epoch Train st) in
  omap train_epoch_of (events o) = [epoch]
  ∧ (result o = inr tt →
     ∃ sm meter,
       let path := archive_path cfg epoch
                     (Some (str_int epoch +:+ "_epoch_model_loss_"
                            +:+ repr_float (avg meter))) in
       result (inference_one_epoch cfg loader epoch Train st) = inr sm
       ∧ dict_item "loss" sm = inr meter
       ∧ omap milestone (events o)
         = RunEpoch epoch Train :: SchedulerStep
           :: (if local_rank cfg =? 0
               then [Saved (snapshot_path cfg); Saved path]
               else [])
           ++ (if do_valid cfg then [RunEpoch epoch Val] else [])
       ∧ last (events o) = Some (EvPrint "Training finish!")
       ∧ scheduler (final o) = scheduler_step (scheduler st)
       ∧ if local_rank cfg =? 0
         then ∃ sd,
                let ck := {| ck_epoch := epoch; ck_state_dict := sd;
                             ck_optimizer := optimizer s1;
                             ck_scheduler := scheduler_step (scheduler st);
                             ck_best_loss := best_loss st;
                             ck_best_recall := best_recall st |} in
                (if distributed cfg
                 then sd = ordered_dict (List.map strip_prefix (state_dict (model s1)))
                 else if parallel cfg
                 then ∃ inner, model s1 = Wrapped inner ∧ sd = state_dict inner
                 else sd = state_dict (model s1))
                ∧ omap saved (events o) = [(snapshot_path cfg, ck); (path, ck)]
                ∧ fs (final o) = <[path := ck]> (<[snapshot_path cfg := ck]> (fs st))
         else omap saved (events o) = [] ∧ fs (final o) = fs st).
Proof.
  intros Hlt. cbv zeta. rewrite (train_run st Hlt). cbv zeta.
  pose proof (train_epoch_entered cfg loader (start_epoch st) st) as He.
  pose proof (train_enters_start_epoch st Hlt) as Hfirst.
  rewrite (train_run st Hlt) in Hfirst. cbv zeta in Hfirst.
  destruct (result (train_epoch cfg loader (start_epoch st) st)) as [e|ctl] eqn:Hr;
    cbn [events result final].
  - by split.
  - split; [done|].
    intros _. destruct (train_epoch_inr _ _ _ Hr) as (sm & meter & H1 & H2 & H3).
    destruct (train_epoch_effect _ _ _ Hr meter) as [Hsch Hdisk]; [by exists sm|].
    exists sm, meter. split_and!; [done|done| | |done|].
    + destruct (local_rank cfg =? 0); cbn [app]; proj; by rewrite H3.
    + rewrite app_assoc. apply last_snoc.
    + destruct (local_rank cfg =? 0).
      * destruct Hdisk as (sd & Hsd & Hsaved & Hfs). exists sd.
        split_and!; [done| |done].
        cbn [app]. proj. by rewrite Hsaved.
      * destruct Hdisk as [Hsaved Hfs]. split; [|done].
        cbn [app]. proj. by rewrite Hsaved.
Qed.
End TrainClaim.

Lemma train_runs_one_epoch_witness :
  omap (train_epoch_of (X := Toy.externals))
    (events (train (X := Toy.externals) Toy.cfg Toy.loader Toy.fresh)) = [1]
  ∧ result (train (X := Toy.externals) Toy.cfg Toy.loader Toy.fresh) = inr tt
  ∧ scheduler (final (train (X := Toy.externals) Toy.cfg Toy.loader Toy.fresh)) = 1.
Proof.
  destruct (train_runs_one_epoch (X := Toy.externals) Toy.cfg Toy.loader Toy.fresh)
    as [H H'].
  - vm_compute. reflexivity.
  - split; [exact H|]. split; [vm_compute; reflexivity|].
    destruct H' as (sm & meter & _ & _ & _ & _ & Hs & _); [vm_compute; reflexivity|].
    exact Hs.
Defined.


(** ** Resuming from a file that is not there *)
Section Resume.
Context {X : Externals}.
Variable cfg : Config.
Variable loader : phase → list Batch.

(** C9, as the code has it.  When the file named by [pretrain] does not
    exist, construction returns normally: [_load_pretrain] prints one
    line saying so to standard output (line 144), writes nothing about
    it to the log, and changes nothing.  The log of the construction
    holds the parameter count of line 77 and nothing else.  The trainer
    starts at epoch 1 with the initial [best_loss] and [best_recall], the
    network, optimizer and scheduler it was given, and the disk as it
    was; [train] then begins with epoch 1. *)
Theorem missing_checkpoint_is_not_fatal args_model args_optimizer args_scheduler disk :
  disk !! path_join (save_dir cfg) (pretrain cfg) = None →
  batch_size cfg ≠ 0 →
  let o := __init__ cfg args_model args_optimizer args_scheduler disk in
  result o = inr tt
  ∧ omap printed (events o)
    = (if String.eqb (pretrain cfg) "" then [] else ["no snapshot training from start"%string])
  ∧ omap log_line (events o)
    = ["#parameters "
       +:+ repr_float (inject_Z (count_parameters (Base args_model)) / 1000000)%Q
       +:+ " M" +:+ nl]
  ∧ start_epoch (final o) = 1
  ∧ best_loss (final o) = 100000%Q
  ∧ best_recall (final o) = (- (100000))%Q
  ∧ model (final o) = built cfg args_model
  ∧ optimizer (final o) = args_optimizer
  ∧ scheduler (final o) = args_scheduler
  ∧ fs (final o) = disk
  ∧ (∀ st, fs st !! path_join (save_dir cfg) (pretrain cfg) = None →
           _load_pretrain cfg (pretrain cfg) st
           = MkOut (inr tt) st [EvPrint "no snapshot training from start"])
  ∧ (1 < max_epoch cfg →
     omap train_epoch_of (events (train cfg loader (final o))) = [1]).
Proof.
  intros Hmiss Hb. cbv zeta.
  destruct (init_run cfg args_model args_optimizer args_scheduler disk Hb)
    as (Hr & Hp & Hf). cbv zeta in Hr, Hp, Hf.
  pose proof (init_log cfg args_model args_optimizer args_scheduler disk Hb) as Hlog.
  cbv zeta in Hlog.
  set (st1 := set_verbose_freq _ (fresh_state cfg args_model args_optimizer
                                    args_scheduler disk)) in *.
  assert (Hl : when (negb (String.eqb (pretrain cfg) ""))
                 (_load_pretrain cfg (pretrain cfg)) st1
               = MkOut (inr tt) st1
                   (if String.eqb (pretrain cfg) "" then []
                    else [EvPrint "no snapshot training from start"])).
  { unfold when. destruct (String.eqb (pretrain cfg) ""); [done|].
    cbn [negb]. by apply load_pretrain_missing. }
  rewrite Hl in Hr, Hp, Hf, Hlog. cbn [result final events] in Hr, Hp, Hf, Hlog.
  specialize (Hf eq_refl).
  assert (Hstart : start_epoch
                     (final (__init__ cfg args_model args_optimizer args_scheduler disk)) = 1).
  { rewrite Hf. by destruct (parallel cfg). }
  split_and!.
  - done.
  - rewrite Hp. by destruct (String.eqb (pretrain cfg) "").
  - rewrite Hlog. subst st1. cbn [model set_verbose_freq fresh_state].
    by destruct (String.eqb (pretrain cfg) ""), (distributed cfg).
  - done.
  - rewrite Hf. by destruct (parallel cfg).
  - rewrite Hf. by destruct (parallel cfg).
  - rewrite Hf. unfold built. by destruct (parallel cfg).
  - rewrite Hf. by destruct (parallel cfg).
  - rewrite Hf. by destruct (parallel cfg).
  - rewrite Hf. by destruct (parallel cfg).
  - intros st. apply load_pretrain_missing.
  - intros Hmax. rewrite train_enters_start_epoch by (by rewrite Hstart).
    by rewrite Hstart.
Qed.
End Resume.

Lemma missing_checkpoint_is_not_fatal_witness :
  result (__init__ (X := Toy.externals) Toy.cfg Toy.net 0 0 ∅) = inr tt
  ∧ start_epoch (final (__init__ (X := Toy.externals) Toy.cfg Toy.net 0 0 ∅)) = 1.
Proof.
  destruct (missing_checkpoint_is_not_fatal (X := Toy.externals) Toy.cfg Toy.loader
              Toy.net 0 0 ∅) as (H1 & _ & _ & H2 & _).
  - reflexivity.
  - vm_compute. discriminate.
  - split; [exact H1|exact H2].
Defined.

(** C9 as stated has the condition logged.  Constructing a trainer that
    is to resume from ["snapshot.pth"] on an empty disk returns, and the
    only line in its log is the parameter count: the message about the
    missing file goes to standard output. *)
Lemma missing_checkpoint_logged_counterexample :
  (∅ : gmap string (Checkpoint (X := Toy.externals)))
    !! path_join (save_dir Toy.resume_cfg) (pretrain Toy.resume_cfg) = None
  ∧ result (__init__ (X := Toy.externals) Toy.resume_cfg Toy.net 0 0 ∅) = inr tt
  ∧ omap printed (events (__init__ (X := Toy.externals) Toy.resume_cfg Toy.net 0 0 ∅))
    = ["no snapshot training from start"%string]
  ∧ ¬ (∃ line,
         In line (omap log_line
                    (events (__init__ (X := Toy.externals) Toy.resume_cfg Toy.net 0 0 ∅)))
         ∧ line ≠ ("#parameters <float> M" +:+ nl)%string)
  ∧ ¬ (omap log_line
         (events (_load_pretrain (X := Toy.externals) Toy.resume_cfg
                    (pretrain Toy.resume_cfg)
                    (fresh_state (X := Toy.externals) Toy.resume_cfg Toy.net 0 0 ∅)))
       ≠ []).
Proof.
  split_and!.
  - reflexivity.
  - vm_compute. reflexivity.
  - vm_compute. reflexivity.
  - intros (line & Hin & Hne). apply Hne. vm_compute in Hin.
    destruct Hin as [<-|[]]. vm_compute. reflexivity.
  - intros H. apply H. vm_compute. reflexivity.
Qed.

(** * Further properties of the trainer *)


(** ** Batches that stop an epoch *)
Section Stops.
Context {X : Externals}.
Variable cfg : Config.
Variable loader : phase → list Batch.


(** what the first lines of [inference_one_epoch] do before the loop *)
Lemma epoch_prologue epoch ph st :
  let total := Z.of_nat (List.length (loader ph)) in
  let loop := epoch_loop cfg epoch ph total 0 (loader ph) (None, PyInt 0)
                (cleared cfg st) in
  let pre := EvEpoch epoch ph
             :: (if distributed cfg
                 then [EvPrint ("epoch  " +:+ str_int epoch); EvSetEpoch ph epoch] else [])
             ++ [EvZeroGrad None; EvPrint ("iteration  " +:+ str_int total)] in
  ∀ e, result loop = inl e →
       inference_one_epoch cfg loader epoch ph st
       = MkOut (inl e) (final loop) (pre ++ events loop).
Proof.
  cbv zeta. intros e He. unfold inference_one_epoch, when, print, zero_grad.
  destruct (distributed cfg); run; rewrite He; reflexivity.
Qed.
End Stops.

Section StopsProperties.
Context {X : Externals}.
Variable cfg : Config.
Variable loader : phase → list Batch.


(** X2.  A training epoch whose first batch gets a [loss_info] without
    the key ["loss"] raises [KeyError] on it at line 168, before any
    gradient is produced: nothing is validated, stepped or logged.  The
    trainer is as it was but for what [zero_grad] did at line 196: the
    pending gradients are cleared when the optimizer is the one given;
    under [parallel] the optimizer is wrapped, the call clears nothing
    and the trainer is exactly as it was. *)
Theorem missing_loss_key_stops_training epoch st b rest :
  loader Train = b :: rest →
  ¬ In "loss" (keys (desc_loss (model_forward (parameters (model st)) true b))) →
  let o := inference_one_epoch cfg loader epoch Train st in
  result o = inl (KeyError "loss")
  ∧ final o = (if parallel cfg then st else set_grads grad_zero st)
  ∧ omap batch_at (events o) = [0]
  ∧ omap validated_at (events o) = []
  ∧ omap stepped_at (events o) = []
  ∧ omap log_line (events o) = [].
Proof.
  intros Hload Hn. cbv zeta.
  change (if parallel cfg then st else set_grads grad_zero st) with (cleared cfg st).
  assert (Hitem : dict_item "loss"
                    (desc_loss (model_forward (parameters (model st)) true b))
                  = inl (KeyError "loss")).
  { unfold dict_item. apply dict_get_None in Hn. by rewrite Hn. }
  assert (Hl : epoch_loop cfg epoch Train (Z.of_nat (List.length (loader Train))) 0
                 (loader Train) (None, PyInt 0) (cleared cfg st)
               = MkOut (inl (KeyError "loss")) (cleared cfg st) [EvBatch Train 0]).
  { rewrite Hload at 2. rewrite epoch_loop_cons.
    assert (Hone : one_iteration cfg epoch Train (Z.of_nat (List.length (loader Train))) 0 b
                     (None, PyInt 0) (cleared cfg st)
                   = MkOut (inl (KeyError "loss")) (cleared cfg st)
                       [EvBatch Train 0]).
    { unfold one_iteration, inference_one_batch.
      rewrite (bind_ok_run (emit (EvBatch Train 0)) _ _ tt eq_refl).
      cbn [is_train emit result final events].
      rewrite (bind_raise_run _ _ _ (KeyError "loss")).
      - rewrite (bind_ok_run get _ _ _ eq_refl). cbn [get result final events].
        rewrite ?cleared_model.
        rewrite (bind_raise_run _ _ _ (KeyError "loss")) by (by rewrite lift_run, Hitem).
        by rewrite lift_run.
      - rewrite (bind_ok_run get _ _ _ eq_refl). cbn [get result final events].
        rewrite ?cleared_model.
        rewrite (bind_raise_run _ _ _ (KeyError "loss")) by (by rewrite lift_run, Hitem).
        reflexivity. }
    rewrite (bind_raise_run _ _ _ (KeyError "loss")) by (by rewrite Hone).
    by rewrite Hone. }
  rewrite (epoch_prologue cfg loader epoch Train st (KeyError "loss")) by (by rewrite Hl).
  rewrite Hl. cbn [result final events].
  split_and!; try done; destruct (distributed cfg); reflexivity.
Qed.
End StopsProperties.


Lemma missing_loss_key_stops_training_witness :
  result (inference_one_epoch (X := Toy.externals) Toy.cfg Toy.loader_no_loss 1 Train Toy.fresh)
  = inl (KeyError "loss").
Proof.
  apply (missing_loss_key_stops_training (X := Toy.externals) Toy.cfg Toy.loader_no_loss
           1 Toy.fresh Toy.no_loss []).
  - reflexivity.
  - vm_compute. intros [H|[]]. discriminate H.
Defined.

(** ** A zero reporting period *)
Section ReportingPeriod.
Context {X : Externals}.
Variable cfg : Config.
Variable loader : phase → list Batch.



End ReportingPeriod.


(** ** Epochs that run to their end *)
Section Completion.
Context {X : Externals}.
Variable cfg : Config.
Variable loader : phase → list Batch.

Lemma due_abs k c : due (Z.abs k) c = due k c.
Proof.
  unfold due. destruct (Z.abs_spec k) as [[_ ->]|[_ ->]]; [done|].
  destruct (Z.eq_dec k 0) as [->|Hk]; [done|].
  apply eq_true_iff_eq. rewrite !Z.eqb_eq, !Z.mod_divide by lia.
  apply Z.divide_opp_l.
Qed.

Lemma due_step k n : 0 < k → 0 ≤ n →
  (n + 1) / k = n / k + (if due k n then 1 else 0).
Proof.
  intros Hk Hn. unfold due.
  pose proof (Z.div_mod n k ltac:(lia)) as E1.
  pose proof (Z.div_mod (n + 1) k ltac:(lia)) as E2.
  pose proof (Z.mod_pos_bound n k Hk) as B1.
  pose proof (Z.mod_pos_bound (n + 1) k Hk) as B2.
  destruct (Z.eqb_spec ((n + 1) mod k) 0) as [E|E]; nia.
Qed.

Lemma due_count k (n : nat) : 0 < k →
  Z.of_nat (List.length (List.filter (due k) (seqZ 0 (Z.of_nat n)))) = Z.of_nat n / k.
Proof.
  intros Hk. induction n as [|n IH].
  - by rewrite Z.div_0_l by lia.
  - replace (Z.of_nat (S n)) with (Z.of_nat n + 1) by lia.
    rewrite seqZ_app, List.filter_app, List.length_app by lia.
    rewrite Nat2Z.inj_add, IH. change (seqZ (0 + Z.of_nat n) 1) with [0 + Z.of_nat n].
    cbn [List.filter]. rewrite Z.add_0_l.
    rewrite (due_step k (Z.of_nat n)) by lia.
    by destruct (due k (Z.of_nat n)).
Qed.

(** X5.  A training epoch that runs to its end takes the step-or-skip
    decision [n / |iter_size|] times (floor), for its [n] batches: a
    negative [iter_size] counts like its absolute value, since Python's
    remainder of a negative divisor is 0 for the same dividends.  Every
    decision is taken within the first [|iter_size| * (n / |iter_size|)]
    batches; the gradients of the batches after those are never offered
    to the optimizer. *)
Theorem step_decision_count epoch st sm :
  result (inference_one_epoch cfg loader epoch Train st) = inr sm →
  let evs := events (inference_one_epoch cfg loader epoch Train st) in
  let n := Z.of_nat (List.length (loader Train)) in
  let k := Z.abs (iter_size cfg) in
  Z.of_nat (List.length (omap validated_at evs)) = n / k
  ∧ ∀ c, In c (omap validated_at evs) → 0 ≤ c ∧ c + 1 ≤ k * (n / k).
Proof.
  intros H. cbv zeta.
  destruct (inference_one_epoch_inr cfg loader epoch Train st sm H)
    as (succ & RR & Hl & _ & _ & Hev).
  destruct (epoch_loop_sites cfg epoch Train _ (loader Train) 0 _ _ _ Hl)
    as (Ea & _ & _ & _ & _ & _ & Hne & _).
  assert (Ha : omap validated_at (events (inference_one_epoch cfg loader epoch Train st))
               = List.filter (due (Z.abs (iter_size cfg)))
                   (seqZ 0 (Z.of_nat (List.length (loader Train))))).
  { rewrite Hev. cbn [is_train]. destruct (distributed cfg); cbn [app]; proj;
      rewrite Ea; unfold decision_sites; apply List.filter_ext; intros i; cbn [is_train];
      by rewrite andb_true_r, due_abs. }
  assert (Hk : 0 < Z.abs (iter_size cfg)).
  { assert (iter_size cfg ≠ 0); [|lia]. apply Hne. intros E. by rewrite E in Hl. }
  rewrite Ha. clear Ha Hev Ea Hl.
  split; [by apply due_count|].
  intros c Hin. apply List.filter_In in Hin as [Hin Hd].
  apply list_elem_of_In, elem_of_seqZ in Hin. unfold due in Hd.
  apply Z.eqb_eq in Hd.
  set (k := Z.abs (iter_size cfg)) in *. set (n := Z.of_nat _) in *.
  split; [lia|].
  apply Z.mod_divide in Hd as [q Hq]; [|lia].
  assert (q ≤ n / k) by (apply Z.div_le_lower_bound; nia).
  nia.
Qed.
End Completion.


Lemma step_decision_count_witness :
  Z.of_nat (List.length (omap validated_at
    (events (inference_one_epoch (X := Toy.externals) Toy.cfg Toy.loader 1 Train
               Toy.fresh)))) = 2.
Proof.
  destruct (step_decision_count (X := Toy.externals) Toy.cfg Toy.loader 1
              Toy.fresh Toy.train_meter) as (H & _).
  - vm_compute. reflexivity.
  - exact H.
Defined.

(** ** Runs that have nothing left to do *)
Section NothingToDo.
Context {X : Externals}.
Variable cfg : Config.
Variable loader : phase → list Batch.

(** X6.  When [start_epoch] has reached [max_epoch] (a trainer resumed
    from the checkpoint of epoch [max_epoch - 1] or later), [train]
    runs no epoch: it returns after its prints, takes no batch, steps
    neither optimizer nor scheduler, writes no file, and leaves the
    trainer as it was. *)
Theorem train_past_max_epoch st :
  max_epoch cfg ≤ start_epoch st →
  train cfg loader st
  = MkOut (inr tt) st
      (EvPrint ("start training...local_rank  " +:+ str_int (local_rank cfg))
       :: (if local_rank cfg =? 0 then [EvPrint "record process"] else [])
       ++ [EvPrint "Training finish!"]).
Proof.
  intros Hle. unfold train, print, when, py_range.
  assert (Hr : seqZ (start_epoch st) (max_epoch cfg - start_epoch st) = []).
  { unfold seqZ. replace (Z.to_nat (max_epoch cfg - start_epoch st)) with 0%nat by lia.
    reflexivity. }
  destruct (local_rank cfg =? 0); run; rewrite Hr; reflexivity.
Qed.
End NothingToDo.

Lemma train_past_max_epoch_witness :
  result (train (X := Toy.externals) Toy.cfg Toy.loader Toy.last_state) = inr tt
  ∧ final (train (X := Toy.externals) Toy.cfg Toy.loader Toy.last_state) = Toy.last_state.
Proof.
  rewrite (train_past_max_epoch (X := Toy.externals) Toy.cfg Toy.loader Toy.last_state).
  - split; reflexivity.
  - vm_compute. discriminate.
Defined.

(** ** Validation and test epochs *)
Section Evaluation.
Context {X : Externals}.
Variable cfg : Config.
Variable loader : phase → list Batch.

Lemma steady_eval_iteration epoch ph total c b vars :
  is_train ph = false →
  steady id (λ _, idle) (one_iteration cfg epoch ph total c b vars).
Proof.
  intros Ht. unfold one_iteration.
  apply steady_bind; [by apply steady_emit|intros _].
  apply steady_bind.
  { unfold inference_one_batch. apply steady_bind; [apply steady_get|intros s].
    rewrite Ht. apply steady_ret. }
  intros [li out]. apply steady_bind.
  { unfold run_optimisation. apply steady_bind; [apply steady_lift|intros r].
    rewrite Ht, andb_false_r. apply steady_ret. }
  intros _. apply steady_bind; [apply steady_lift|intros sm].
  rewrite Ht. apply steady_ret.
Qed.

Lemma steady_eval_loop epoch ph total bs :
  is_train ph = false →
  ∀ c vars, steady id (λ _, idle) (epoch_loop cfg epoch ph total c bs vars).
Proof.
  intros Ht. induction bs as [|b bs IH]; intros c vars; [apply steady_ret|].
  rewrite epoch_loop_cons. apply steady_bind; [by apply steady_eval_iteration|].
  intros vars'. apply IH.
Qed.

(** the lines of [inference_one_epoch] from the batch loop on *)
Lemma epoch_split epoch ph st :
  let total := Z.of_nat (List.length (loader ph)) in
  let rest : M StatsMeter :=
    vars ← epoch_loop cfg epoch ph total 0 (loader ph) (None, PyInt 0);
    when (negb (is_train ph))
      (report_recall cfg epoch ph total (fst vars) (snd vars));;
    sm ← lift (items (fst vars));
    logger_write (phase_name ph +:+ " Epoch: " +:+ str_int epoch
                  +:+ averages_text sm +:+ nl);;
    mret sm in
  let o := rest (cleared cfg st) in
  inference_one_epoch cfg loader epoch ph st
  = MkOut (result o) (final o)
      (EvEpoch epoch ph
       :: (if distributed cfg
           then [EvPrint ("epoch  " +:+ str_int epoch); EvSetEpoch ph epoch] else [])
       ++ [EvZeroGrad None; EvPrint ("iteration  " +:+ str_int total)]
       ++ events o).
Proof.
  cbv zeta. unfold inference_one_epoch, when, print, zero_grad.
  destruct (distributed cfg); reflexivity.
Qed.

Lemma eval_epoch_final epoch ph st :
  is_train ph = false →
  final (inference_one_epoch cfg loader epoch ph st) = cleared cfg st.
Proof.
  intros Ht. rewrite epoch_split. cbv zeta. cbn [final].
  match goal with |- final (?m (cleared cfg st)) = _ => set (rest := m) end.
  assert (Hs : steady id (λ _, idle) rest).
  { subst rest. apply steady_bind; [by apply steady_eval_loop|intros [osm succ]].
    apply steady_bind.
    { apply steady_when. unfold report_recall. repeat steady_step. }
    intros _. repeat steady_step. }
  by destruct (Hs (cleared cfg st)) as [Hf _].
Qed.

(** X7.  A validation or test epoch, however it ends, leaves the
    trainer as it found it but for what [zero_grad] does at line 196:
    network, optimizer, scheduler, counters and files are untouched, and
    the pending gradients are cleared when the optimizer is the one
    given; under [parallel] the optimizer is wrapped, the call clears
    nothing and the trainer is exactly as it was.  The epoch takes no
    step decision, applies no step, and calls [zero_grad] that one time
    only. *)
Theorem evaluation_epoch_frame epoch ph st :
  is_train ph = false →
  let o := inference_one_epoch cfg loader epoch ph st in
  final o = (if parallel cfg then st else set_grads grad_zero st)
  ∧ omap validated_at (events o) = []
  ∧ omap stepped_at (events o) = []
  ∧ omap zeroed_at (events o) = [None].
Proof.
  intros Ht. cbv zeta.
  change (if parallel cfg then st else set_grads grad_zero st) with (cleared cfg st).
  rewrite epoch_split. cbv zeta.
  match goal with |- context [final (?m (cleared cfg st))] => set (rest := m) end.
  assert (Hs : steady id (λ _, idle) rest).
  { subst rest. apply steady_bind; [by apply steady_eval_loop|intros [osm succ]].
    apply steady_bind.
    { apply steady_when. unfold report_recall. repeat steady_step. }
    intros _. repeat steady_step. }
  destruct (Hs (cleared cfg st)) as [Hf He]. cbn [id] in Hf.
  cbn [final events]. split; [done|].
  assert (Hv : omap validated_at (events (rest (cleared cfg st))) = []).
  { apply Forall_omap_nil. eapply Forall_impl; [exact He|]. by intros e (? & ? & ?). }
  assert (Hp : omap stepped_at (events (rest (cleared cfg st))) = []).
  { apply Forall_omap_nil. eapply Forall_impl; [exact He|]. by intros e (? & ? & ?). }
  assert (Hz : omap zeroed_at (events (rest (cleared cfg st))) = []).
  { apply Forall_omap_nil. eapply Forall_impl; [exact He|]. by intros e (? & ? & ?). }
  split_and!.
  - destruct (distributed cfg); cbn [app]; proj; exact Hv.
  - destruct (distributed cfg); cbn [app]; proj; exact Hp.
  - destruct (distributed cfg); cbn [app]; proj;
      change (omap zeroed_at (EvZeroGrad None :: ?l)) with (None :: omap zeroed_at l);
      proj; by rewrite Hz.
Qed.
End Evaluation.

Lemma evaluation_epoch_frame_witness :
  model (final (inference_one_epoch (X := Toy.externals) Toy.cfg Toy.loader 1 Val Toy.fresh))
  = model Toy.fresh.
Proof.
  destruct (evaluation_epoch_frame (X := Toy.externals) Toy.cfg Toy.loader 1 Val Toy.fresh)
    as (H & _).
  - reflexivity.
  - rewrite H. reflexivity.
Defined.

(** ** What [train] never updates *)
Section KeptByTrain.
Context {X : Externals}.
Variable cfg : Config.
Variable loader : phase → list Batch.

Lemma steady_snapshot epoch name :
  steady settings records_best (_snapshot cfg epoch name).
Proof.
  unfold _snapshot. apply steady_get_bind. intros s.
  apply steady_bind.
  { destruct (distributed cfg); [apply steady_ret|].
    destruct (parallel cfg); [|apply steady_ret].
    apply steady_bind; [apply steady_lift|intros inner; apply steady_ret]. }
  intros msd. unfold logger_write, torch_save.
  apply steady_bind; [by apply steady_emit|intros _].
  apply steady_bind; [by apply steady_emit|intros _].
  apply steady_bind.
  { apply steady_bind; [|intros _; by apply steady_modify].
    apply steady_emit. by intros b ->. }
  intros _. apply steady_bind; [|intros _; by apply steady_modify].
  apply steady_emit. by intros b ->.
Qed.

Lemma steady_train : steady settings records_best (train cfg loader).
Proof.
  assert (He : ∀ epoch ph,
            steady settings records_best (inference_one_epoch cfg loader epoch ph)).
  { intros epoch ph. apply steady_epoch; try done. by intros b []. }
  unfold train, print.
  apply steady_bind; [by apply steady_emit|intros _].
  apply steady_bind; [by apply steady_when, steady_emit|intros _].
  apply steady_bind; [apply steady_get|intros s].
  apply steady_bind; [|intros _; by apply steady_emit].
  apply steady_for_each. intros epoch. unfold train_epoch.
  apply steady_bind; [apply He|intros sm].
  apply steady_bind.
  { unfold sched_step. apply steady_bind; [by apply steady_emit|intros _].
    by apply steady_modify. }
  intros _. apply steady_bind; [apply steady_lift|intros meter].
  apply steady_bind; [apply steady_when, steady_snapshot|intros _].
  apply steady_bind; [|intros _; apply steady_ret].
  apply steady_when. apply steady_bind; [apply He|intros _; apply steady_ret].
Qed.

(** X8.  [train] never records an improvement.  However the run ends,
    [best_loss] and [best_recall] are what they were when it started
    (1e5 and -1e5 unless a checkpoint was loaded), and so are
    [start_epoch] and [verbose_freq]; every checkpoint the run writes
    carries those same [best_loss] and [best_recall]. *)
Theorem train_keeps_best st :
  let o := train cfg loader st in
  start_epoch (final o) = start_epoch st
  ∧ verbose_freq (final o) = verbose_freq st
  ∧ best_loss (final o) = best_loss st
  ∧ best_recall (final o) = best_recall st
  ∧ ∀ path ck, In (path, ck) (omap saved (events o)) →
               ck_best_loss ck = best_loss st ∧ ck_best_recall ck = best_recall st.
Proof.
  cbv zeta. destruct (steady_train st) as [Hf He]. unfold settings in Hf.
  injection Hf as H1 H2 H3 H4. split_and!; try done.
  intros path ck Hin. apply list_elem_of_In, list_elem_of_omap in Hin as (e & Hin & Hs).
  rewrite Forall_forall in He. specialize (He e Hin).
  destruct e; try done. cbn in Hs. injection Hs as -> ->. exact He.
Qed.

(** X9.  On a rank other than 0, [train] writes no file, however the
    run ends: it calls [torch.save] nowhere and the files on disk are
    those it found. *)
Theorem other_ranks_write_nothing st :
  local_rank cfg ≠ 0 →
  let o := train cfg loader st in
  omap saved (events o) = [] ∧ fs (final o) = fs st.
Proof.
  intros Hr. cbv zeta.
  assert (He : ∀ epoch ph,
            steady fs (λ _ e, saved e = None) (inference_one_epoch cfg loader epoch ph)).
  { intros epoch ph. apply steady_epoch; try done. by intros b []. }
  assert (Hs : steady fs (λ _ e, saved e = None) (train cfg loader)).
  { unfold train, print. apply Z.eqb_neq in Hr.
    apply steady_bind; [by apply steady_emit|intros _].
    apply steady_bind; [by apply steady_when, steady_emit|intros _].
    apply steady_bind; [apply steady_get|intros s].
    apply steady_bind; [|intros _; by apply steady_emit].
    apply steady_for_each. intros epoch. unfold train_epoch.
    apply steady_bind; [apply He|intros sm].
    apply steady_bind.
    { unfold sched_step. apply steady_bind; [by apply steady_emit|intros _].
      by apply steady_modify. }
    intros _. apply steady_bind; [apply steady_lift|intros meter].
    rewrite Hr. unfold when at 1.
    apply steady_bind; [apply (steady_ret fs _ tt)|intros _].
    apply steady_bind; [|intros _; apply steady_ret].
    apply steady_when. apply steady_bind; [apply He|intros _; apply steady_ret]. }
  destruct (Hs st) as [Hf Hev]. split; [|done]. by apply Forall_omap_nil.
Qed.
End KeptByTrain.

Lemma other_ranks_write_nothing_witness :
  omap saved (events (train (X := Toy.externals) Toy.rank1_cfg Toy.loader Toy.fresh)) = [].
Proof.
  destruct (other_ranks_write_nothing (X := Toy.externals) Toy.rank1_cfg Toy.loader
              Toy.fresh) as (H & _).
  - discriminate.
  - exact H.
Defined.

(** ** Construction *)
Section ConstructionEdges.
Context {X : Externals}.
Variable cfg : Config.

(** X10.  With [args.batch_size = 0] the constructor raises
    [ZeroDivisionError] at line 68, before anything is logged and
    before any checkpoint is read; an [exp_dir] that contains "overfit"
    does not prevent it, since line 69 overrides the quotient only after
    it has been computed. *)
Theorem init_zero_batch_size args_model args_optimizer args_scheduler disk :
  batch_size cfg = 0 →
  __init__ cfg args_model args_optimizer args_scheduler disk
  = MkOut (inl ZeroDivisionError)
      (fresh_state cfg args_model args_optimizer args_scheduler disk) [].
Proof.
  intros Hb. unfold __init__, init_body, py_floordiv. rewrite Hb. reflexivity.
Qed.

(** X11.  A trainer whose construction returns has [verbose_freq >= 1]
    as soon as the run is an overfit run, or [args.verbose_freq] is not
    negative and [args.batch_size] is positive; so the remainder of line
    246 has a non-zero divisor, whatever checkpoint was loaded. *)
Theorem init_verbose_freq_positive args_model args_optimizer args_scheduler disk :
  let o := __init__ cfg args_model args_optimizer args_scheduler disk in
  result o = inr tt →
  overfit cfg = true ∨ (0 ≤ args_verbose_freq cfg ∧ 0 < batch_size cfg) →
  1 ≤ verbose_freq (final o).
Proof.
  cbv zeta. intros H Hc.
  destruct (init_verbose_freq cfg args_model args_optimizer args_scheduler disk H)
    as [Hb ->].
  destruct (overfit cfg); [lia|].
  destruct Hc as [|[Hv Hp]]; [done|].
  pose proof (Z.div_pos (args_verbose_freq cfg) (batch_size cfg) Hv Hp). lia.
Qed.
End ConstructionEdges.

Lemma init_zero_batch_size_witness :
  overfit Toy.overfit_cfg = true
  ∧ result (__init__ (X := Toy.externals) Toy.overfit_cfg Toy.net 0 0 ∅)
    = inl ZeroDivisionError.
Proof.
  split; [reflexivity|].
  rewrite (init_zero_batch_size (X := Toy.externals) Toy.overfit_cfg Toy.net 0 0 ∅);
    reflexivity.
Defined.

Lemma init_verbose_freq_positive_witness :
  1 ≤ verbose_freq (final (__init__ (X := Toy.externals) Toy.cfg Toy.net 0 0 ∅)).
Proof.
  apply (init_verbose_freq_positive (X := Toy.externals) Toy.cfg Toy.net 0 0 ∅).
  - reflexivity.
  - right. split; [discriminate|reflexivity].
Defined.

(** ** Checkpoints that do not fit, and successive saves *)
Lemma str_length_app (a b : string) :
  String.length (a +:+ b) = (String.length a + String.length b)%nat.
Proof. induction a as [|c a IH]; simpl; [done|]. by rewrite IH. Qed.

Lemma append_inj_l (a b s : string) : a +:+ s = b +:+ s → a = b.
Proof.
  revert b. induction a as [|c a IH]; intros [|c' b] H; simpl in H.
  - done.
  - exfalso. apply (f_equal String.length) in H.
    rewrite !str_length_app in H. simpl in H. lia.
  - exfalso. apply (f_equal String.length) in H.
    rewrite !str_length_app in H. simpl in H. lia.
  - injection H as -> H. f_equal. by apply IH.
Qed.

Lemma shortest_key (l : list string) :
  l ≠ [] →
  ∃ k, In k l ∧ ∀ k', In k' l → (String.length k ≤ String.length k')%nat.
Proof.
  induction l as [|a l IH]; [done|]. intros _.
  destruct l as [|b l].
  - exists a. split; [by left|]. by intros k' [<-|[]].
  - destruct IH as (k & Hin & Hmin); [done|].
    destruct (le_lt_dec (String.length a) (String.length k)) as [Hle|Hlt].
    + exists a. split; [by left|]. intros k' [<-|Hk']; [done|].
      specialize (Hmin k' Hk'). lia.
    + exists k. split; [by right|]. intros k' [<-|Hk']; [lia|]. by apply Hmin.
Qed.

Section Rejected.
Context {X : Externals}.

Lemma load_state_dict_missing (m : Model) (d : StateDict) k :
  In k (keys (state_dict m)) → ¬ In k (keys d) →
  snd (load_state_dict m d) = Some (RuntimeError "Error(s) in loading state_dict").
Proof.
  intros Hin Hn. unfold load_state_dict. cbn [snd].
  destruct (List.forallb (λ k, has_key k d) (keys (state_dict m))) eqn:E; [|done].
  exfalso. apply Hn. rewrite forallb_forall in E. by apply has_key_in, E.
Qed.

Lemma load_state_dict_unexpected (m : Model) (d : StateDict) k :
  In k (keys d) → ¬ In k (keys (state_dict m)) →
  snd (load_state_dict m d) = Some (RuntimeError "Error(s) in loading state_dict").
Proof.
  intros Hin Hn. unfold load_state_dict. cbn [snd].
  destruct (List.forallb (λ k, List.existsb (String.eqb k) (keys (state_dict m))) (keys d))
    eqn:E; [|by rewrite andb_false_r].
  exfalso. apply Hn. rewrite forallb_forall in E. specialize (E k Hin).
  apply existsb_exists in E as (k' & Hk' & Heq). apply String.eqb_eq in Heq. by subst k'.
Qed.

Variable cfg : Config.

(** a load that raises has already copied the entries it could *)
Lemma load_pretrain_rejected resume st state e :
  fs st !! path_join (save_dir cfg) resume = Some state →
  let model_dict :=
    if distributed cfg then ordered_dict (List.map add_prefix (ck_state_dict state))
    else ck_state_dict state in
  snd (load_state_dict (model st) model_dict) = Some e →
  _load_pretrain cfg resume st
  = MkOut (inl e)
      (set_model (load_values (model st) (λ k, dict_get k model_dict)) st)
      [EvPrint ("loading pretrained " +:+ path_join (save_dir cfg) resume)].
Proof.
  cbv zeta. unfold _load_pretrain, load_state_dict. run. intros -> Hm. run.
  by rewrite Hm.
Qed.

(** X12.  On a file that does not fit, [_load_pretrain] raises but is
    not all or nothing.  When the names in the file (prefixed under
    [distributed]) and the parameter names of the network differ in
    either direction, the call raises the [RuntimeError] of the strict
    [load_state_dict] at line 132, and that load has by then copied into
    the network every entry of the file whose name the network has; the
    parameters the file does not name keep their values.  Nothing else
    of the trainer changes: [start_epoch], optimizer, scheduler,
    [best_loss] and [best_recall] are not restored, and nothing is
    written to the log. *)
Theorem mismatched_checkpoint_rejected resume st state k :
  fs st !! path_join (save_dir cfg) resume = Some state →
  let model_dict :=
    if distributed cfg then ordered_dict (List.map add_prefix (ck_state_dict state))
    else ck_state_dict state in
  (In k (keys (state_dict (model st))) ∧ ¬ In k (keys model_dict))
  ∨ (In k (keys model_dict) ∧ ¬ In k (keys (state_dict (model st)))) →
  _load_pretrain cfg resume st
  = MkOut (inl (RuntimeError "Error(s) in loading state_dict"))
      (set_model (load_values (model st) (λ k, dict_get k model_dict)) st)
      [EvPrint ("loading pretrained " +:+ path_join (save_dir cfg) resume)].
Proof.
  intros Hf model_dict Hk. apply (load_pretrain_rejected resume st state _ Hf).
  fold model_dict. destruct Hk as [[Hin Hn]|[Hin Hn]].
  - by eapply load_state_dict_missing.
  - by eapply load_state_dict_unexpected.
Qed.
End Rejected.

Section BothWrappers.
Context {X : Externals}.

(** X13.  With [distributed] and [parallel] both set, a checkpoint
    written by [_snapshot] cannot be resumed from.  The network is
    wrapped twice, so its names carry the prefix twice and line 100 cuts
    one; at load time the network is wrapped once and line 131 adds a
    prefix to names that still carry one.  For a network with at least
    one parameter the save returns and the construction of a trainer
    that resumes from the file raises the [RuntimeError] of
    [load_state_dict]. *)
Theorem double_wrapper_checkpoint_rejected (cfg cfg' : Config) (st : State) epoch name
    (sd args_model : StateDict) args_optimizer args_scheduler :
  distributed cfg = true →
  parallel cfg = true →
  model st = built cfg sd →
  sd ≠ [] →
  NoDup (keys sd) →
  keys args_model = keys sd →
  save_dir cfg' = save_dir cfg →
  distributed cfg' = true →
  batch_size cfg' ≠ 0 →
  pretrain cfg' = "snapshot.pth" →
  let saved := _snapshot cfg epoch name st in
  let o := __init__ cfg' args_model args_optimizer args_scheduler (fs (final saved)) in
  result saved = inr tt
  ∧ result o = inl (RuntimeError "Error(s) in loading state_dict").
Proof.
  intros Hd Hp Hm Hne Hnd Hk Hdir Hd' Hb Hfile. cbv zeta.
  assert (Hok : result (_snapshot cfg epoch name st) = inr tt).
  { apply snapshot_ok. intros Ed. by rewrite Hd in Ed. }
  split; [done|].
  destruct (snapshot_inr cfg epoch name st Hok) as (sd' & Hsd & _ & Hfin).
  cbv zeta in Hfin. rewrite Hd, Hm in Hsd. unfold built in Hsd. rewrite Hd, Hp in Hsd.
  cbn [state_dict] in Hsd.
  rewrite strip_add_prefix, ordered_dict_nodup in Hsd by (by apply NoDup_add_prefix).
  subst sd'.
  set (state := {| ck_epoch := epoch; ck_state_dict := List.map add_prefix sd;
                   ck_optimizer := optimizer st; ck_scheduler := scheduler st;
                   ck_best_loss := best_loss st; ck_best_recall := best_recall st |}) in *.
  rewrite Hfin. cbn [fs set_fs].
  set (disk := <[archive_path cfg epoch name := state]>
                 (<[snapshot_path cfg := state]> (fs st))).
  destruct (init_run cfg' args_model args_optimizer args_scheduler disk Hb)
    as (Hr & _ & _). cbv zeta in Hr. rewrite Hr. clear Hr.
  set (st1 := set_verbose_freq _ (fresh_state cfg' args_model args_optimizer
                                    args_scheduler disk)).
  rewrite Hfile. cbn [negb String.eqb when].
  assert (Hfound : fs st1 !! path_join (save_dir cfg') "snapshot.pth" = Some state).
  { subst st1 disk. cbn [fs set_verbose_freq fresh_state]. rewrite Hdir.
    fold (snapshot_path cfg). rewrite lookup_insert. case_decide; [done|].
    by rewrite lookup_insert_eq. }
  destruct (shortest_key (keys sd)) as (k0 & Hin0 & Hmin).
  { by destruct sd. }
  rewrite (load_pretrain_rejected cfg' "snapshot.pth" st1 state
             (RuntimeError "Error(s) in loading state_dict") Hfound); [done|].
  rewrite Hd'. apply (load_state_dict_missing _ _ ("module." +:+ k0)).
  - subst st1. cbn [model set_verbose_freq fresh_state]. rewrite Hd'. cbn [state_dict].
    rewrite keys_add_prefix, Hk. apply in_map_iff. by exists k0.
  - cbn [ck_state_dict state].
    rewrite ordered_dict_nodup by (by apply NoDup_add_prefix, NoDup_add_prefix).
    rewrite !keys_add_prefix. intros Hin. apply in_map_iff in Hin as (k1 & Heq & Hin).
    apply append_inj_r in Heq. subst k0.
    apply in_map_iff in Hin as (k2 & <- & Hin).
    specialize (Hmin k2 Hin). rewrite str_length_app in Hmin. simpl in Hmin. lia.
Qed.
End BothWrappers.

Section Successive.
Context {X : Externals}.
Variable cfg : Config.

(** the label that names the archival file *)
Lemma archive_path_inj e1 n1 e2 n2 :
  archive_path cfg e1 n1 = archive_path cfg e2 n2 →
  match n1 with None => str_int e1 | Some n => n end
  = match n2 with None => str_int e2 | Some n => n end.
Proof.
  unfold archive_path. intros H.
  apply path_join_relative in H; [|reflexivity|reflexivity].
  apply append_inj_r in H. by apply append_inj_l in H.
Qed.

(** X14.  Of two saves with different labels, with no other write to
    the disk in between, [snapshot.pth] ends up holding the record of
    the later one, which is also in the later archival file, while the
    archival file of the earlier save is still there with the earlier
    record: [snapshot.pth] is overwritten, the labelled files
    accumulate. *)
Theorem later_save_overwrites_snapshot e1 n1 e2 n2 st1 st2 :
  match n1 with None => str_int e1 | Some n => n end
  ≠ match n2 with None => str_int e2 | Some n => n end →
  result (_snapshot cfg e1 n1 st1) = inr tt →
  fs st2 = fs (final (_snapshot cfg e1 n1 st1)) →
  result (_snapshot cfg e2 n2 st2) = inr tt →
  let disk := fs (final (_snapshot cfg e2 n2 st2)) in
  ∃ r1 r2,
    disk !! archive_path cfg e1 n1 = Some r1
    ∧ disk !! archive_path cfg e2 n2 = Some r2
    ∧ disk !! snapshot_path cfg = Some r2
    ∧ ck_epoch r1 = e1 ∧ ck_optimizer r1 = optimizer st1
    ∧ ck_epoch r2 = e2 ∧ ck_optimizer r2 = optimizer st2.
Proof.
  intros Hl H1 Hfs H2. cbv zeta.
  destruct (snapshot_inr cfg e1 n1 st1 H1) as (sd1 & _ & _ & Hf1).
  destruct (snapshot_inr cfg e2 n2 st2 H2) as (sd2 & _ & _ & Hf2).
  cbv zeta in Hf1, Hf2. rewrite Hf2. cbn [fs set_fs]. rewrite Hfs, Hf1. cbn [fs set_fs].
  assert (Ha : archive_path cfg e2 n2 ≠ archive_path cfg e1 n1).
  { intros E. apply Hl. symmetry. by apply archive_path_inj. }
  pose proof (snapshot_archive_distinct cfg e1 n1) as Hs1.
  pose proof (snapshot_archive_distinct cfg e2 n2) as Hs2.
  eexists _, _. split_and!.
  - rewrite lookup_insert_ne by done. rewrite lookup_insert_ne by done.
    by rewrite lookup_insert_eq.
  - by rewrite lookup_insert_eq.
  - rewrite lookup_insert_ne by done. by rewrite lookup_insert_eq.
  - done.
  - done.
  - done.
  - done.
Qed.
End Successive.

Lemma mismatched_checkpoint_rejected_witness :
  model Toy.stale_state = Base Toy.net
  ∧ result (_load_pretrain (X := Toy.externals) Toy.cfg "stale.pth" Toy.stale_state)
    = inl (RuntimeError "Error(s) in loading state_dict")
  ∧ model (final (_load_pretrain (X := Toy.externals) Toy.cfg "stale.pth" Toy.stale_state))
    = Base Toy.patched_net
  ∧ start_epoch (final (_load_pretrain (X := Toy.externals) Toy.cfg "stale.pth"
                          Toy.stale_state)) = 1.
Proof.
  rewrite (mismatched_checkpoint_rejected (X := Toy.externals) Toy.cfg "stale.pth"
             Toy.stale_state Toy.stale_ckpt "b").
  - split_and!; reflexivity.
  - vm_compute. reflexivity.
  - left. split.
    + vm_compute. right. left. reflexivity.
    + vm_compute. intros [H|[]]. discriminate H.
Defined.

Lemma double_wrapper_checkpoint_rejected_witness :
  result (__init__ (X := Toy.externals) Toy.both_resume_cfg Toy.net 0 0
            (fs (final (_snapshot (X := Toy.externals) Toy.both_cfg 1 None Toy.both_state))))
  = inl (RuntimeError "Error(s) in loading state_dict").
Proof.
  apply (double_wrapper_checkpoint_rejected (X := Toy.externals) Toy.both_cfg
           Toy.both_resume_cfg Toy.both_state 1 None Toy.net Toy.net 0 0).
  - reflexivity.
  - reflexivity.
  - reflexivity.
  - discriminate.
  - apply (bool_decide_unpack _). vm_compute. reflexivity.
  - reflexivity.
  - reflexivity.
  - reflexivity.
  - discriminate.
  - reflexivity.
Defined.

Lemma later_save_overwrites_snapshot_witness :
  ∃ r1 r2,
    fs (final (_snapshot (X := Toy.externals) Toy.cfg 2 None
                 (final (_snapshot (X := Toy.externals) Toy.cfg 1 None Toy.fresh))))
      !! archive_path Toy.cfg 1 None = Some r1
    ∧ fs (final (_snapshot (X := Toy.externals) Toy.cfg 2 None
                 (final (_snapshot (X := Toy.externals) Toy.cfg 1 None Toy.fresh))))
      !! snapshot_path Toy.cfg = Some r2
    ∧ ck_epoch r1 = 1 ∧ ck_epoch r2 = 2.
Proof.
  destruct (later_save_overwrites_snapshot (X := Toy.externals) Toy.cfg 1 None 2 None
              Toy.fresh (final (_snapshot (X := Toy.externals) Toy.cfg 1 None Toy.fresh)))
    as (r1 & r2 & H1 & _ & H2 & H3 & _ & H4 & _).
  - vm_compute. discriminate.
  - reflexivity.
  - reflexivity.
  - reflexivity.
  - exists r1, r2. by split_and!.
Defined.

(** ** Epochs shorter than the accumulation period *)
Lemma filter_none {A} (f : A → bool) (l : list A) :
  (∀ x, In x l → f x = false) → List.filter f l = [].
Proof.
  induction l as [|a l IH]; simpl; intros H; [done|].
  rewrite H by (by left). apply IH. intros x Hx. apply H. by right.
Qed.

Section Accumulation.
Context {X : Externals}.
Variable cfg : Config.
Variable loader : phase → list Batch.

Lemma epoch_loop_accumulates epoch total bs : ∀ c vars st vars',
  (∀ i, c ≤ i < c + Z.of_nat (List.length bs) → due (iter_size cfg) i = false) →
  result (epoch_loop cfg epoch Train total c bs vars st) = inr vars' →
  let o := epoch_loop cfg epoch Train total c bs vars st in
  model (final o) = model st
  ∧ optimizer (final o) = optimizer st
  ∧ grads (final o)
    = List.fold_left (λ g b, loss_backward (parameters (model st)) b g) bs (grads st).
Proof.
  induction bs as [|b bs IH]; intros c vars st vars' Hnd H; cbv zeta.
  - by split_and!.
  - rewrite epoch_loop_cons in *. inv_bind H vars1 H1.
    destruct (one_iteration_accumulates cfg _ _ _ _ _ _ _ H1) as (Hm & Ho & Hg).
    { apply Hnd. cbn [List.length]. lia. }
    destruct (IH (c + 1) vars1 (final (one_iteration cfg epoch Train total c b vars st))
                vars') as (Im & Io & Ig); [|done|].
    { intros i Hi. apply Hnd. cbn [List.length]. lia. }
    rewrite Im, Io, Ig, Hm, Ho, Hg. by split_and!.
Qed.

(** X15.  A training epoch with fewer batches than [iter_size] trains
    nothing.  If it runs to its end, it has taken no step decision and
    called [zero_grad] only before the loop; the network and the
    optimizer are as they were; and what the backward passes of all its
    batches have added is left pending in the gradients.  They were
    added to the cleared gradients when the optimizer is the one given;
    under [parallel] the optimizer is wrapped, line 196 clears nothing,
    and they were added to the gradients pending at entry. *)
Theorem short_epoch_trains_nothing epoch st sm :
  Z.of_nat (List.length (loader Train)) < iter_size cfg →
  result (inference_one_epoch cfg loader epoch Train st) = inr sm →
  let o := inference_one_epoch cfg loader epoch Train st in
  omap validated_at (events o) = []
  ∧ omap stepped_at (events o) = []
  ∧ omap zeroed_at (events o) = [None]
  ∧ model (final o) = model st
  ∧ optimizer (final o) = optimizer st
  ∧ grads (final o)
    = List.fold_left (λ g b, loss_backward (parameters (model st)) b g)
        (loader Train) (if parallel cfg then grads st else grad_zero).
Proof.
  intros Hlt H. cbv zeta.
  destruct (inference_one_epoch_inr cfg loader epoch Train st sm H)
    as (succ & RR & Hl & _ & Hfin & Hev).
  assert (Hnd : ∀ i, 0 ≤ i < 0 + Z.of_nat (List.length (loader Train)) →
                     due (iter_size cfg) i = false).
  { intros i Hi. unfold due. apply Z.eqb_neq. rewrite Z.mod_small; lia. }
  destruct (epoch_loop_accumulates epoch _ _ 0 _ _ _ Hnd Hl) as (Hm & Ho & Hg).
  destruct (epoch_loop_sites cfg epoch Train _ (loader Train) 0 _ _ _ Hl)
    as (Ea & Eb & _ & _ & _ & _ & _ & Es).
  assert (Hsites : decision_sites cfg Train 0 (List.length (loader Train)) = []).
  { unfold decision_sites. apply filter_none. intros i Hin.
    apply list_elem_of_In, elem_of_seqZ in Hin. by rewrite Hnd by lia. }
  rewrite Hsites in *.
  assert (Hstep : omap stepped_at
                    (events (epoch_loop cfg epoch Train
                               (Z.of_nat (List.length (loader Train))) 0 (loader Train)
                               (None, PyInt 0) (cleared cfg st))) = []).
  { destruct (omap stepped_at _) as [|i l]; [done|]. destruct (Es i). by left. }
  rewrite Hfin, Hm, Ho, Hg, cleared_model, cleared_optimizer, cleared_grads.
  split_and!; try done.
  - rewrite Hev. cbn [is_train]. destruct (distributed cfg); cbn [app]; proj; exact Ea.
  - rewrite Hev. cbn [is_train]. destruct (distributed cfg); cbn [app]; proj; exact Hstep.
  - rewrite Hev. cbn [is_train]. destruct (distributed cfg); cbn [app]; proj;
      change (omap zeroed_at (EvZeroGrad None :: ?l)) with (None :: omap zeroed_at l);
      proj; by rewrite Eb.
Qed.
End Accumulation.

Lemma short_epoch_trains_nothing_witness :
  model (final (inference_one_epoch (X := Toy.externals) Toy.long_period_cfg Toy.loader 1
                  Train Toy.fresh))
  = model Toy.fresh
  ∧ grads (final (inference_one_epoch (X := Toy.externals) Toy.long_period_cfg Toy.loader 1
                    Train Toy.fresh)) = 3.
Proof.
  destruct (short_epoch_trains_nothing (X := Toy.externals) Toy.long_period_cfg Toy.loader 1
              Toy.fresh Toy.train_meter) as (_ & _ & _ & Hm & _ & Hg).
  - reflexivity.
  - vm_compute. reflexivity.
  - split; [exact Hm|]. rewrite Hg. reflexivity.
Defined.

(** ** The range of the recall *)
Lemma quotient_in_unit (s d : Z) :
  0 < d → 0 ≤ s ≤ d →
  (0 <= inject_Z s / inject_Z d)%Q ∧ (inject_Z s / inject_Z d <= 1)%Q
  ∧ (s < d → (inject_Z s / inject_Z d < 1)%Q).
Proof.
  intros Hd Hs. destruct d as [|p|p]; try lia.
  unfold Qle, Qlt, Qdiv, Qmult, Qinv, inject_Z. simpl. split_and!; lia.
Qed.

Section RecallRange.
Context {X : Externals}.
Variable cfg : Config.
Variable loader : phase → list Batch.

Lemma successes_bounds sd (bs : list Batch) (k : Z) :
  0 ≤ k →
  (∀ b, In b bs → Z.of_nat (List.length (get_recall b (model_forward sd false b))) ≤ k) →
  0 ≤ successes sd bs ≤ Z.of_nat (List.length bs) * k
  ∧ ((∃ b, In b bs
           ∧ Z.of_nat (List.length (get_recall b (model_forward sd false b))) < k) →
     successes sd bs < Z.of_nat (List.length bs) * k).
Proof.
  intros Hk. unfold successes. induction bs as [|b bs IH]; intros Hb.
  - simpl. split; [lia|]. by intros (b & [] & _).
  - destruct IH as [IH1 IH2]; [intros b' Hb'; apply Hb; by right|].
    cbn [List.map List.fold_right List.length].
    pose proof (Hb b (or_introl eq_refl)) as Hlen.
    assert (Hs : 0 ≤ np_sum_below (get_recall b (model_forward sd false b))
                 ≤ Z.of_nat (List.length (get_recall b (model_forward sd false b)))).
    { unfold np_sum_below.
      pose proof (List.filter_length_le rmse_below
                    (get_recall b (model_forward sd false b))). lia. }
    split; [lia|].
    intros (b' & [<-|Hin] & Hlt); [lia|].
    assert (List.fold_right Z.add 0
              (List.map (λ b0, np_sum_below (get_recall b0 (model_forward sd false b0))) bs)
            < Z.of_nat (List.length bs) * k) by (apply IH2; by exists b').
    lia.
Qed.

(** X16.  The recall a validation or test epoch logs lies between 0
    and 1 when [batch_size] is positive and no batch yields more errors
    than [batch_size].  It is computed against [batch_size] samples for
    every batch: as soon as one batch yields fewer (an incomplete last
    batch), the recall is below 1 even when every sample succeeds. *)
Theorem recall_in_unit_interval epoch ph st sm :
  is_train ph = false →
  0 < batch_size cfg →
  (∀ b, In b (loader ph) →
        Z.of_nat (List.length (get_recall b (model_forward (parameters (model st))
                                               false b)))
        ≤ batch_size cfg) →
  result (inference_one_epoch cfg loader epoch ph st) = inr sm →
  ∃ q,
    omap log_line (events (inference_one_epoch cfg loader epoch ph st))
    = [recall_line ph epoch (Finite q); summary_line ph epoch sm]
    ∧ (0 <= q)%Q ∧ (q <= 1)%Q
    ∧ ((∃ b, In b (loader ph)
             ∧ Z.of_nat (List.length (get_recall b (model_forward (parameters (model st))
                                                      false b)))
               < batch_size cfg) →
       (q < 1)%Q).
Proof.
  intros Ht Hbs Hlen H.
  destruct (inference_one_epoch_inr cfg loader epoch ph st sm H)
    as (succ & RR & Hl & Hdiv & _ & Hev).
  specialize (Hdiv Ht).
  destruct (epoch_loop_eval cfg epoch ph _ (loader ph) Ht 0 _ _ _ Hl)
    as (Hc & Hnp & Hlog & _).
  assert (Hne : loader ph ≠ []).
  { intros E. rewrite E in Hl. by cbn in Hl. }
  cbn [snd counter_value] in Hc, Hnp. rewrite (Hnp Hne), Hc in Hdiv.
  rewrite cleared_model in Hdiv.
  cbn [true_divide] in Hdiv.
  assert (Hd : 0 < Z.of_nat (List.length (loader ph)) * batch_size cfg).
  { destruct (loader ph); [done|]. simpl List.length. lia. }
  assert (Hd' : (Z.of_nat (List.length (loader ph)) * batch_size cfg =? 0) = false)
    by (apply Z.eqb_neq; lia).
  rewrite Hd' in Hdiv. rewrite ?Z.add_0_l in Hdiv. injection Hdiv as <-.
  destruct (successes_bounds (parameters (model st)) (loader ph) (batch_size cfg))
    as [Hb1 Hb2]; [lia|done|].
  destruct (quotient_in_unit (successes (parameters (model st)) (loader ph))
              (Z.of_nat (List.length (loader ph)) * batch_size cfg) Hd Hb1)
    as (Q1 & Q2 & Q3).
  eexists. split_and!; [|exact Q1|exact Q2|].
  - rewrite Hev, Ht. proj. rewrite Hlog.
    rewrite omap_add_scalars by done.
    destruct (distributed cfg); cbn [app]; by proj.
  - intros Hshort. by apply Q3, Hb2.
Qed.
End RecallRange.

Lemma recall_in_unit_interval_witness :
  ∃ q, omap log_line
         (events (inference_one_epoch (X := Toy.externals) Toy.cfg Toy.loader 1 Val
                    Toy.fresh))
       = [recall_line (X := Toy.externals) Val 1 (Finite q);
          summary_line (X := Toy.externals) Val 1 Toy.val_meter]
       ∧ (q <= 1)%Q.
Proof.
  destruct (recall_in_unit_interval (X := Toy.externals) Toy.cfg Toy.loader 1 Val Toy.fresh
              Toy.val_meter) as (q & H1 & _ & H2 & _).
  - reflexivity.
  - reflexivity.
  - intros b Hb. simpl in Hb. destruct Hb as [<-|[<-|[<-|[<-|[]]]]]; discriminate.
  - vm_compute. reflexivity.
  - exists q. by split.
Defined.

(** ** What the checkpoint of a run holds *)
Section SavedByTrain.
Context {X : Externals}.
Variable cfg : Config.
Variable loader : phase → list Batch.


End SavedByTrain.


(** ** After the training epoch *)
Section AfterTraining.
Context {X : Externals}.
Variable cfg : Config.
Variable loader : phase → list Batch.

Lemma train_meter_loss_key epoch st sm :
  result (inference_one_epoch cfg loader epoch Train st) = inr sm →
  In "loss" (keys sm).
Proof.
  intros H.
  destruct (inference_one_epoch_inr cfg loader epoch Train st sm H)
    as (succ & RR & Hl & _).
  destruct (loader Train) as [|b bs] eqn:Hload; [by cbn in Hl|].
  set (li := desc_loss (model_forward (parameters (model st)) true b)).
  destruct (epoch_loop_stats cfg epoch Train _ (b :: bs) 0 _ _ _
              (keys (create_meter li)) Hl) as (_ & Hsm & _).
  { intros b' [= <-]. by rewrite cleared_model. }
  destruct Hsm as (smf & E & Hk); [done|]. cbn [fst] in E. injection E as <-.
  rewrite Hk. apply create_meter_has.
  rewrite epoch_loop_cons in Hl. inv_bind Hl vars1 H1. clear Hl.
  unfold one_iteration in H1. inv_bind H1 u Hu. clear Hu. norm.
  inv_bind H1 r Hb. clear H1.
  destruct (inference_one_batch_run b Train (cleared cfg st))
    as (_ & _ & _ & _ & _ & _ & Ht & _).
  specialize (Ht eq_refl). rewrite Hb in Ht. cbn [is_train] in Ht.
  rewrite cleared_model in Ht.
  fold li in Ht. unfold dict_item in Ht.
  destruct (dict_get "loss" li) as [q|] eqn:Hq; [|done].
  by eapply dict_get_Some_in.
Qed.

(** X18.  The meter a training epoch returns always has the entry
    ["loss"]: the backward pass of the first batch has read that key of
    the [loss_info] the meter is created from.  So the lookup
    [stats_meter['loss']] at line 293 cannot raise. *)
Theorem training_meter_has_loss epoch st sm :
  result (inference_one_epoch cfg loader epoch Train st) = inr sm →
  ∃ meter, dict_item "loss" sm = inr meter.
Proof.
  intros H. by apply dict_item_in, (train_meter_loss_key epoch st).
Qed.

(** an epoch, however it ends, is the one milestone of its entry *)
Lemma epoch_milestone_any epoch ph st :
  omap milestone (events (inference_one_epoch cfg loader epoch ph st))
  = [RunEpoch epoch ph].
Proof.
  rewrite epoch_split. cbv zeta. cbn [events].
  match goal with |- context [events (?m (cleared cfg st))] => set (rest := m) end.
  destruct (steady_epoch_rest cfg loader (λ _, tt) (λ _ e, milestone e = None)
              (λ _ _, eq_refl) (λ _, eq_refl) (λ _ _ H, H) epoch ph
              (Z.of_nat (List.length (loader ph))) (cleared cfg st)) as [_ He].
  fold rest in He. apply Forall_omap_nil in He.
  change (omap milestone (EvEpoch epoch ph :: ?l)) with (RunEpoch epoch ph :: omap milestone l).
  f_equal. destruct (distributed cfg); cbn [app]; proj; exact He.
Qed.

(** X19.  When the training epoch raises, [train] raises the same
    exception at once: the scheduler is not stepped, no file is
    written, and no validation epoch is entered. *)
Theorem failed_training_epoch_stops_run st e :
  start_epoch st < max_epoch cfg →
  result (inference_one_epoch cfg loader (start_epoch st) Train st) = inl e →
  let o := train cfg loader st in
  result o = inl e
  ∧ omap milestone (events o) = [RunEpoch (start_epoch st) Train]
  ∧ scheduler (final o) = scheduler st
  ∧ fs (final o) = fs st.
Proof.
  intros Hlt He. cbv zeta. rewrite (train_run cfg loader st Hlt). cbv zeta.
  assert (Ht : train_epoch cfg loader (start_epoch st) st
               = MkOut (inl e)
                   (final (inference_one_epoch cfg loader (start_epoch st) Train st))
                   (events (inference_one_epoch cfg loader (start_epoch st) Train st))).
  { unfold train_epoch. by rewrite (bind_raise_run _ _ _ _ He). }
  rewrite Ht. cbn [result final events].
  destruct (epoch_keeps_schedule cfg loader (start_epoch st) Train st) as [Hf _].
  injection Hf as Hsch _ _ Hfs.
  split_and!; [done| |done|done].
  destruct (local_rank cfg =? 0); cbn [app]; proj; apply epoch_milestone_any.
Qed.
End AfterTraining.

Lemma training_meter_has_loss_witness :
  ∃ meter, dict_item "loss" Toy.train_meter = inr meter.
Proof.
  apply (training_meter_has_loss (X := Toy.externals) Toy.cfg Toy.loader 1 Toy.fresh).
  vm_compute. reflexivity.
Defined.

Lemma failed_training_epoch_stops_run_witness :
  result (train (X := Toy.externals) Toy.cfg Toy.loader_no_loss Toy.fresh)
  = inl (KeyError "loss").
Proof.
  apply (failed_training_epoch_stops_run (X := Toy.externals) Toy.cfg Toy.loader_no_loss
           Toy.fresh (KeyError "loss")).
  - reflexivity.
  - vm_compute. reflexivity.
Defined.

(** ** The averages of an evaluation epoch *)
Section MeterFacts.
Context {V : Type}.

End MeterFacts.



Section EvaluationAverages.
Context {X : Externals}.
Variable cfg : Config.
Variable loader : phase → list Batch.




End EvaluationAverages.


(** ** Moving a batch to the device *)
Section LoadBatchFacts.
Context {Data Device : Type}.
Implicit Types (o : @Object Data Device) (v : @Value Data Device).

Lemma to_all_tensors (device : Device) (items : list (@Object Data Device)) :
  List.forallb is_tensor items = true →
  ∃ items', to_all device items = inr items'
            ∧ List.forallb is_tensor items' = true
            ∧ Forall (at_device device) items'
            ∧ to_all device items' = inr items'.
Proof.
  induction items as [|[data d|n] items IH]; intros H.
  - by exists [].
  - destruct (IH H) as (items' & E & Ht & Hd & Hi). cbn [to_all to]. rewrite E.
    exists (OTensor data device :: items'). split_and!; try done.
    + by constructor.
    + cbn [to_all to]. by rewrite Hi.
  - done.
Qed.

Lemma to_all_other (device : Device) (items : list (@Object Data Device)) :
  List.forallb is_tensor items = false →
  ∃ n, In (OOther n) items
       ∧ to_all device items
         = inl (AttributeError ("'" +:+ n +:+ "' object has no attribute 'to'")).
Proof.
  induction items as [|[data d|n] items IH]; intros H.
  - done.
  - destruct (IH H) as (n & Hin & E). exists n. split; [by right|].
    cbn [to_all to]. by rewrite E.
  - exists n. split; [by left|done].
Qed.

Lemma moved_supported (device : Device) v :
  supported v = true →
  ∃ v', moved device v = inr v'
        ∧ supported v' = true
        ∧ on_device device v'
        ∧ moved device v' = inr v'.
Proof.
  destruct v as [[data d|n]|items| | | |]; intros H; try done; try (by eexists).
  destruct (to_all_tensors device items H) as (items' & E & Ht & Hd & Hi).
  exists (VList items'). cbn [moved]. by rewrite E, Hi.
Qed.

Lemma moved_unsupported (device : Device) v :
  supported v = false →
  ∃ n, moved device v
       = inl (AttributeError ("'" +:+ n +:+ "' object has no attribute 'to'")).
Proof.
  destruct v as [[data d|n]|items| | | |]; intros H; try done.
  - by exists n.
  - destruct (to_all_other device items H) as (n & _ & E). exists n. cbn [moved].
    by rewrite E.
Qed.

(** X21.  The loop that moves a batch to the device keeps the fields
    and their order, whatever happens.  It runs to its end exactly when
    every field is a tensor, a list of tensors, or of one of the types it
    passes over ([dict], [float], [None], [ndarray]); then every tensor
    of the batch, at the top or in a list, is on the device, and running
    the loop again on the batch changes nothing. *)
Theorem load_batch_moves_supported (device : Device)
    (inputs : list (string * @Value Data Device)) :
  let r := load_batch device inputs in
  keys (fst r) = keys inputs
  ∧ (snd r = None ↔ List.forallb (λ kv, supported (snd kv)) inputs = true)
  ∧ (snd r = None →
     Forall (λ kv, on_device device (snd kv)) (fst r)
     ∧ load_batch device (fst r) = (fst r, None)).
Proof.
  cbv zeta. induction inputs as [|[k v] inputs (IH1 & IH2 & IH3)].
  - by split_and!.
  - cbn [load_batch List.forallb snd]. destruct (supported v) eqn:Hs.
    + destruct (moved_supported device v Hs) as (v' & E & Hs' & Hd & Hi).
      rewrite E. cbn [fst snd keys List.map andb]. split_and!.
      * f_equal. exact IH1.
      * exact IH2.
      * intros Hn. destruct (IH3 Hn) as [Hf Hl]. split.
        -- by constructor.
        -- cbn [load_batch]. rewrite Hi, Hl. done.
    + destruct (moved_unsupported device v Hs) as (n & E). rewrite E.
      cbn [fst snd andb]. split_and!; try done.
Qed.

(** X22.  When the loop meets a field it cannot move (an [int], a
    [str], a list with an item that is not a tensor), it raises
    [AttributeError] there and leaves the batch half moved: the fields
    before are on the device, that field and the ones after are as they
    were. *)
Theorem load_batch_stops_half_way (device : Device)
    (before after : list (string * @Value Data Device)) k v :
  List.forallb (λ kv, supported (snd kv)) before = true →
  supported v = false →
  ∃ before' n,
    load_batch device (before ++ (k, v) :: after)
    = (before' ++ (k, v) :: after,
       Some (AttributeError ("'" +:+ n +:+ "' object has no attribute 'to'")))
    ∧ load_batch device before = (before', None)
    ∧ keys before' = keys before
    ∧ Forall (λ kv, on_device device (snd kv)) before'.
Proof.
  intros Hb Hv. destruct (moved_unsupported device v Hv) as (n & E).
  induction before as [|[k0 v0] before IH].
  - exists [], n. cbn [app load_batch]. by rewrite E.
  - cbn [List.forallb snd] in Hb. apply andb_prop in Hb as [Hs Hb].
    destruct (IH Hb) as (before' & n' & H1 & H2 & H3 & H4).
    destruct (moved_supported device v0 Hs) as (v0' & E0 & _ & Hd & _).
    exists ((k0, v0') :: before'), n'. cbn [app load_batch]. rewrite E0, H1, H2.
    cbn [fst snd keys List.map]. split_and!; try done.
    + f_equal. exact H3.
    + by constructor.
Qed.
End LoadBatchFacts.

Lemma load_batch_moves_supported_witness :
  Forall (λ kv, on_device "cuda:0"%string (snd kv))
    (fst (load_batch "cuda:0"%string
            [("src", VList [OTensor 1 "cpu"%string; OTensor 2 "cpu"%string]);
             ("scale", VFloat (1 # 2)); ("tgt", VObject (OTensor 3 "cpu"%string))])).
Proof.
  destruct (load_batch_moves_supported "cuda:0"%string
              [("src", VList [OTensor 1 "cpu"%string; OTensor 2 "cpu"%string]);
               ("scale", VFloat (1 # 2)); ("tgt", VObject (OTensor 3 "cpu"%string))])
    as (_ & _ & H).
  destruct H as [H _]; [reflexivity|exact H].
Defined.

Lemma load_batch_stops_half_way_witness :
  ∃ before' n,
    load_batch "cuda:0"%string
      ([("src", VObject (OTensor 1 "cpu"%string))]
       ++ ("index", VObject (OOther "int")) :: [("tgt", VObject (OTensor 3 "cpu"%string))])
    = (before' ++ ("index", VObject (OOther "int"))
                  :: [("tgt", VObject (OTensor 3 "cpu"%string))],
       Some (AttributeError ("'" +:+ n +:+ "' object has no attribute 'to'")))
    ∧ before' = [("src", VObject (OTensor 1 "cuda:0"%string))].
Proof.
  destruct (load_batch_stops_half_way "cuda:0"%string
              [("src", VObject (OTensor 1 "cpu"%string))]
              [("tgt", VObject (OTensor 3 "cpu"%string))]
              "index" (VObject (OOther "int")) eq_refl eq_refl)
    as (before' & n & H1 & H2 & _).
  exists before', n. split; [exact H1|]. by injection H2 as <-.
Defined.

(** ** How [get_recall] pairs its lists *)
Section GetRecallFacts.
Context {Rot Trn Matrix Pcd : Type}.
Variable compute_matrix : Rot → Trn → Matrix.
Variable compute_RMSE : Pcd → Matrix → Matrix → option Q.

Lemma length_zip {A B} (l1 : list A) (l2 : list B) :
  List.length (Recall.zip l1 l2) = Nat.min (List.length l1) (List.length l2).
Proof.
  revert l2. induction l1 as [|a l1 IH]; intros [|b l2]; simpl; [done..|].
  by rewrite IH.
Qed.

Lemma lookup_zip {A B} (l1 : list A) (l2 : list B) i a b :
  l1 !! i = Some a → l2 !! i = Some b → Recall.zip l1 l2 !! i = Some (a, b).
Proof.
  revert l2 i. induction l1 as [|a' l1 IH]; intros [|b' l2] [|i] H1 H2; simpl in *;
    try done.
  - by injection H1 as ->; injection H2 as ->.
  - by apply IH.
Qed.

Lemma lookup_map {A B} (f : A → B) (l : list A) i a :
  l !! i = Some a → List.map f l !! i = Some (f a).
Proof.
  revert i. induction l as [|a' l IH]; intros [|i] H; simpl in *; try done.
  - by injection H as ->.
  - by apply IH.
Qed.

(** X23.  [get_recall] returns one error for each index at which the
    batch has a ground-truth rotation and translation, the registration
    has returned a rotation and a translation, and there is a source
    point cloud: as many as the shortest of the five lists, the [zip]s
    dropping what is beyond.  The error at such an index compares the
    transform assembled from the ground truth with the one assembled
    from the registration, on the source point cloud of that index. *)
Theorem get_recall_pairs_by_index (batched_rot : list Rot) (batched_trn : list Trn)
    (rot : list Rot) (trn : list Trn) (src_pcd_list : list Pcd) :
  let rmses := Recall.get_recall compute_matrix compute_RMSE
                 batched_rot batched_trn rot trn src_pcd_list in
  List.length rmses
  = Nat.min (List.length src_pcd_list)
      (Nat.min (Nat.min (List.length batched_rot) (List.length batched_trn))
               (Nat.min (List.length rot) (List.length trn)))
  ∧ ∀ i pcd gr gt r t,
      src_pcd_list !! i = Some pcd →
      batched_rot !! i = Some gr → batched_trn !! i = Some gt →
      rot !! i = Some r → trn !! i = Some t →
      rmses !! i = Some (compute_RMSE pcd (compute_matrix gr gt) (compute_matrix r t)).
Proof.
  cbv zeta. unfold Recall.get_recall. split.
  - by rewrite List.length_map, !length_zip, !List.length_map, !length_zip.
  - intros i pcd gr gt r t Hp Hgr Hgt Hr Ht.
    apply (lookup_map (λ x, compute_RMSE (fst x) (fst (snd x)) (snd (snd x))) _ i
             (pcd, (compute_matrix gr gt, compute_matrix r t))).
    apply lookup_zip; [done|]. apply lookup_zip.
    + apply (lookup_map (λ p, compute_matrix (fst p) (snd p)) _ i (gr, gt)).
      by apply lookup_zip.
    + apply (lookup_map (λ p, compute_matrix (fst p) (snd p)) _ i (r, t)).
      by apply lookup_zip.
Qed.
End GetRecallFacts.

Lemma get_recall_pairs_by_index_witness :
  List.length
    (Recall.get_recall (λ (r t : Z), r + t) (λ (p g e : Z), Some (inject_Z (p + g - e)))
       [1; 2; 3] [10; 20; 30] [1; 2] [10; 20] [0; 0; 0])
  = 2%nat.
Proof.
  destruct (get_recall_pairs_by_index (λ (r t : Z), r + t)
              (λ (p g e : Z), Some (inject_Z (p + g - e)))
              [1; 2; 3] [10; 20; 30] [1; 2] [10; 20] [0; 0; 0]) as [H _].
  exact H.
Defined.

Lemma train_keeps_best_witness :
  best_loss (final (train (X := Toy.externals) Toy.cfg Toy.loader Toy.fresh)) = 100000%Q.
Proof.
  destruct (train_keeps_best (X := Toy.externals) Toy.cfg Toy.loader Toy.fresh)
    as (_ & _ & H & _).
  rewrite H. reflexivity.
Defined.

(** ** Calling [train] again, and a validation loader without batches *)
Section Again.
Context {X : Externals}.
Variable cfg : Config.
Variable loader : phase → list Batch.

(** X24.  [train] does not advance [start_epoch].  Called a second
    time on the same trainer it enters the training epoch of the same
    number again, however the first call ended. *)
Theorem train_again_repeats_epoch st :
  start_epoch st < max_epoch cfg →
  let again := train cfg loader (final (train cfg loader st)) in
  omap train_epoch_of (events again) = [start_epoch st].
Proof.
  intros Hlt. cbv zeta.
  assert (Hs : start_epoch (final (train cfg loader st)) = start_epoch st).
  { destruct (steady_train cfg loader st) as [Hf _]. unfold settings in Hf.
    by injection Hf. }
  rewrite (train_enters_start_epoch cfg loader) by (by rewrite Hs). by rewrite Hs.
Qed.


End Again.

Lemma train_again_repeats_epoch_witness :
  omap (train_epoch_of (X := Toy.externals))
    (events (train (X := Toy.externals) Toy.cfg Toy.loader
               (final (train (X := Toy.externals) Toy.cfg Toy.loader Toy.fresh))))
  = [1].
Proof.
  apply (train_again_repeats_epoch (X := Toy.externals) Toy.cfg Toy.loader Toy.fresh).
  reflexivity.
Defined.


(** ** Resuming from the checkpoint of a run *)
Section Shapes.
Context {X : Externals}.

Lemma parameters_with_parameters (m : Model) (sd : StateDict) :
  parameters (with_parameters m sd) = sd.
Proof. induction m as [sd0|m IH]; [done|]. exact IH. Qed.

Lemma with_parameters_twice (m : Model) (a b : StateDict) :
  with_parameters (with_parameters m a) b = with_parameters m b.
Proof. induction m as [sd0|m IH]; [done|]. cbn [with_parameters]. by rewrite IH. Qed.

(** two networks wrapped alike differ by their parameters only *)
Lemma same_shape (m m' : Model) :
  with_parameters m [] = with_parameters m' [] →
  m = with_parameters m' (parameters m).
Proof.
  revert m'. induction m as [sd|m IH]; intros [sd'|m'] H; cbn in *; try done.
  injection H as H. f_equal. by apply IH.
Qed.

Lemma with_parameters_built cfg (sd sd' : StateDict) :
  with_parameters (built cfg sd) sd' = built cfg sd'.
Proof. unfold built. by destruct (distributed cfg), (parallel cfg). Qed.

Lemma parameters_built cfg (sd : StateDict) : parameters (built cfg sd) = sd.
Proof. unfold built. by destruct (distributed cfg), (parallel cfg). Qed.
End Shapes.

Section ResumeAfterTrain.
Context {X : Externals}.
Variable cfg : Config.
Variable loader : phase → list Batch.

(** an optimizer that keeps the names of the parameters keeps the
    wrapping and the names of the network through an epoch *)
Lemma epoch_keeps_shape epoch ph :
  (∀ o p g, keys (snd (optimizer_step o p g)) = keys p) →
  steady (λ st, (with_parameters (model st) [], keys (parameters (model st))))
         (λ _ _, True)
         (inference_one_epoch cfg loader epoch ph).
Proof.
  intros Hopt. apply steady_epoch; try done.
  intros st. cbv zeta. cbn [model set_model_optimizer].
  by rewrite with_parameters_twice, parameters_with_parameters, Hopt.
Qed.

(** the trainer and the disk as a training epoch of [train] on rank 0
    leaves them *)
Lemma train_epoch_outcome epoch st ctl :
  local_rank cfg = 0 →
  result (train_epoch cfg loader epoch st) = inr ctl →
  let o := train_epoch cfg loader epoch st in
  let s1 := final (inference_one_epoch cfg loader epoch Train st) in
  ∃ sd path,
    let ck := {| ck_epoch := epoch; ck_state_dict := sd;
                 ck_optimizer := optimizer s1;
                 ck_scheduler := scheduler_step (scheduler st);
                 ck_best_loss := best_loss st; ck_best_recall := best_recall st |} in
    (if distributed cfg
     then sd = ordered_dict (List.map strip_prefix (state_dict (model s1)))
     else if parallel cfg
     then ∃ inner, model s1 = Wrapped inner ∧ sd = state_dict inner
     else sd = state_dict (model s1))
    ∧ fs (final o) = <[path := ck]> (<[snapshot_path cfg := ck]> (fs st))
    ∧ model (final o) = model s1
    ∧ optimizer (final o) = optimizer s1
    ∧ scheduler (final o) = scheduler_step (scheduler st)
    ∧ best_loss (final o) = best_loss st
    ∧ best_recall (final o) = best_recall st.
Proof.
  intros Hrank H. cbv zeta. unfold train_epoch in *.
  inv_bind H sm H1. inv_bind H u1 H2. clear H2.
  inv_bind H meter H3. rewrite lift_run in H3. cbn [result] in H3.
  inv_bind H u2 H4. inv_bind H u3 H5. clear H.
  rewrite Hrank in *. cbn [Z.eqb when] in *.
  destruct (epoch_keeps_schedule cfg loader epoch Train st) as [Hf1 _].
  set (s1 := final (inference_one_epoch cfg loader epoch Train st)) in *.
  injection Hf1 as Hsch Hbl Hbr Hfs.
  rewrite lift_run in *. cbn [final events] in *.
  set (s2 := final (sched_step s1)) in *.
  destruct u2.
  destruct (snapshot_inr cfg _ _ _ H4) as (sd & Hsd & _ & Hfin). cbv zeta in Hfin.
  set (s3 := final (_snapshot cfg epoch _ s2)) in *.
  assert (Hv : final (when (do_valid cfg)
                        (_ ← inference_one_epoch cfg loader epoch Val; mret tt) s3)
               = s3 ∨
               final (when (do_valid cfg)
                        (_ ← inference_one_epoch cfg loader epoch Val; mret tt) s3)
               = cleared cfg s3).
  { unfold when. destruct (do_valid cfg); [right|by left].
    destruct (result (inference_one_epoch cfg loader epoch Val s3)) as [e|smv] eqn:Er.
    - rewrite (bind_raise_run _ _ _ _ Er). cbn [final]. by apply eval_epoch_final.
    - rewrite (bind_ok_run _ _ _ _ Er). rewrite ret_run. cbn [final].
      by apply eval_epoch_final. }
  exists sd, (archive_path cfg epoch
                (Some (str_int epoch +:+ "_epoch_model_loss_" +:+ repr_float (avg meter)))).
  rewrite ret_run. cbn [final].
  assert (Hs3 : fs s3 = <[archive_path cfg epoch
                            (Some (str_int epoch +:+ "_epoch_model_loss_"
                                   +:+ repr_float (avg meter))) :=
                          {| ck_epoch := epoch; ck_state_dict := sd;
                             ck_optimizer := optimizer s1;
                             ck_scheduler := scheduler_step (scheduler st);
                             ck_best_loss := best_loss st;
                             ck_best_recall := best_recall st |}]>
                        (<[snapshot_path cfg :=
                           {| ck_epoch := epoch; ck_state_dict := sd;
                              ck_optimizer := optimizer s1;
                              ck_scheduler := scheduler_step (scheduler st);
                              ck_best_loss := best_loss st;
                              ck_best_recall := best_recall st |}]> (fs st))
                ∧ model s3 = model s1 ∧ optimizer s3 = optimizer s1
                ∧ scheduler s3 = scheduler_step (scheduler st)
                ∧ best_loss s3 = best_loss st ∧ best_recall s3 = best_recall st).
  { subst s3. rewrite Hfin. cbn [fs model optimizer scheduler best_loss best_recall set_fs].
    subst s2.
    change (scheduler (final (sched_step s1))) with (scheduler_step (scheduler s1)).
    change (optimizer (final (sched_step s1))) with (optimizer s1).
    change (best_loss (final (sched_step s1))) with (best_loss s1).
    change (best_recall (final (sched_step s1))) with (best_recall s1).
    change (fs (final (sched_step s1))) with (fs s1).
    change (model (final (sched_step s1))) with (model s1).
    by rewrite Hsch, Hbl, Hbr, Hfs. }
  destruct Hs3 as (F1 & F2 & F3 & F4 & F5 & F6).
  split; [exact Hsd|].
  destruct Hv as [-> | ->]; unfold cleared; destruct (parallel cfg);
    cbn [fs model optimizer scheduler best_loss best_recall set_grads];
    by rewrite F1, F2, F3, F4, F5, F6.
Qed.

(** X26.  Resuming from the [snapshot.pth] of a run carries on where
    the run stopped.  Let [train] on rank 0 return, for a trainer whose
    network is wrapped as [__init__] wraps it, with an optimizer that
    keeps the parameter names, and not under [distributed] and
    [parallel] at once.  Then a trainer constructed in the same mode with
    [pretrain = "snapshot.pth"], on the disk the run left, starts at the
    next epoch and has the network, the optimizer and the scheduler the
    run ended with, the scheduler having been stepped once. *)
Theorem resume_after_train (cfg' : Config) (st : State)
    (sd args_model : StateDict) args_optimizer args_scheduler :
  (∀ o p g, keys (snd (optimizer_step o p g)) = keys p) →
  (distributed cfg && parallel cfg)%bool = false →
  model st = built cfg sd →
  NoDup (keys sd) →
  keys args_model = keys sd →
  save_dir cfg' = save_dir cfg →
  distributed cfg' = distributed cfg →
  parallel cfg' = parallel cfg →
  batch_size cfg' ≠ 0 →
  pretrain cfg' = "snapshot.pth" →
  start_epoch st < max_epoch cfg →
  local_rank cfg = 0 →
  result (train cfg loader st) = inr tt →
  let ran := final (train cfg loader st) in
  let o := __init__ cfg' args_model args_optimizer args_scheduler (fs ran) in
  result o = inr tt
  ∧ start_epoch (final o) = start_epoch st + 1
  ∧ model (final o) = model ran
  ∧ optimizer (final o) = optimizer ran
  ∧ scheduler (final o) = scheduler ran
  ∧ scheduler ran = scheduler_step (scheduler st)
  ∧ best_loss (final o) = best_loss ran
  ∧ best_recall (final o) = best_recall ran.
Proof.
  intros Hopt Hmode Hm Hnd Hk Hdir Hd Hp Hb Hfile Hlt Hrank H. cbv zeta.
  rewrite (train_run cfg loader st Hlt) in *. cbv zeta in *.
  destruct (result (train_epoch cfg loader (start_epoch st) st)) as [e|ctl] eqn:Hr;
    [done|]. cbn [final]. clear H.
  destruct (train_epoch_outcome _ _ _ Hrank Hr)
    as (sd' & path & Hsd & Hfs & Fm & Fo & Fs & Fl & Fr). cbv zeta in Hsd, Hfs.
  assert (Hshape :
            with_parameters
              (model (final (inference_one_epoch cfg loader (start_epoch st) Train st))) []
            = with_parameters (model st) []
            ∧ keys (parameters
                      (model (final (inference_one_epoch cfg loader (start_epoch st)
                                       Train st))))
              = keys (parameters (model st))).
  { destruct (epoch_keeps_shape (start_epoch st) Train Hopt st) as [Hs _].
    by injection Hs. }
  destruct Hshape as [Hw Hkeys].
  set (s1 := final (inference_one_epoch cfg loader (start_epoch st) Train st)) in *.
  set (sd1 := parameters (model s1)) in *.
  assert (Hm1 : model s1 = built cfg sd1).
  { rewrite (same_shape _ _ Hw), Hm. apply with_parameters_built. }
  assert (Hk1 : keys sd1 = keys sd) by (by rewrite Hkeys, Hm, parameters_built).
  assert (Hnd1 : NoDup (keys sd1)) by (by rewrite Hk1).
  assert (Esd : sd' = sd1).
  { rewrite Hm1 in Hsd. unfold built in Hsd.
    destruct (distributed cfg) eqn:Ed.
    - destruct (parallel cfg); [done|]. simpl in Hsd.
      by rewrite Hsd, strip_add_prefix, ordered_dict_nodup.
    - destruct (parallel cfg).
      + destruct Hsd as (inner & [= <-] & ->). done.
      + done. }
  subst sd'.
  set (state := {| ck_epoch := start_epoch st; ck_state_dict := sd1;
                   ck_optimizer := optimizer s1;
                   ck_scheduler := scheduler_step (scheduler st);
                   ck_best_loss := best_loss st; ck_best_recall := best_recall st |}) in *.
  rewrite Hfs, Fm, Fo, Fs, Fl, Fr.
  set (disk := <[path := state]> (<[snapshot_path cfg := state]> (fs st))).
  destruct (init_run cfg' args_model args_optimizer args_scheduler disk Hb)
    as (Hres & _ & Hf). cbv zeta in Hres, Hf.
  set (st1 := set_verbose_freq _ (fresh_state cfg' args_model args_optimizer
                                    args_scheduler disk)) in *.
  rewrite Hfile in Hres, Hf. cbn [negb String.eqb when] in Hres, Hf.
  assert (Hfound : fs st1 !! path_join (save_dir cfg') "snapshot.pth" = Some state).
  { subst st1 disk. cbn [fs set_verbose_freq fresh_state]. rewrite Hdir.
    fold (snapshot_path cfg). rewrite lookup_insert. case_decide; [done|].
    by rewrite lookup_insert_eq. }
  assert (Hload : load_state_dict (model st1)
                    (if distributed cfg'
                     then ordered_dict (List.map add_prefix (ck_state_dict state))
                     else ck_state_dict state)
                  = (if distributed cfg' then Wrapped (Base sd1) else Base sd1, None)).
  { subst st1. cbn [model set_verbose_freq fresh_state ck_state_dict state].
    destruct (distributed cfg').
    - rewrite ordered_dict_nodup by (by apply NoDup_add_prefix).
      apply load_wrapped; [done|]. by rewrite Hk, Hk1.
    - apply load_bare; [done|]. by rewrite Hk, Hk1. }
  destruct (load_pretrain_found cfg' _ _ _ _ Hfound Hload) as [Hlr Hlf].
  rewrite Hlr in Hres. specialize (Hf Hlr). rewrite Hlf in Hf.
  rewrite Hres, Hf, Hm1, Hd, Hp. unfold built.
  split_and!; try done; destruct (parallel cfg); reflexivity.
Qed.
End ResumeAfterTrain.

Lemma resume_after_train_witness :
  start_epoch
    (final (__init__ (X := Toy.externals) Toy.resume_cfg Toy.net 0 0
              (fs (final (train (X := Toy.externals) Toy.cfg Toy.loader Toy.fresh)))))
  = 2.
Proof.
  destruct (resume_after_train (X := Toy.externals) Toy.cfg Toy.loader Toy.resume_cfg
              Toy.fresh Toy.net Toy.net 0 0) as (_ & H & _).
  - intros o p g. unfold keys. cbn. rewrite List.map_map. reflexivity.
  - reflexivity.
  - reflexivity.
  - apply (bool_decide_unpack _). vm_compute. reflexivity.
  - reflexivity.
  - reflexivity.
  - reflexivity.
  - reflexivity.
  - discriminate.
  - reflexivity.
  - reflexivity.
  - reflexivity.
  - vm_compute. reflexivity.
  - exact H.
Defined.

(** ** The optimizer under [parallel] *)
Section WrappedOptimizer.
Context {X : Externals}.
Variable cfg : Config.
Variable loader : phase → list Batch.

(** X27.  Under [parallel] a training batch at an index where the
    decision is due, and whose gradients the validator accepts, stops
    the epoch: line 229 looks [step] up on the [nn.DataParallel] that
    line 85 put around the optimizer, and raises [AttributeError].  The
    validation has been made; no step is applied, the [zero_grad] of
    line 232 is not reached, the network and the optimizer are those
    from before the batch, and the gradients of the batch stay
    pending. *)
Theorem wrapped_optimizer_cannot_step epoch total c b vars st :
  let p := parameters (model st) in
  parallel cfg = true →
  iter_size cfg ≠ 0 →
  due (iter_size cfg) c = true →
  In "loss" (keys (desc_loss (model_forward p true b))) →
  validate_gradient p (loss_backward p b (grads st)) = true →
  let o := one_iteration cfg epoch Train total c b vars st in
  result o = inl (AttributeError "'DataParallel' object has no attribute 'step'")
  ∧ events o = [EvBatch Train c; EvValidate c true]
  ∧ model (final o) = model st
  ∧ optimizer (final o) = optimizer st
  ∧ grads (final o) = loss_backward p b (grads st).
Proof.
  intros p Hp Hi Hd Hloss Hv. cbv zeta. unfold one_iteration.
  rewrite (bind_ok_run (emit (EvBatch Train c)) _ st tt eq_refl).
  change (final (emit (EvBatch Train c) st)) with st.
  destruct (inference_one_batch_run b Train st) as (Hev & Hm & Ho & _ & _ & _ & Ht & Hg).
  assert (Hb : result (inference_one_batch b Train st)
               = inr (desc_loss (model_forward (parameters (model st)) true b),
                      model_forward (parameters (model st)) true b)).
  { pose proof (Ht eq_refl) as Ht'. cbn [is_train] in Ht'. rewrite Ht'.
    destruct (dict_item_in _ _ Hloss) as [q Hq]. fold p. by rewrite Hq. }
  pose proof (Hg eq_refl _ Hb) as Hg1. clear Hg Ht.
  rewrite (bind_ok_run _ _ st _ Hb). cbn [result final events]. rewrite Hev.
  pose proof (run_optimisation_run cfg c Train (final (inference_one_batch b Train st)))
    as Hopt.
  cbv zeta in Hopt. apply Z.eqb_neq in Hi. rewrite Hi, Hd, Hp, Hm, Hg1 in Hopt.
  fold p in Hopt. rewrite Hv in Hopt. cbn [andb is_train] in Hopt.
  destruct Hopt as (Hr & Hevo & Hfo).
  rewrite (bind_raise_run _ _ _ _ Hr). cbn [result final events].
  rewrite Hevo, Hfo, Hm, Ho, Hg1. by split_and!.
Qed.

(** X28.  Under [parallel] a training batch at an index where the
    decision is due, and whose gradients the validator rejects, is
    skipped as it is without the wrapper: when its iteration returns,
    the validation has been made, no step has been applied, and the
    network and the optimizer are those from before the batch.  But the
    [zero_grad] of line 232 has been called on the wrapper and has
    cleared nothing: the rejected gradients are still pending, and the
    backward pass of the next batch adds to them. *)
Theorem wrapped_optimizer_keeps_rejected_gradients epoch total c b vars st vars' :
  let p := parameters (model st) in
  parallel cfg = true →
  due (iter_size cfg) c = true →
  validate_gradient p (loss_backward p b (grads st)) = false →
  let i := one_iteration cfg epoch Train total c b vars st in
  result i = inr vars' →
  omap validated_at (events i) = [c]
  ∧ omap stepped_at (events i) = []
  ∧ omap zeroed_at (events i) = [Some c]
  ∧ model (final i) = model st
  ∧ optimizer (final i) = optimizer st
  ∧ grads (final i) = loss_backward p b (grads st).
Proof.
  intros p Hpar Hd Hv. cbv zeta. intros H1.
  destruct (one_iteration_inr cfg _ _ _ _ _ _ _ _ H1)
    as (sm & valid & _ & _ & Hev & _ & _ & _ & _ & Hval & Hm & Hg & _).
  cbn [is_train] in *.
  rewrite (Hval eq_refl) in *. fold p in Hev, Hm. rewrite Hv in *. clear Hval.
  rewrite Hd in *. cbn [andb] in *.
  destruct (Hm (or_intror eq_refl)) as [Hm1 Hm2].
  destruct (iteration_events epoch Train total c false true
              (due (verbose_freq st) c && verbose cfg) sm) as (Ea & Ez & Es & _).
  cbv zeta in Ea, Ez, Es. cbn [andb] in Ea, Ez, Es.
  split_and!; try done.
  - by rewrite Hev.
  - by rewrite Hev.
  - by rewrite Hev.
  - by rewrite (Hg eq_refl), Hpar.
Qed.
End WrappedOptimizer.

Lemma wrapped_optimizer_cannot_step_witness :
  result (one_iteration (X := Toy.externals) Toy.par_cfg 1 Train 5 1 (Toy.good 2)
            (None, PyInt 0) Toy.par_state)
  = inl (AttributeError "'DataParallel' object has no attribute 'step'")
  ∧ grads (final (one_iteration (X := Toy.externals) Toy.par_cfg 1 Train 5 1 (Toy.good 2)
                    (None, PyInt 0) Toy.par_state))
    = 1.
Proof.
  destruct (wrapped_optimizer_cannot_step (X := Toy.externals) Toy.par_cfg 1 5 1
              (Toy.good 2) (None, PyInt 0) Toy.par_state) as (H1 & _ & _ & _ & H2).
  - reflexivity.
  - discriminate.
  - reflexivity.
  - left. reflexivity.
  - reflexivity.
  - split; [exact H1|exact H2].
Defined.

Lemma wrapped_optimizer_keeps_rejected_gradients_witness :
  result (one_iteration (X := Toy.externals) Toy.par_cfg 1 Train 5 1 (Toy.bad 2)
            (None, PyInt 0) Toy.par_state)
  = inr (Some Toy.flat_meter, PyInt 0)
  ∧ grads (final (one_iteration (X := Toy.externals) Toy.par_cfg 1 Train 5 1 (Toy.bad 2)
                    (None, PyInt 0) Toy.par_state))
    = -1.
Proof.
  split; [vm_compute; reflexivity|].
  destruct (wrapped_optimizer_keeps_rejected_gradients (X := Toy.externals) Toy.par_cfg
              1 5 1 (Toy.bad 2) (None, PyInt 0) Toy.par_state
              (Some Toy.flat_meter, PyInt 0))
    as (_ & _ & _ & _ & _ & H2).
  - reflexivity.
  - reflexivity.
  - reflexivity.
  - vm_compute. reflexivity.
  - exact H2.
Defined.
